(** * VTE control-sequence handlers: a shallow embedding

    The development follows [src/parser-glue.hh] (the [Sequence] view and
    the [StringTokeniser]) and [src/vteseq.cc] (the command handlers of
    [VteTerminalPrivate]).  C integers are [Z]; the wrap-around of
    [unsigned int] and [size_t] arithmetic is written out.  Loops carry
    fuel and return [None] when it runs out; the lemmas show that the fuel
    handed to them is always enough. *)

From Stdlib Require Import ZArith List Bool Lia Ascii String.
From Stdlib Require Import DecimalString DecimalZ.
From stdpp Require Import gmap.

Local Open Scope Z_scope.

(** ** Machine integers *)

Definition UINT_MAX : Z := 4294967295.

(** [unsigned int] arithmetic is modulo 2^32. *)
Definition u32 (z : Z) : Z := z mod 2 ^ 32.

(** [size_t] arithmetic is modulo 2^64; [npos] is its largest value. *)
Definition usize (z : Z) : Z := z mod 2 ^ 64.
Definition npos : Z := 2 ^ 64 - 1.

(** The truncation of a [long] to [gint16]. *)
Definition int16 (z : Z) : Z := (z + 2 ^ 15) mod 2 ^ 16 - 2 ^ 15.

(** glib's [CLAMP(x, low, high)]:
    [(x > high) ? high : ((x < low) ? low : x)]. *)
Definition CLAMP (x low high : Z) : Z :=
  if x >? high then high else if x <? low then low else x.

(** [std::max] and [std::min] on [int]. *)
Definition std_max (a b : Z) : Z := if a <? b then b else a.
Definition std_min (a b : Z) : Z := if b <? a then b else a.

(** ** The parameter model ([parser-arg.hh]) *)

Module Arg.

(** Modelled from the spec: the packed argument of [parser-arg.hh], which
    is not among the sources.  Section 3 gives its meaning: an optional
    value in 0..0xFFFF ([None] is the default, unset, argument) and the
    flag marking a colon-separated sub-parameter that is followed by more
    of the same block. *)
Record vte_seq_arg_t : Type := mk_arg {
  arg_value : option Z;
  arg_nonfinal : bool
}.

(** Modelled from the spec: the initial, default-valued final argument. *)
Definition VTE_SEQ_ARG_INIT_DEFAULT : vte_seq_arg_t := mk_arg None false.

(** Modelled from the spec: [value(default)], section 4.2. *)
Definition vte_seq_arg_value (arg : vte_seq_arg_t) (default_value : Z) : Z :=
  match arg_value arg with
  | Some v => v
  | None => default_value
  end.

(** Modelled from the spec: [is_nonfinal()], true iff more sub-parameters
    follow in the same block. *)
Definition vte_seq_arg_nonfinal (arg : vte_seq_arg_t) : bool :=
  arg_nonfinal arg.

(** Modelled from the spec: [is_default()]. *)
Definition vte_seq_arg_default (arg : vte_seq_arg_t) : bool :=
  match arg_value arg with
  | Some _ => false
  | None => true
  end.

(** Modelled from the spec: the value only if the parameter is itself a
    final (non-sub) parameter, the default otherwise (section 4.5,
    [collect_one_final]). *)
Definition vte_seq_arg_value_final (arg : vte_seq_arg_t) (default_value : Z) : Z :=
  if arg_nonfinal arg then default_value
  else vte_seq_arg_value arg default_value.

(** An explicit final parameter, an explicit sub-parameter, and their
    default-valued forms: [5;], [5:], [;] and [:]. *)
Definition fin (v : Z) : vte_seq_arg_t := mk_arg (Some v) false.
Definition sub (v : Z) : vte_seq_arg_t := mk_arg (Some v) true.
Definition fin_default : vte_seq_arg_t := mk_arg None false.
Definition sub_default : vte_seq_arg_t := mk_arg None true.

End Arg.

(** ** The sequence view ([parser-glue.hh], class [Sequence]) *)

Module Sequence.
Import Arg.

(** [VTE_PARSER_ARG_MAX] of [parser.hh]. *)
Definition VTE_PARSER_ARG_MAX : Z := 16.

(** [struct vte_seq]: the handlers below read only the arguments.  The
    list holds the [n_args] filled entries of the [args] array. *)
Record vte_seq : Type := mk_seq {
  args : list vte_seq_arg_t
}.

(** The array has [VTE_PARSER_ARG_MAX] entries, so [n_args] never exceeds
    that. *)
Definition wf (seq : vte_seq) : Prop :=
  Z.of_nat (length (args seq)) <= VTE_PARSER_ARG_MAX.

Definition size (seq : vte_seq) : Z := Z.of_nat (length (args seq)).

(** [m_seq->args[idx]] *)
Definition arg_at (seq : vte_seq) (idx : Z) : vte_seq_arg_t :=
  nth (Z.to_nat idx) (args seq) VTE_SEQ_ARG_INIT_DEFAULT.

Definition param (seq : vte_seq) (idx : Z) (default_v : Z) : Z :=
  if idx <? size seq then vte_seq_arg_value (arg_at seq idx) default_v
  else default_v.

Definition param_clamped (seq : vte_seq) (idx default_v min_v max_v : Z) : Z :=
  let v := param seq idx default_v in
  std_min (std_max v min_v) max_v.

Definition param_nonfinal (seq : vte_seq) (idx : Z) : bool :=
  if idx <? size seq then vte_seq_arg_nonfinal (arg_at seq idx) else false.

Definition param_default (seq : vte_seq) (idx : Z) : bool :=
  if idx <? size seq then vte_seq_arg_default (arg_at seq idx) else true.

(** The [while (param_nonfinal(idx)) ++idx;] of [next]; [None] when the
    fuel runs out before the loop condition fails. *)
Fixpoint next_loop (fuel : nat) (seq : vte_seq) (idx : Z) : option Z :=
  match fuel with
  | O => None
  | S fuel' =>
      if param_nonfinal seq idx then next_loop fuel' seq (u32 (idx + 1))
      else Some idx
  end.

(** [next]: the loop, then [return ++idx].  One unit of fuel per
    argument and one for the final test. *)
Definition next (seq : vte_seq) (idx : Z) : Z :=
  match next_loop (S (length (args seq))) seq idx with
  | Some j => u32 (j + 1)
  | None => u32 (idx + 1)
  end.

Definition cbegin (seq : vte_seq) : Z := 0.
Definition cend (seq : vte_seq) : Z := size seq.

(** The [for (auto i : params)] of [collect] over [n] output slots: the
    values stored through the slots, in order, and the final [idx]. *)
Fixpoint collect_loop (seq : vte_seq) (idx : Z) (n : nat) (default_v : Z)
  : list Z * Z :=
  match n with
  | O => ([], idx)
  | S n' =>
      let v := param seq idx default_v in
      let '(vs, idx') := collect_loop seq (next seq idx) n' default_v in
      (v :: vs, idx')
  end.

(** [collect(start_idx, {slots...}, default_v)]: the returned flag and
    the values written to the slots.  [params.size()] is a [size_t]. *)
Definition collect (seq : vte_seq) (start_idx : Z) (n : nat) (default_v : Z)
  : bool * list Z :=
  let '(vs, idx) := collect_loop seq start_idx n default_v in
  (u32 (idx - start_idx) =? Z.of_nat n, vs).

Definition collect1 (seq : vte_seq) (idx default_v : Z) : Z :=
  if idx <? size seq then vte_seq_arg_value_final (arg_at seq idx) default_v
  else default_v.

Definition collect1_clamped (seq : vte_seq) (idx default_v min_v max_v : Z) : Z :=
  let v := if idx <? size seq
           then vte_seq_arg_value_final (arg_at seq idx) default_v
           else default_v in
  std_min (std_max v min_v) max_v.

End Sequence.

(** ** The string tokeniser ([parser-glue.hh], class [StringTokeniser]) *)

Module StringTokeniser.

(** [char] is a signed byte here; a byte of 0x80 and above is negative. *)
Definition char_value (c : ascii) : Z :=
  let n := Z.of_nat (nat_of_ascii c) in
  if n <? 128 then n else n - 256.

(** [std::string::operator[]] of a const string: the character at [i],
    and the NUL character at [size()]. *)
Definition string_at (s : string) (i : Z) : ascii :=
  match String.get (Z.to_nat i) s with
  | Some c => c
  | None => Ascii.zero
  end.

Definition string_size (s : string) : Z := Z.of_nat (String.length s).

(** [std::string::find(c, pos)]: the first index at or after [pos] that
    holds [c], [npos] when there is none. *)
Fixpoint find_from (s : string) (c : ascii) (skip : nat) (idx : Z) : Z :=
  match s with
  | EmptyString => npos
  | String a s' =>
      match skip with
      | S k => find_from s' c k (idx + 1)
      | O => if Ascii.eqb a c then idx else find_from s' c O (idx + 1)
      end
  end.

Definition string_find (s : string) (c : ascii) (pos : Z) : Z :=
  find_from s c (Z.to_nat pos) 0.

(** [std::string::substr(pos, n)] for [pos <= size()]. *)
Definition string_substr (s : string) (pos n : Z) : string :=
  String.substring (Z.to_nat pos) (Z.to_nat n) s.

Record const_iterator : Type := mk_iterator {
  m_string : string;
  m_separator : ascii;
  m_position : Z;
  m_next_separator : Z
}.

(** The iterator at [position], and the end iterator. *)
Definition iterator_at (str : string) (separator : ascii) (position : Z)
  : const_iterator :=
  mk_iterator str separator position (string_find str separator position).

Definition iterator_end (str : string) (separator : ascii) : const_iterator :=
  mk_iterator str separator npos npos.

Definition cbegin (str : string) (separator : ascii) : const_iterator :=
  iterator_at str separator 0.

Definition cend (str : string) (separator : ascii) : const_iterator :=
  iterator_end str separator.

(** [operator++] *)
Definition incr (it : const_iterator) : const_iterator :=
  if negb (m_next_separator it =? npos) then
    let position := usize (m_next_separator it + 1) in
    mk_iterator (m_string it) (m_separator it) position
                (string_find (m_string it) (m_separator it) position)
  else
    mk_iterator (m_string it) (m_separator it) npos (m_next_separator it).

Definition size (it : const_iterator) : Z :=
  if negb (m_next_separator it =? npos)
  then usize (m_next_separator it - m_position it)
  else usize (string_size (m_string it) - m_position it).

(** [operator*]: the current token. *)
Definition deref (it : const_iterator) : string :=
  string_substr (m_string it) (m_position it) (size it).

(** The [for (i = 0; i < s; ++i)] of [number] with [n] rounds left; the
    flag returned and the value left in [v]. *)
Fixpoint number_loop (it : const_iterator) (s : Z) (n : nat) (i v : Z)
  : bool * Z :=
  match n with
  | O => (i =? s, v)
  | S n' =>
      let c := char_value (string_at (m_string it) (usize (m_position it + i))) in
      if (c <? char_value "0"%char) || (c >? char_value "9"%char) then (false, v)
      else
        let v' := v * 10 + (c - char_value "0"%char) in
        if v' >? 65535 then (false, v')
        else number_loop it s n' (i + 1) v'
  end.

Definition number (it : const_iterator) : bool * Z :=
  let s := size it in
  if s =? 0 then (true, -1)
  else number_loop it s (Z.to_nat s) 0 0.

(** The tokens of a string, by [cbegin] and [operator++] until the end
    iterator; a string of length n has at most n + 1 tokens. *)
Fixpoint tokens_from (fuel : nat) (it : const_iterator) : list const_iterator :=
  match fuel with
  | O => []
  | S fuel' =>
      if m_position it =? npos then []
      else it :: tokens_from fuel' (incr it)
  end.

Definition tokens (str : string) (separator : ascii) : list const_iterator :=
  tokens_from (S (String.length str)) (cbegin str separator).

End StringTokeniser.

(** ** The terminal state and its handlers ([vteseq.cc]) *)

Module Terminal.
Import Arg Sequence.

(** *** Cell attributes *)

(** Modelled from the spec: the cell attribute class, declared outside
    the sources.  One field per SGR attribute of section 4.6, the three
    colours, and the index of the current hyperlink. *)
Record VteCellAttr : Type := mk_attr {
  fore : Z;
  back : Z;
  deco : Z;
  bold : bool;
  dim : bool;
  italic : bool;
  underline : Z;
  blink : bool;
  reverse : bool;
  invisible : bool;
  strikethrough : bool;
  overline : bool;
  hyperlink_idx : Z
}.

Definition set_fore (v : Z) (a : VteCellAttr) : VteCellAttr :=
  mk_attr v (back a) (deco a) (bold a) (dim a) (italic a) (underline a)
          (blink a) (reverse a) (invisible a) (strikethrough a) (overline a)
          (hyperlink_idx a).
Definition set_back (v : Z) (a : VteCellAttr) : VteCellAttr :=
  mk_attr (fore a) v (deco a) (bold a) (dim a) (italic a) (underline a)
          (blink a) (reverse a) (invisible a) (strikethrough a) (overline a)
          (hyperlink_idx a).
Definition set_deco (v : Z) (a : VteCellAttr) : VteCellAttr :=
  mk_attr (fore a) (back a) v (bold a) (dim a) (italic a) (underline a)
          (blink a) (reverse a) (invisible a) (strikethrough a) (overline a)
          (hyperlink_idx a).
Definition set_bold (b : bool) (a : VteCellAttr) : VteCellAttr :=
  mk_attr (fore a) (back a) (deco a) b (dim a) (italic a) (underline a)
          (blink a) (reverse a) (invisible a) (strikethrough a) (overline a)
          (hyperlink_idx a).
Definition set_dim (b : bool) (a : VteCellAttr) : VteCellAttr :=
  mk_attr (fore a) (back a) (deco a) (bold a) b (italic a) (underline a)
          (blink a) (reverse a) (invisible a) (strikethrough a) (overline a)
          (hyperlink_idx a).
Definition set_italic (b : bool) (a : VteCellAttr) : VteCellAttr :=
  mk_attr (fore a) (back a) (deco a) (bold a) (dim a) b (underline a)
          (blink a) (reverse a) (invisible a) (strikethrough a) (overline a)
          (hyperlink_idx a).
Definition set_underline (v : Z) (a : VteCellAttr) : VteCellAttr :=
  mk_attr (fore a) (back a) (deco a) (bold a) (dim a) (italic a) v
          (blink a) (reverse a) (invisible a) (strikethrough a) (overline a)
          (hyperlink_idx a).
Definition set_blink (b : bool) (a : VteCellAttr) : VteCellAttr :=
  mk_attr (fore a) (back a) (deco a) (bold a) (dim a) (italic a) (underline a)
          b (reverse a) (invisible a) (strikethrough a) (overline a)
          (hyperlink_idx a).
Definition set_reverse (b : bool) (a : VteCellAttr) : VteCellAttr :=
  mk_attr (fore a) (back a) (deco a) (bold a) (dim a) (italic a) (underline a)
          (blink a) b (invisible a) (strikethrough a) (overline a)
          (hyperlink_idx a).
Definition set_invisible (b : bool) (a : VteCellAttr) : VteCellAttr :=
  mk_attr (fore a) (back a) (deco a) (bold a) (dim a) (italic a) (underline a)
          (blink a) (reverse a) b (strikethrough a) (overline a)
          (hyperlink_idx a).
Definition set_strikethrough (b : bool) (a : VteCellAttr) : VteCellAttr :=
  mk_attr (fore a) (back a) (deco a) (bold a) (dim a) (italic a) (underline a)
          (blink a) (reverse a) (invisible a) b (overline a)
          (hyperlink_idx a).
Definition set_overline (b : bool) (a : VteCellAttr) : VteCellAttr :=
  mk_attr (fore a) (back a) (deco a) (bold a) (dim a) (italic a) (underline a)
          (blink a) (reverse a) (invisible a) (strikethrough a) b
          (hyperlink_idx a).
Definition set_hyperlink_idx (v : Z) (a : VteCellAttr) : VteCellAttr :=
  mk_attr (fore a) (back a) (deco a) (bold a) (dim a) (italic a) (underline a)
          (blink a) (reverse a) (invisible a) (strikethrough a) (overline a)
          v.

(** [unset(VTE_ATTR_BOLD_MASK | VTE_ATTR_DIM_MASK)] *)
Definition unset_bold_dim (a : VteCellAttr) : VteCellAttr :=
  set_dim false (set_bold false a).

(** Modelled from the spec: [copy_colors], which copies only the colour
    fields of the live attributes (section 4.6, SGR). *)
Definition copy_colors (other a : VteCellAttr) : VteCellAttr :=
  set_deco (deco other) (set_back (back other) (set_fore (fore other) a)).

(** *** Constants and macros declared outside the sources *)

(** The values of the headers that are not among the sources; the
    handlers are parametric in them. *)
Record Defines : Type := mk_defines {
  VTE_LEGACY_COLORS_OFFSET : Z;
  VTE_COLOR_BRIGHT_OFFSET : Z;
  VTE_DEFAULT_FG : Z;
  VTE_DEFAULT_BG : Z;
  (* VTE_RGB_COLOR(redbits, greenbits, bluebits, red, green, blue) *)
  VTE_RGB_COLOR : Z -> Z -> Z -> Z -> Z -> Z -> Z;
  VTE_KEYMODE_NORMAL : Z;
  VTE_KEYMODE_APPLICATION : Z;
  MOUSE_TRACKING_SEND_XY_ON_CLICK : Z;
  MOUSE_TRACKING_SEND_XY_ON_BUTTON : Z;
  MOUSE_TRACKING_HILITE_TRACKING : Z;
  MOUSE_TRACKING_CELL_MOTION_TRACKING : Z;
  MOUSE_TRACKING_ALL_MOTION_TRACKING : Z;
  VTE_HYPERLINK_ID_LENGTH_MAX : Z;
  VTE_HYPERLINK_URI_LENGTH_MAX : Z;
  VTE_CAP_CSI : string;
  (* the attributes of [basic_cell] *)
  basic_cell : VteCellAttr
}.

(** glib's [FALSE] and [TRUE]. *)
Definition FALSE : Z := 0.
Definition TRUE : Z := 1.

(** The truth value of a [gboolean] or of a pointer. *)
Definition truthy (z : Z) : bool := negb (z =? 0).
Definition of_bool (b : bool) : Z := if b then TRUE else FALSE.

(** *** The collaborators *)

(** Modelled from the spec: the row ring (section 6).  Of its rows only
    the index after the last one is kept ([next_index()]); its hyperlink
    pool hands out one index per distinct ["id;uri"] key (section 9,
    [get_or_create_index]), 0 standing for no hyperlink. *)
Record VteRing : Type := mk_ring {
  ring_next : Z;
  ring_hyperlinks : list string
}.

(** Modelled from the spec: [next_index()]. *)
Definition _vte_ring_next (ring : VteRing) : Z := ring_next ring.

(** Modelled from the spec: [insert(index)]; one more row. *)
Definition _vte_ring_insert (ring : VteRing) (position : Z) : VteRing :=
  mk_ring (ring_next ring + 1) (ring_hyperlinks ring).

Fixpoint pool_index (pool : list string) (key : string) (i : Z) : option Z :=
  match pool with
  | [] => None
  | k :: pool' => if String.eqb k key then Some i else pool_index pool' key (i + 1)
  end.

(** Modelled from the spec: [get_or_create_index(key)]. *)
Definition _vte_ring_get_hyperlink_idx (ring : VteRing) (hyperlink : option string)
  : VteRing * Z :=
  match hyperlink with
  | None => (ring, 0)
  | Some key =>
      match pool_index (ring_hyperlinks ring) key 1 with
      | Some i => (ring, i)
      | None =>
          (mk_ring (ring_next ring) (ring_hyperlinks ring ++ [key]),
           Z.of_nat (length (ring_hyperlinks ring)) + 1)
      end
  end.

(** The services of section 1 that the handlers only call: writes to the
    child, signals and repaint requests.  The state keeps them in call
    order. *)
Inductive Effect : Type :=
  | feed_child (text : string)
  | emit_resize_window (columns rows : Z)
  | invalidate_all
  | adjust_adjustments
  | queue_contents_changed
  | apply_mouse_cursor
  | gtk_adjustment_set_value
  | set_scrollback_lines.

(** *** The state *)

Record VteVisualPosition : Type := mk_position {
  row : Z;
  col : Z
}.

Record VteScreen : Type := mk_screen {
  row_data : VteRing;
  cursor : VteVisualPosition;
  insert_delta : Z
}.

Record vte_scrolling_region : Type := mk_region {
  region_start : Z;
  region_end : Z
}.

(** The members of [VteTerminalPrivate] that the handlers below use.
    [m_screen] is the screen the pointer of that name refers to.  The
    mode members are [gboolean] or [int], as the mode table reads them;
    [m_mouse_smooth_scroll_delta] only ever receives 0.0 here. *)
Record VteTerminalPrivate : Type := mk_terminal {
  m_screen : VteScreen;
  m_row_count : Z;
  m_column_count : Z;
  m_scrolling_restricted : bool;
  m_scrolling_region : vte_scrolling_region;
  m_cursor_mode : Z;
  m_reverse_mode : Z;
  m_origin_mode : Z;
  m_autowrap : Z;
  m_mouse_tracking_mode : Z;
  m_cursor_visible : Z;
  m_deccolm_mode : Z;
  m_keypad_mode : Z;
  m_focus_tracking_mode : Z;
  m_mouse_xterm_extension : Z;
  m_alternate_screen_scroll : Z;
  m_mouse_urxvt_extension : Z;
  m_meta_sends_escape : Z;
  m_bracketed_paste_mode : Z;
  m_mouse_smooth_scroll_delta : Z;
  m_dec_saved : gmap Z bool;
  m_defaults : VteCellAttr;
  m_color_defaults : VteCellAttr;
  m_fill_defaults : VteCellAttr;
  m_allow_hyperlink : bool;
  m_hyperlink_auto_id : Z;
  m_text_deleted_flag : bool;
  m_effects : list Effect
}.

(** [*m_screen = s] *)
Definition set_screen (s : VteScreen) (t : VteTerminalPrivate) : VteTerminalPrivate :=
  {| m_screen := s;
     m_row_count := m_row_count t;
     m_column_count := m_column_count t;
     m_scrolling_restricted := m_scrolling_restricted t;
     m_scrolling_region := m_scrolling_region t;
     m_cursor_mode := m_cursor_mode t;
     m_reverse_mode := m_reverse_mode t;
     m_origin_mode := m_origin_mode t;
     m_autowrap := m_autowrap t;
     m_mouse_tracking_mode := m_mouse_tracking_mode t;
     m_cursor_visible := m_cursor_visible t;
     m_deccolm_mode := m_deccolm_mode t;
     m_keypad_mode := m_keypad_mode t;
     m_focus_tracking_mode := m_focus_tracking_mode t;
     m_mouse_xterm_extension := m_mouse_xterm_extension t;
     m_alternate_screen_scroll := m_alternate_screen_scroll t;
     m_mouse_urxvt_extension := m_mouse_urxvt_extension t;
     m_meta_sends_escape := m_meta_sends_escape t;
     m_bracketed_paste_mode := m_bracketed_paste_mode t;
     m_mouse_smooth_scroll_delta := m_mouse_smooth_scroll_delta t;
     m_dec_saved := m_dec_saved t;
     m_defaults := m_defaults t;
     m_color_defaults := m_color_defaults t;
     m_fill_defaults := m_fill_defaults t;
     m_allow_hyperlink := m_allow_hyperlink t;
     m_hyperlink_auto_id := m_hyperlink_auto_id t;
     m_text_deleted_flag := m_text_deleted_flag t;
     m_effects := m_effects t |}.

(** [m_scrolling_restricted = b] *)
Definition set_scrolling_restricted (b : bool) (t : VteTerminalPrivate) : VteTerminalPrivate :=
  {| m_screen := m_screen t;
     m_row_count := m_row_count t;
     m_column_count := m_column_count t;
     m_scrolling_restricted := b;
     m_scrolling_region := m_scrolling_region t;
     m_cursor_mode := m_cursor_mode t;
     m_reverse_mode := m_reverse_mode t;
     m_origin_mode := m_origin_mode t;
     m_autowrap := m_autowrap t;
     m_mouse_tracking_mode := m_mouse_tracking_mode t;
     m_cursor_visible := m_cursor_visible t;
     m_deccolm_mode := m_deccolm_mode t;
     m_keypad_mode := m_keypad_mode t;
     m_focus_tracking_mode := m_focus_tracking_mode t;
     m_mouse_xterm_extension := m_mouse_xterm_extension t;
     m_alternate_screen_scroll := m_alternate_screen_scroll t;
     m_mouse_urxvt_extension := m_mouse_urxvt_extension t;
     m_meta_sends_escape := m_meta_sends_escape t;
     m_bracketed_paste_mode := m_bracketed_paste_mode t;
     m_mouse_smooth_scroll_delta := m_mouse_smooth_scroll_delta t;
     m_dec_saved := m_dec_saved t;
     m_defaults := m_defaults t;
     m_color_defaults := m_color_defaults t;
     m_fill_defaults := m_fill_defaults t;
     m_allow_hyperlink := m_allow_hyperlink t;
     m_hyperlink_auto_id := m_hyperlink_auto_id t;
     m_text_deleted_flag := m_text_deleted_flag t;
     m_effects := m_effects t |}.

(** [m_scrolling_region = r] *)
Definition set_scrolling_region (r : vte_scrolling_region) (t : VteTerminalPrivate) : VteTerminalPrivate :=
  {| m_screen := m_screen t;
     m_row_count := m_row_count t;
     m_column_count := m_column_count t;
     m_scrolling_restricted := m_scrolling_restricted t;
     m_scrolling_region := r;
     m_cursor_mode := m_cursor_mode t;
     m_reverse_mode := m_reverse_mode t;
     m_origin_mode := m_origin_mode t;
     m_autowrap := m_autowrap t;
     m_mouse_tracking_mode := m_mouse_tracking_mode t;
     m_cursor_visible := m_cursor_visible t;
     m_deccolm_mode := m_deccolm_mode t;
     m_keypad_mode := m_keypad_mode t;
     m_focus_tracking_mode := m_focus_tracking_mode t;
     m_mouse_xterm_extension := m_mouse_xterm_extension t;
     m_alternate_screen_scroll := m_alternate_screen_scroll t;
     m_mouse_urxvt_extension := m_mouse_urxvt_extension t;
     m_meta_sends_escape := m_meta_sends_escape t;
     m_bracketed_paste_mode := m_bracketed_paste_mode t;
     m_mouse_smooth_scroll_delta := m_mouse_smooth_scroll_delta t;
     m_dec_saved := m_dec_saved t;
     m_defaults := m_defaults t;
     m_color_defaults := m_color_defaults t;
     m_fill_defaults := m_fill_defaults t;
     m_allow_hyperlink := m_allow_hyperlink t;
     m_hyperlink_auto_id := m_hyperlink_auto_id t;
     m_text_deleted_flag := m_text_deleted_flag t;
     m_effects := m_effects t |}.

(** [m_mouse_smooth_scroll_delta = d] *)
Definition set_mouse_smooth_scroll_delta (d : Z) (t : VteTerminalPrivate) : VteTerminalPrivate :=
  {| m_screen := m_screen t;
     m_row_count := m_row_count t;
     m_column_count := m_column_count t;
     m_scrolling_restricted := m_scrolling_restricted t;
     m_scrolling_region := m_scrolling_region t;
     m_cursor_mode := m_cursor_mode t;
     m_reverse_mode := m_reverse_mode t;
     m_origin_mode := m_origin_mode t;
     m_autowrap := m_autowrap t;
     m_mouse_tracking_mode := m_mouse_tracking_mode t;
     m_cursor_visible := m_cursor_visible t;
     m_deccolm_mode := m_deccolm_mode t;
     m_keypad_mode := m_keypad_mode t;
     m_focus_tracking_mode := m_focus_tracking_mode t;
     m_mouse_xterm_extension := m_mouse_xterm_extension t;
     m_alternate_screen_scroll := m_alternate_screen_scroll t;
     m_mouse_urxvt_extension := m_mouse_urxvt_extension t;
     m_meta_sends_escape := m_meta_sends_escape t;
     m_bracketed_paste_mode := m_bracketed_paste_mode t;
     m_mouse_smooth_scroll_delta := d;
     m_dec_saved := m_dec_saved t;
     m_defaults := m_defaults t;
     m_color_defaults := m_color_defaults t;
     m_fill_defaults := m_fill_defaults t;
     m_allow_hyperlink := m_allow_hyperlink t;
     m_hyperlink_auto_id := m_hyperlink_auto_id t;
     m_text_deleted_flag := m_text_deleted_flag t;
     m_effects := m_effects t |}.

(** [m_dec_saved] after an insertion *)
Definition set_dec_saved (m : gmap Z bool) (t : VteTerminalPrivate) : VteTerminalPrivate :=
  {| m_screen := m_screen t;
     m_row_count := m_row_count t;
     m_column_count := m_column_count t;
     m_scrolling_restricted := m_scrolling_restricted t;
     m_scrolling_region := m_scrolling_region t;
     m_cursor_mode := m_cursor_mode t;
     m_reverse_mode := m_reverse_mode t;
     m_origin_mode := m_origin_mode t;
     m_autowrap := m_autowrap t;
     m_mouse_tracking_mode := m_mouse_tracking_mode t;
     m_cursor_visible := m_cursor_visible t;
     m_deccolm_mode := m_deccolm_mode t;
     m_keypad_mode := m_keypad_mode t;
     m_focus_tracking_mode := m_focus_tracking_mode t;
     m_mouse_xterm_extension := m_mouse_xterm_extension t;
     m_alternate_screen_scroll := m_alternate_screen_scroll t;
     m_mouse_urxvt_extension := m_mouse_urxvt_extension t;
     m_meta_sends_escape := m_meta_sends_escape t;
     m_bracketed_paste_mode := m_bracketed_paste_mode t;
     m_mouse_smooth_scroll_delta := m_mouse_smooth_scroll_delta t;
     m_dec_saved := m;
     m_defaults := m_defaults t;
     m_color_defaults := m_color_defaults t;
     m_fill_defaults := m_fill_defaults t;
     m_allow_hyperlink := m_allow_hyperlink t;
     m_hyperlink_auto_id := m_hyperlink_auto_id t;
     m_text_deleted_flag := m_text_deleted_flag t;
     m_effects := m_effects t |}.

(** [m_defaults.attr = a] *)
Definition set_defaults (a : VteCellAttr) (t : VteTerminalPrivate) : VteTerminalPrivate :=
  {| m_screen := m_screen t;
     m_row_count := m_row_count t;
     m_column_count := m_column_count t;
     m_scrolling_restricted := m_scrolling_restricted t;
     m_scrolling_region := m_scrolling_region t;
     m_cursor_mode := m_cursor_mode t;
     m_reverse_mode := m_reverse_mode t;
     m_origin_mode := m_origin_mode t;
     m_autowrap := m_autowrap t;
     m_mouse_tracking_mode := m_mouse_tracking_mode t;
     m_cursor_visible := m_cursor_visible t;
     m_deccolm_mode := m_deccolm_mode t;
     m_keypad_mode := m_keypad_mode t;
     m_focus_tracking_mode := m_focus_tracking_mode t;
     m_mouse_xterm_extension := m_mouse_xterm_extension t;
     m_alternate_screen_scroll := m_alternate_screen_scroll t;
     m_mouse_urxvt_extension := m_mouse_urxvt_extension t;
     m_meta_sends_escape := m_meta_sends_escape t;
     m_bracketed_paste_mode := m_bracketed_paste_mode t;
     m_mouse_smooth_scroll_delta := m_mouse_smooth_scroll_delta t;
     m_dec_saved := m_dec_saved t;
     m_defaults := a;
     m_color_defaults := m_color_defaults t;
     m_fill_defaults := m_fill_defaults t;
     m_allow_hyperlink := m_allow_hyperlink t;
     m_hyperlink_auto_id := m_hyperlink_auto_id t;
     m_text_deleted_flag := m_text_deleted_flag t;
     m_effects := m_effects t |}.

(** [m_color_defaults.attr = a] *)
Definition set_color_defaults (a : VteCellAttr) (t : VteTerminalPrivate) : VteTerminalPrivate :=
  {| m_screen := m_screen t;
     m_row_count := m_row_count t;
     m_column_count := m_column_count t;
     m_scrolling_restricted := m_scrolling_restricted t;
     m_scrolling_region := m_scrolling_region t;
     m_cursor_mode := m_cursor_mode t;
     m_reverse_mode := m_reverse_mode t;
     m_origin_mode := m_origin_mode t;
     m_autowrap := m_autowrap t;
     m_mouse_tracking_mode := m_mouse_tracking_mode t;
     m_cursor_visible := m_cursor_visible t;
     m_deccolm_mode := m_deccolm_mode t;
     m_keypad_mode := m_keypad_mode t;
     m_focus_tracking_mode := m_focus_tracking_mode t;
     m_mouse_xterm_extension := m_mouse_xterm_extension t;
     m_alternate_screen_scroll := m_alternate_screen_scroll t;
     m_mouse_urxvt_extension := m_mouse_urxvt_extension t;
     m_meta_sends_escape := m_meta_sends_escape t;
     m_bracketed_paste_mode := m_bracketed_paste_mode t;
     m_mouse_smooth_scroll_delta := m_mouse_smooth_scroll_delta t;
     m_dec_saved := m_dec_saved t;
     m_defaults := m_defaults t;
     m_color_defaults := a;
     m_fill_defaults := m_fill_defaults t;
     m_allow_hyperlink := m_allow_hyperlink t;
     m_hyperlink_auto_id := m_hyperlink_auto_id t;
     m_text_deleted_flag := m_text_deleted_flag t;
     m_effects := m_effects t |}.

(** [m_fill_defaults.attr = a] *)
Definition set_fill_defaults (a : VteCellAttr) (t : VteTerminalPrivate) : VteTerminalPrivate :=
  {| m_screen := m_screen t;
     m_row_count := m_row_count t;
     m_column_count := m_column_count t;
     m_scrolling_restricted := m_scrolling_restricted t;
     m_scrolling_region := m_scrolling_region t;
     m_cursor_mode := m_cursor_mode t;
     m_reverse_mode := m_reverse_mode t;
     m_origin_mode := m_origin_mode t;
     m_autowrap := m_autowrap t;
     m_mouse_tracking_mode := m_mouse_tracking_mode t;
     m_cursor_visible := m_cursor_visible t;
     m_deccolm_mode := m_deccolm_mode t;
     m_keypad_mode := m_keypad_mode t;
     m_focus_tracking_mode := m_focus_tracking_mode t;
     m_mouse_xterm_extension := m_mouse_xterm_extension t;
     m_alternate_screen_scroll := m_alternate_screen_scroll t;
     m_mouse_urxvt_extension := m_mouse_urxvt_extension t;
     m_meta_sends_escape := m_meta_sends_escape t;
     m_bracketed_paste_mode := m_bracketed_paste_mode t;
     m_mouse_smooth_scroll_delta := m_mouse_smooth_scroll_delta t;
     m_dec_saved := m_dec_saved t;
     m_defaults := m_defaults t;
     m_color_defaults := m_color_defaults t;
     m_fill_defaults := a;
     m_allow_hyperlink := m_allow_hyperlink t;
     m_hyperlink_auto_id := m_hyperlink_auto_id t;
     m_text_deleted_flag := m_text_deleted_flag t;
     m_effects := m_effects t |}.

(** [m_hyperlink_auto_id = n] *)
Definition set_hyperlink_auto_id (n : Z) (t : VteTerminalPrivate) : VteTerminalPrivate :=
  {| m_screen := m_screen t;
     m_row_count := m_row_count t;
     m_column_count := m_column_count t;
     m_scrolling_restricted := m_scrolling_restricted t;
     m_scrolling_region := m_scrolling_region t;
     m_cursor_mode := m_cursor_mode t;
     m_reverse_mode := m_reverse_mode t;
     m_origin_mode := m_origin_mode t;
     m_autowrap := m_autowrap t;
     m_mouse_tracking_mode := m_mouse_tracking_mode t;
     m_cursor_visible := m_cursor_visible t;
     m_deccolm_mode := m_deccolm_mode t;
     m_keypad_mode := m_keypad_mode t;
     m_focus_tracking_mode := m_focus_tracking_mode t;
     m_mouse_xterm_extension := m_mouse_xterm_extension t;
     m_alternate_screen_scroll := m_alternate_screen_scroll t;
     m_mouse_urxvt_extension := m_mouse_urxvt_extension t;
     m_meta_sends_escape := m_meta_sends_escape t;
     m_bracketed_paste_mode := m_bracketed_paste_mode t;
     m_mouse_smooth_scroll_delta := m_mouse_smooth_scroll_delta t;
     m_dec_saved := m_dec_saved t;
     m_defaults := m_defaults t;
     m_color_defaults := m_color_defaults t;
     m_fill_defaults := m_fill_defaults t;
     m_allow_hyperlink := m_allow_hyperlink t;
     m_hyperlink_auto_id := n;
     m_text_deleted_flag := m_text_deleted_flag t;
     m_effects := m_effects t |}.

(** [m_text_deleted_flag = b] *)
Definition set_text_deleted_flag (b : bool) (t : VteTerminalPrivate) : VteTerminalPrivate :=
  {| m_screen := m_screen t;
     m_row_count := m_row_count t;
     m_column_count := m_column_count t;
     m_scrolling_restricted := m_scrolling_restricted t;
     m_scrolling_region := m_scrolling_region t;
     m_cursor_mode := m_cursor_mode t;
     m_reverse_mode := m_reverse_mode t;
     m_origin_mode := m_origin_mode t;
     m_autowrap := m_autowrap t;
     m_mouse_tracking_mode := m_mouse_tracking_mode t;
     m_cursor_visible := m_cursor_visible t;
     m_deccolm_mode := m_deccolm_mode t;
     m_keypad_mode := m_keypad_mode t;
     m_focus_tracking_mode := m_focus_tracking_mode t;
     m_mouse_xterm_extension := m_mouse_xterm_extension t;
     m_alternate_screen_scroll := m_alternate_screen_scroll t;
     m_mouse_urxvt_extension := m_mouse_urxvt_extension t;
     m_meta_sends_escape := m_meta_sends_escape t;
     m_bracketed_paste_mode := m_bracketed_paste_mode t;
     m_mouse_smooth_scroll_delta := m_mouse_smooth_scroll_delta t;
     m_dec_saved := m_dec_saved t;
     m_defaults := m_defaults t;
     m_color_defaults := m_color_defaults t;
     m_fill_defaults := m_fill_defaults t;
     m_allow_hyperlink := m_allow_hyperlink t;
     m_hyperlink_auto_id := m_hyperlink_auto_id t;
     m_text_deleted_flag := b;
     m_effects := m_effects t |}.

(** the calls made to the collaborators so far *)
Definition set_effects (l : list Effect) (t : VteTerminalPrivate) : VteTerminalPrivate :=
  {| m_screen := m_screen t;
     m_row_count := m_row_count t;
     m_column_count := m_column_count t;
     m_scrolling_restricted := m_scrolling_restricted t;
     m_scrolling_region := m_scrolling_region t;
     m_cursor_mode := m_cursor_mode t;
     m_reverse_mode := m_reverse_mode t;
     m_origin_mode := m_origin_mode t;
     m_autowrap := m_autowrap t;
     m_mouse_tracking_mode := m_mouse_tracking_mode t;
     m_cursor_visible := m_cursor_visible t;
     m_deccolm_mode := m_deccolm_mode t;
     m_keypad_mode := m_keypad_mode t;
     m_focus_tracking_mode := m_focus_tracking_mode t;
     m_mouse_xterm_extension := m_mouse_xterm_extension t;
     m_alternate_screen_scroll := m_alternate_screen_scroll t;
     m_mouse_urxvt_extension := m_mouse_urxvt_extension t;
     m_meta_sends_escape := m_meta_sends_escape t;
     m_bracketed_paste_mode := m_bracketed_paste_mode t;
     m_mouse_smooth_scroll_delta := m_mouse_smooth_scroll_delta t;
     m_dec_saved := m_dec_saved t;
     m_defaults := m_defaults t;
     m_color_defaults := m_color_defaults t;
     m_fill_defaults := m_fill_defaults t;
     m_allow_hyperlink := m_allow_hyperlink t;
     m_hyperlink_auto_id := m_hyperlink_auto_id t;
     m_text_deleted_flag := m_text_deleted_flag t;
     m_effects := l |}.

(** The members that the mode table of [decset] addresses by their
    offset in the class. *)
Inductive member : Type :=
  | OFFSET_m_cursor_mode
  | OFFSET_m_reverse_mode
  | OFFSET_m_origin_mode
  | OFFSET_m_autowrap
  | OFFSET_m_mouse_tracking_mode
  | OFFSET_m_cursor_visible
  | OFFSET_m_deccolm_mode
  | OFFSET_m_keypad_mode
  | OFFSET_m_focus_tracking_mode
  | OFFSET_m_mouse_xterm_extension
  | OFFSET_m_alternate_screen_scroll
  | OFFSET_m_mouse_urxvt_extension
  | OFFSET_m_meta_sends_escape
  | OFFSET_m_bracketed_paste_mode.

(** [*G_STRUCT_MEMBER_P(this, offset)], read as an [int]. *)
Definition get_member (o : member) (t : VteTerminalPrivate) : Z :=
  match o with
  | OFFSET_m_cursor_mode => m_cursor_mode t
  | OFFSET_m_reverse_mode => m_reverse_mode t
  | OFFSET_m_origin_mode => m_origin_mode t
  | OFFSET_m_autowrap => m_autowrap t
  | OFFSET_m_mouse_tracking_mode => m_mouse_tracking_mode t
  | OFFSET_m_cursor_visible => m_cursor_visible t
  | OFFSET_m_deccolm_mode => m_deccolm_mode t
  | OFFSET_m_keypad_mode => m_keypad_mode t
  | OFFSET_m_focus_tracking_mode => m_focus_tracking_mode t
  | OFFSET_m_mouse_xterm_extension => m_mouse_xterm_extension t
  | OFFSET_m_alternate_screen_scroll => m_alternate_screen_scroll t
  | OFFSET_m_mouse_urxvt_extension => m_mouse_urxvt_extension t
  | OFFSET_m_meta_sends_escape => m_meta_sends_escape t
  | OFFSET_m_bracketed_paste_mode => m_bracketed_paste_mode t
  end.

Definition member_eqb (a b : member) : bool :=
  match a, b with
  | OFFSET_m_cursor_mode, OFFSET_m_cursor_mode => true
  | OFFSET_m_reverse_mode, OFFSET_m_reverse_mode => true
  | OFFSET_m_origin_mode, OFFSET_m_origin_mode => true
  | OFFSET_m_autowrap, OFFSET_m_autowrap => true
  | OFFSET_m_mouse_tracking_mode, OFFSET_m_mouse_tracking_mode => true
  | OFFSET_m_cursor_visible, OFFSET_m_cursor_visible => true
  | OFFSET_m_deccolm_mode, OFFSET_m_deccolm_mode => true
  | OFFSET_m_keypad_mode, OFFSET_m_keypad_mode => true
  | OFFSET_m_focus_tracking_mode, OFFSET_m_focus_tracking_mode => true
  | OFFSET_m_mouse_xterm_extension, OFFSET_m_mouse_xterm_extension => true
  | OFFSET_m_alternate_screen_scroll, OFFSET_m_alternate_screen_scroll => true
  | OFFSET_m_mouse_urxvt_extension, OFFSET_m_mouse_urxvt_extension => true
  | OFFSET_m_meta_sends_escape, OFFSET_m_meta_sends_escape => true
  | OFFSET_m_bracketed_paste_mode, OFFSET_m_bracketed_paste_mode => true
  | _, _ => false
  end.

(** [*G_STRUCT_MEMBER_P(this, offset) = v] *)
Definition set_member (o : member) (v : Z) (t : VteTerminalPrivate) : VteTerminalPrivate :=
  {| m_screen := m_screen t;
     m_row_count := m_row_count t;
     m_column_count := m_column_count t;
     m_scrolling_restricted := m_scrolling_restricted t;
     m_scrolling_region := m_scrolling_region t;
     m_cursor_mode := if member_eqb o OFFSET_m_cursor_mode then v else m_cursor_mode t;
     m_reverse_mode := if member_eqb o OFFSET_m_reverse_mode then v else m_reverse_mode t;
     m_origin_mode := if member_eqb o OFFSET_m_origin_mode then v else m_origin_mode t;
     m_autowrap := if member_eqb o OFFSET_m_autowrap then v else m_autowrap t;
     m_mouse_tracking_mode := if member_eqb o OFFSET_m_mouse_tracking_mode then v else m_mouse_tracking_mode t;
     m_cursor_visible := if member_eqb o OFFSET_m_cursor_visible then v else m_cursor_visible t;
     m_deccolm_mode := if member_eqb o OFFSET_m_deccolm_mode then v else m_deccolm_mode t;
     m_keypad_mode := if member_eqb o OFFSET_m_keypad_mode then v else m_keypad_mode t;
     m_focus_tracking_mode := if member_eqb o OFFSET_m_focus_tracking_mode then v else m_focus_tracking_mode t;
     m_mouse_xterm_extension := if member_eqb o OFFSET_m_mouse_xterm_extension then v else m_mouse_xterm_extension t;
     m_alternate_screen_scroll := if member_eqb o OFFSET_m_alternate_screen_scroll then v else m_alternate_screen_scroll t;
     m_mouse_urxvt_extension := if member_eqb o OFFSET_m_mouse_urxvt_extension then v else m_mouse_urxvt_extension t;
     m_meta_sends_escape := if member_eqb o OFFSET_m_meta_sends_escape then v else m_meta_sends_escape t;
     m_bracketed_paste_mode := if member_eqb o OFFSET_m_bracketed_paste_mode then v else m_bracketed_paste_mode t;
     m_mouse_smooth_scroll_delta := m_mouse_smooth_scroll_delta t;
     m_dec_saved := m_dec_saved t;
     m_defaults := m_defaults t;
     m_color_defaults := m_color_defaults t;
     m_fill_defaults := m_fill_defaults t;
     m_allow_hyperlink := m_allow_hyperlink t;
     m_hyperlink_auto_id := m_hyperlink_auto_id t;
     m_text_deleted_flag := m_text_deleted_flag t;
     m_effects := m_effects t |}.

Definition do_effect (e : Effect) (t : VteTerminalPrivate) : VteTerminalPrivate :=
  set_effects (m_effects t ++ [e]) t.

Definition set_cursor (p : VteVisualPosition) (t : VteTerminalPrivate)
  : VteTerminalPrivate :=
  set_screen (mk_screen (row_data (m_screen t)) p (insert_delta (m_screen t))) t.

Definition set_row_data (ring : VteRing) (t : VteTerminalPrivate)
  : VteTerminalPrivate :=
  set_screen (mk_screen ring (cursor (m_screen t)) (insert_delta (m_screen t))) t.

Definition set_insert_delta (d : Z) (t : VteTerminalPrivate)
  : VteTerminalPrivate :=
  set_screen (mk_screen (row_data (m_screen t)) (cursor (m_screen t)) d) t.

(** *** Cursor helpers *)

Definition ensure_cursor_is_onscreen (t : VteTerminalPrivate) : VteTerminalPrivate :=
  if col (cursor (m_screen t)) >=? m_column_count t
  then set_cursor (mk_position (row (cursor (m_screen t))) (m_column_count t - 1)) t
  else t.

Definition set_cursor_column (column : Z) (t : VteTerminalPrivate)
  : VteTerminalPrivate :=
  set_cursor (mk_position (row (cursor (m_screen t)))
                          (CLAMP column 0 (m_column_count t - 1))) t.

Definition set_cursor_column1 (column : Z) (t : VteTerminalPrivate)
  : VteTerminalPrivate :=
  set_cursor_column (column - 1) t.

Definition set_cursor_row (r : Z) (t : VteTerminalPrivate) : VteTerminalPrivate :=
  let '(start_row, end_row) :=
    if truthy (m_origin_mode t) && m_scrolling_restricted t
    then (region_start (m_scrolling_region t), region_end (m_scrolling_region t))
    else (0, m_row_count t - 1) in
  let r := r + start_row in
  let r := CLAMP r start_row end_row in
  set_cursor (mk_position (r + insert_delta (m_screen t))
                          (col (cursor (m_screen t)))) t.

Definition set_cursor_row1 (r : Z) (t : VteTerminalPrivate) : VteTerminalPrivate :=
  set_cursor_row (r - 1) t.

Definition get_cursor_row (t : VteTerminalPrivate) : Z :=
  let r := row (cursor (m_screen t)) - insert_delta (m_screen t) in
  if m_scrolling_restricted t then r - region_start (m_scrolling_region t) else r.

Definition get_cursor_column (t : VteTerminalPrivate) : Z :=
  col (cursor (m_screen t)).

Definition set_cursor_coords (r column : Z) (t : VteTerminalPrivate)
  : VteTerminalPrivate :=
  set_cursor_row r (set_cursor_column column t).

Definition set_cursor_coords1 (r column : Z) (t : VteTerminalPrivate)
  : VteTerminalPrivate :=
  set_cursor_row1 r (set_cursor_column1 column t).

Definition home_cursor (t : VteTerminalPrivate) : VteTerminalPrivate :=
  set_cursor_coords 0 0 t.

(** [ring_append]: a row inserted at the end of the ring. *)
Definition ring_append (t : VteTerminalPrivate) : VteTerminalPrivate :=
  set_row_data (_vte_ring_insert (row_data (m_screen t))
                                 (_vte_ring_next (row_data (m_screen t)))) t.

Definition clear_screen (t : VteTerminalPrivate) : VteTerminalPrivate :=
  let r := row (cursor (m_screen t)) - insert_delta (m_screen t) in
  let initial := _vte_ring_next (row_data (m_screen t)) in
  let t := Nat.iter (Z.to_nat (m_row_count t)) ring_append t in
  let t := set_insert_delta initial t in
  let t := set_cursor (mk_position (r + insert_delta (m_screen t))
                                   (col (cursor (m_screen t)))) t in
  let t := do_effect adjust_adjustments t in
  let t := do_effect invalidate_all t in
  set_text_deleted_flag true t.

(** *** CUP *)

Definition CUP (seq : vte_seq) (t : VteTerminalPrivate) : VteTerminalPrivate :=
  let rowvalue := collect1_clamped seq 0 1 1 (m_row_count t) in
  let colvalue := collect1_clamped seq (next seq 0) 1 1 (m_column_count t) in
  set_cursor_coords1 rowvalue colvalue t.

(** *** DECSTBM *)

(** The [while (_vte_ring_next(...) < limit) _vte_ring_insert(...)] that
    extends the ring. *)
Fixpoint extend_ring (fuel : nat) (ring : VteRing) (limit : Z) : option VteRing :=
  match fuel with
  | O => None
  | S fuel' =>
      if _vte_ring_next ring <? limit
      then extend_ring fuel' (_vte_ring_insert ring (_vte_ring_next ring)) limit
      else Some ring
  end.

Definition DECSTBM (seq : vte_seq) (t : VteTerminalPrivate) : VteTerminalPrivate :=
  let slots := snd (collect seq 0 2 (-1)) in
  let start := nth 0%nat slots 0 in
  let end_ := nth 1%nat slots 0 in
  let start := if start =? -1 then 1 else start in
  let end_ := if end_ =? -1 then m_row_count t else end_ in
  if (start <? 1) || (start >? m_row_count t) || (end_ <? start + 1) then
    home_cursor (set_scrolling_restricted false t)
  else
    let end_ := if end_ >? m_row_count t then m_row_count t else end_ in
    let t := set_scrolling_region (mk_region (start - 1) (end_ - 1)) t in
    let t := set_scrolling_restricted true t in
    let t :=
      if (region_start (m_scrolling_region t) =? 0)
         && (region_end (m_scrolling_region t) =? m_row_count t - 1)
      then set_scrolling_restricted false t
      else
        let limit := insert_delta (m_screen t) + m_row_count t in
        let ring := row_data (m_screen t) in
        match extend_ring (S (Z.to_nat (limit - _vte_ring_next ring))) ring limit with
        | Some ring' => set_row_data ring' t
        | None => t
        end in
    home_cursor t.

Section WithDefines.

Context (defs : Defines).

(** *** DSR *)

(** The [%ld] conversion of [g_snprintf]. *)
Definition string_of_Z (z : Z) : string := NilZero.string_of_int (Z.to_int z).

(** [feed_child(text, -1)] *)
Definition feed (text : string) (t : VteTerminalPrivate) : VteTerminalPrivate :=
  do_effect (feed_child text) t.

Definition DSR_ECMA (seq : vte_seq) (t : VteTerminalPrivate) : VteTerminalPrivate :=
  let param := collect1 seq 0 (-1) in
  if (param =? -1) || (param =? 0) || (param =? 1) || (param =? 2)
     || (param =? 3) || (param =? 4) then t
  else if param =? 5 then feed (VTE_CAP_CSI defs ++ "0n") t
  else if param =? 6 then
    let '(origin, rowmax) :=
      if truthy (m_origin_mode t) && m_scrolling_restricted t
      then (region_start (m_scrolling_region t), region_end (m_scrolling_region t))
      else (0, m_row_count t - 1) in
    let rowval := row (cursor (m_screen t)) - insert_delta (m_screen t) - origin in
    let rowval := CLAMP rowval 0 rowmax in
    feed (VTE_CAP_CSI defs ++ string_of_Z (rowval + 1) ++ ";"
          ++ string_of_Z (CLAMP (col (cursor (m_screen t)) + 1) 1 (m_column_count t))
          ++ "R") t
  else t.

Definition DSR_DEC (seq : vte_seq) (t : VteTerminalPrivate) : VteTerminalPrivate :=
  let param := collect1 seq 0 (-1) in
  if param =? 6 then
    let '(origin, rowmax) :=
      if truthy (m_origin_mode t) && m_scrolling_restricted t
      then (region_start (m_scrolling_region t), region_end (m_scrolling_region t))
      else (0, m_row_count t - 1) in
    let rowval := row (cursor (m_screen t)) - insert_delta (m_screen t) - origin in
    let rowval := CLAMP rowval 0 rowmax in
    feed (VTE_CAP_CSI defs ++ "?" ++ string_of_Z (rowval + 1) ++ ";"
          ++ string_of_Z (CLAMP (col (cursor (m_screen t)) + 1) 1 (m_column_count t))
          ++ "R") t
  else if param =? 15 then feed (VTE_CAP_CSI defs ++ "?11n") t
  else if param =? 25 then feed (VTE_CAP_CSI defs ++ "?20n") t
  else if param =? 26 then feed (VTE_CAP_CSI defs ++ "?50n") t
  else t.

(** *** SGR *)

(** Modelled from the spec: [reset_default_attributes], defined outside
    the sources; SGR 0 resets all attributes to the terminal defaults.
    The spec gives the effect on the current attributes only: that the
    colour and the fill defaults are reset with them, and that the
    current hyperlink stays when [reset_hyperlink] is false, is the
    reading taken here. *)
Definition reset_default_attributes (reset_hyperlink : bool) (t : VteTerminalPrivate)
  : VteTerminalPrivate :=
  let hyperlink_idx_save := hyperlink_idx (m_defaults t) in
  let t := set_fill_defaults (basic_cell defs) t in
  let t := set_color_defaults (basic_cell defs) t in
  let t := set_defaults (basic_cell defs) t in
  if reset_hyperlink then t
  else set_defaults (set_hyperlink_idx hyperlink_idx_save (m_defaults t)) t.

(** [seq_parse_sgr_color<redbits, greenbits, bluebits>(seq, idx, color)]:
    the [idx] left behind and, when the function returns true, the value
    stored in [color]; [color] is not written when it returns false. *)
Definition seq_parse_sgr_color (redbits greenbits bluebits : Z)
    (seq : vte_seq) (idx : Z) : Z * option Z :=
  if param_nonfinal seq idx then
    (* Colon version *)
    let idx := u32 (idx + 1) in
    let kind := param seq idx (-1) in
    if kind =? 2 then
      let n := u32 (next seq idx - idx) in
      if n <? 4 then (idx, None)
      else
        let idx' := if n >? 4 then u32 (idx + 1) else idx in
        if (n >? 4) && negb (param_default seq idx') then (idx', None)
        else
          let idx := idx' in
          let idx := u32 (idx + 1) in
          let red := param seq idx (-1) in
          let idx := u32 (idx + 1) in
          let green := param seq idx (-1) in
          let idx := u32 (idx + 1) in
          let blue := param seq idx (-1) in
          if negb (Z.land red 255 =? red) || negb (Z.land green 255 =? green)
             || negb (Z.land blue 255 =? blue)
          then (idx, None)
          else (idx, Some (VTE_RGB_COLOR defs redbits greenbits bluebits red green blue))
    else if kind =? 5 then
      let n := u32 (next seq idx - idx) in
      if n <? 2 then (idx, None)
      else
        let idx := u32 (idx + 1) in
        let v := param seq idx (-1) in
        if (v <? 0) || (v >=? 256) then (idx, None)
        else (idx, Some v)
    else (idx, None)
  else
    (* Semicolon version *)
    let idx := next seq idx in
    let kind := param seq idx (-1) in
    if kind =? 2 then
      let idx := next seq idx in
      let red := param seq idx (-1) in
      let idx := next seq idx in
      let green := param seq idx (-1) in
      let idx := next seq idx in
      let blue := param seq idx (-1) in
      if negb (Z.land red 255 =? red) || negb (Z.land green 255 =? green)
         || negb (Z.land blue 255 =? blue)
      then (idx, None)
      else (idx, Some (VTE_RGB_COLOR defs redbits greenbits bluebits red green blue))
    else if kind =? 5 then
      let idx := next seq idx in
      let v := param seq idx (-1) in
      if negb (Z.land v 255 =? v) then (idx, None)
      else (idx, Some v)
    else (idx, None).

(** [m_defaults.attr.f(...)] *)
Definition on_defaults (f : VteCellAttr -> VteCellAttr) (t : VteTerminalPrivate)
  : VteTerminalPrivate :=
  set_defaults (f (m_defaults t)) t.

(** The body of the [for] loop of [SGR] at block [i]: the [i] it leaves
    (the colour parser advances it) and the new state. *)
Definition SGR_param (seq : vte_seq) (i : Z) (t : VteTerminalPrivate)
  : Z * VteTerminalPrivate :=
  let param := param seq i (-1) in
  if (param =? -1) || (param =? 0) then (i, reset_default_attributes false t)
  else if param =? 1 then (i, on_defaults (set_bold true) t)
  else if param =? 2 then (i, on_defaults (set_dim true) t)
  else if param =? 3 then (i, on_defaults (set_italic true) t)
  else if param =? 4 then
    let v := if param_nonfinal seq i
             then param_clamped seq (u32 (i + 1)) 1 0 3 else 1 in
    (i, on_defaults (set_underline v) t)
  else if param =? 5 then (i, on_defaults (set_blink true) t)
  else if param =? 7 then (i, on_defaults (set_reverse true) t)
  else if param =? 8 then (i, on_defaults (set_invisible true) t)
  else if param =? 9 then (i, on_defaults (set_strikethrough true) t)
  else if param =? 21 then (i, on_defaults (set_underline 2) t)
  else if param =? 22 then (i, on_defaults unset_bold_dim t)
  else if param =? 23 then (i, on_defaults (set_italic false) t)
  else if param =? 24 then (i, on_defaults (set_underline 0) t)
  else if param =? 25 then (i, on_defaults (set_blink false) t)
  else if param =? 27 then (i, on_defaults (set_reverse false) t)
  else if param =? 28 then (i, on_defaults (set_invisible false) t)
  else if param =? 29 then (i, on_defaults (set_strikethrough false) t)
  else if (30 <=? param) && (param <=? 37) then
    (i, on_defaults (set_fore (VTE_LEGACY_COLORS_OFFSET defs + (param - 30))) t)
  else if param =? 38 then
    match seq_parse_sgr_color 8 8 8 seq i with
    | (i', Some fore) => (i', on_defaults (set_fore fore) t)
    | (i', None) => (i', t)
    end
  else if param =? 39 then (i, on_defaults (set_fore (VTE_DEFAULT_FG defs)) t)
  else if (40 <=? param) && (param <=? 47) then
    (i, on_defaults (set_back (VTE_LEGACY_COLORS_OFFSET defs + (param - 40))) t)
  else if param =? 48 then
    match seq_parse_sgr_color 8 8 8 seq i with
    | (i', Some back) => (i', on_defaults (set_back back) t)
    | (i', None) => (i', t)
    end
  else if param =? 49 then (i, on_defaults (set_back (VTE_DEFAULT_BG defs)) t)
  else if param =? 53 then (i, on_defaults (set_overline true) t)
  else if param =? 55 then (i, on_defaults (set_overline false) t)
  else if param =? 58 then
    match seq_parse_sgr_color 4 5 4 seq i with
    | (i', Some deco) => (i', on_defaults (set_deco deco) t)
    | (i', None) => (i', t)
    end
  else if param =? 59 then (i, on_defaults (set_deco (VTE_DEFAULT_FG defs)) t)
  else if (90 <=? param) && (param <=? 97) then
    (i, on_defaults (set_fore (VTE_LEGACY_COLORS_OFFSET defs + (param - 90)
                               + VTE_COLOR_BRIGHT_OFFSET defs)) t)
  else if (100 <=? param) && (param <=? 107) then
    (i, on_defaults (set_back (VTE_LEGACY_COLORS_OFFSET defs + (param - 100)
                               + VTE_COLOR_BRIGHT_OFFSET defs)) t)
  else (i, t).

(** [for (unsigned int i = ...; i < n_params; i = seq.next(i))]; [None]
    when the fuel runs out before [i] reaches [n_params]. *)
Fixpoint SGR_loop (fuel : nat) (seq : vte_seq) (i : Z) (t : VteTerminalPrivate)
  : option VteTerminalPrivate :=
  match fuel with
  | O => None
  | S fuel' =>
      if i <? size seq then
        let '(i', t') := SGR_param seq i t in
        SGR_loop fuel' seq (next seq i') t'
      else Some t
  end.

(** "Save the new colors." *)
Definition SGR_save_colors (t : VteTerminalPrivate) : VteTerminalPrivate :=
  let t := set_color_defaults (copy_colors (m_defaults t) (m_color_defaults t)) t in
  set_fill_defaults (copy_colors (m_defaults t) (m_fill_defaults t)) t.

(** [SGR]: one round of the loop per parameter block at most, so
    [n_params] rounds and the closing test. *)
Definition SGR (seq : vte_seq) (t : VteTerminalPrivate) : VteTerminalPrivate :=
  if size seq =? 0 then reset_default_attributes false t
  else
    match SGR_loop (S (length (args seq))) seq 0 t with
    | Some t' => SGR_save_colors t'
    | None => t
    end.

(** *** OSC 8 hyperlinks *)

(** C string helpers; a [char*] is the text before its NUL. *)
Definition strlen (s : string) : Z := Z.of_nat (String.length s).

(** [s + n] for [n] within the string. *)
Fixpoint advance (n : nat) (s : string) : string :=
  match n, s with
  | S n', String _ s' => advance n' s'
  | _, _ => s
  end.

(** [strstr(haystack, needle)]: the tail of [haystack] at the first
    occurrence of [needle]. *)
Fixpoint strstr (haystack needle : string) : option string :=
  if String.prefix needle haystack then Some haystack
  else
    match haystack with
    | EmptyString => None
    | String _ rest => strstr rest needle
    end.

(** [*strchrnul(s, c) = '\0']: [s] cut at the first [c]. *)
Fixpoint cut_at (c : ascii) (s : string) : string :=
  match s with
  | EmptyString => EmptyString
  | String a s' => if Ascii.eqb a c then EmptyString else String a (cut_at c s')
  end.

(** The [id] pointer of [set_current_hyperlink] once the parameter
    string is searched, cut at the colon and checked for length: [None]
    is the null pointer. *)
Definition hyperlink_explicit_id (hyperlink_params : option string) : option string :=
  let id :=
    match hyperlink_params with
    | Some hp =>
        if String.prefix "id=" hp then Some (advance 3 hp)
        else
          match strstr hp ":id=" with
          | Some at_id => Some (advance 4 at_id)
          | None => None
          end
    | None => None
    end in
  let id := option_map (cut_at ":") id in
  match id with
  | Some i => if strlen i >? VTE_HYPERLINK_ID_LENGTH_MAX defs then Some EmptyString else Some i
  | None => None
  end.

(** [sprintf(idbuf, ":%ld", m_hyperlink_auto_id++)]; the counter is a
    [long] that the handlers only ever increment. *)
Definition hyperlink_auto_id (t : VteTerminalPrivate) : string * VteTerminalPrivate :=
  ((":" ++ string_of_Z (m_hyperlink_auto_id t))%string,
   set_hyperlink_auto_id (m_hyperlink_auto_id t + 1) t).

(** The id that goes into the ["id;uri"] key. *)
Definition hyperlink_id (id : option string) (t : VteTerminalPrivate)
  : string * VteTerminalPrivate :=
  match id with
  | Some (String c rest) => (String c rest, t)
  | _ => hyperlink_auto_id t
  end.

Definition set_hyperlink_idx_of (hyperlink : option string) (t : VteTerminalPrivate)
  : VteTerminalPrivate :=
  let '(ring, idx) := _vte_ring_get_hyperlink_idx (row_data (m_screen t)) hyperlink in
  let t := set_row_data ring t in
  set_defaults (set_hyperlink_idx idx (m_defaults t)) t.

Definition set_current_hyperlink (hyperlink_params uri : option string)
    (t : VteTerminalPrivate) : VteTerminalPrivate :=
  if negb (m_allow_hyperlink t) then t
  else
    let id := hyperlink_explicit_id hyperlink_params in
    let uri :=
      match uri with
      | Some u => if strlen u >? VTE_HYPERLINK_URI_LENGTH_MAX defs
                  then Some EmptyString else Some u
      | None => None
      end in
    match uri with
    | Some (String c rest) =>
        let '(id, t) := hyperlink_id id t in
        set_hyperlink_idx_of (Some (id ++ ";" ++ String c rest)%string) t
    | _ => set_hyperlink_idx_of None t
    end.

(** *** DECSET and DECRESET *)

(** The member functions used as hooks in the mode table. *)
Inductive decset_handler_t : Type :=
  | handler_reset_mouse_smooth_scroll_delta
  | handler_switch_normal_screen
  | handler_switch_alternate_screen
  | handler_restore_cursor
  | handler_save_cursor
  | handler_switch_normal_screen_and_restore_cursor
  | handler_save_cursor_and_switch_alternate_screen
  | handler_feed_focus_event_initial.

(** The hooks that switch screens, save or restore the cursor or report
    the focus run on the second screen and the saved-cursor record and
    call into code outside the sources; the handlers are parametric in
    them. *)
Context (external_handler : decset_handler_t -> VteTerminalPrivate -> VteTerminalPrivate).

Definition reset_mouse_smooth_scroll_delta (t : VteTerminalPrivate)
  : VteTerminalPrivate :=
  set_mouse_smooth_scroll_delta 0 t.

(** [(this->*handler)()] *)
Definition call_handler (h : decset_handler_t) (t : VteTerminalPrivate)
  : VteTerminalPrivate :=
  match h with
  | handler_reset_mouse_smooth_scroll_delta => reset_mouse_smooth_scroll_delta t
  | _ => external_handler h t
  end.

(** [struct decset_t]; an offset of 0 is [None]. *)
Record decset_t : Type := mk_decset {
  ds_setting : Z;
  boffset : option member;
  ioffset : option member;
  poffset : option member;
  fvalue : Z;
  tvalue : Z;
  reset_hook : option decset_handler_t;
  set_hook : option decset_handler_t
}.

Definition PRIV_OFFSET (m : member) : option member := Some m.

(** The static table of [decset], in source order. *)
Definition settings : list decset_t :=
  [ mk_decset 1 None (PRIV_OFFSET OFFSET_m_cursor_mode) None
      (VTE_KEYMODE_NORMAL defs) (VTE_KEYMODE_APPLICATION defs) None None;
    mk_decset 2 None None None 0 0 None None;
    mk_decset 3 None None None FALSE TRUE None None;
    mk_decset 5 (PRIV_OFFSET OFFSET_m_reverse_mode) None None FALSE TRUE None None;
    mk_decset 6 (PRIV_OFFSET OFFSET_m_origin_mode) None None FALSE TRUE None None;
    mk_decset 7 (PRIV_OFFSET OFFSET_m_autowrap) None None FALSE TRUE None None;
    mk_decset 8 None None None 0 0 None None;
    mk_decset 9 None (PRIV_OFFSET OFFSET_m_mouse_tracking_mode) None
      0 (MOUSE_TRACKING_SEND_XY_ON_CLICK defs)
      (Some handler_reset_mouse_smooth_scroll_delta)
      (Some handler_reset_mouse_smooth_scroll_delta);
    mk_decset 12 None None None 0 0 None None;
    mk_decset 25 (PRIV_OFFSET OFFSET_m_cursor_visible) None None FALSE TRUE None None;
    mk_decset 30 None None None 0 0 None None;
    mk_decset 35 None None None 0 0 None None;
    mk_decset 40 (PRIV_OFFSET OFFSET_m_deccolm_mode) None None FALSE TRUE None None;
    mk_decset 47 None None None 0 0
      (Some handler_switch_normal_screen) (Some handler_switch_alternate_screen);
    mk_decset 66 (PRIV_OFFSET OFFSET_m_keypad_mode) None None
      (VTE_KEYMODE_NORMAL defs) (VTE_KEYMODE_APPLICATION defs) None None;
    mk_decset 67 None None None 0 0 None None;
    mk_decset 1000 None (PRIV_OFFSET OFFSET_m_mouse_tracking_mode) None
      0 (MOUSE_TRACKING_SEND_XY_ON_BUTTON defs)
      (Some handler_reset_mouse_smooth_scroll_delta)
      (Some handler_reset_mouse_smooth_scroll_delta);
    mk_decset 1001 None (PRIV_OFFSET OFFSET_m_mouse_tracking_mode) None
      0 (MOUSE_TRACKING_HILITE_TRACKING defs)
      (Some handler_reset_mouse_smooth_scroll_delta)
      (Some handler_reset_mouse_smooth_scroll_delta);
    mk_decset 1002 None (PRIV_OFFSET OFFSET_m_mouse_tracking_mode) None
      0 (MOUSE_TRACKING_CELL_MOTION_TRACKING defs)
      (Some handler_reset_mouse_smooth_scroll_delta)
      (Some handler_reset_mouse_smooth_scroll_delta);
    mk_decset 1003 None (PRIV_OFFSET OFFSET_m_mouse_tracking_mode) None
      0 (MOUSE_TRACKING_ALL_MOTION_TRACKING defs)
      (Some handler_reset_mouse_smooth_scroll_delta)
      (Some handler_reset_mouse_smooth_scroll_delta);
    mk_decset 1004 (PRIV_OFFSET OFFSET_m_focus_tracking_mode) None None FALSE TRUE
      None (Some handler_feed_focus_event_initial);
    mk_decset 1006 (PRIV_OFFSET OFFSET_m_mouse_xterm_extension) None None FALSE TRUE
      None None;
    mk_decset 1007 (PRIV_OFFSET OFFSET_m_alternate_screen_scroll) None None FALSE TRUE
      None None;
    mk_decset 1010 None None None 0 0 None None;
    mk_decset 1011 None None None 0 0 None None;
    mk_decset 1015 (PRIV_OFFSET OFFSET_m_mouse_urxvt_extension) None None FALSE TRUE
      None None;
    mk_decset 1035 None None None 0 0 None None;
    mk_decset 1036 (PRIV_OFFSET OFFSET_m_meta_sends_escape) None None FALSE TRUE
      None None;
    mk_decset 1037 None None None 0 0 None None;
    mk_decset 1047 None None None 0 0
      (Some handler_switch_normal_screen) (Some handler_switch_alternate_screen);
    mk_decset 1048 None None None 0 0
      (Some handler_restore_cursor) (Some handler_save_cursor);
    mk_decset 1049 None None None 0 0
      (Some handler_switch_normal_screen_and_restore_cursor)
      (Some handler_save_cursor_and_switch_alternate_screen);
    mk_decset 2004 (PRIV_OFFSET OFFSET_m_bracketed_paste_mode) None None FALSE TRUE
      None None ].

(** [bsearch] with [decset_cmp] over the table, which is sorted by
    setting and has no setting twice: the entry with the key's setting.
    The key holds the setting as a [gint16]. *)
Definition decset_find (setting : Z) : option decset_t :=
  find (fun e => ds_setting e =? int16 setting) settings.

(** "Handle settings we want to ignore." *)
Definition decset_ignored (key : decset_t) : bool :=
  (fvalue key =? tvalue key)
  && negb (bool_decide (is_Some (set_hook key)))
  && negb (bool_decide (is_Some (reset_hook key))).

(** [g_hash_table_lookup(m_dec_saved, setting) != NULL] *)
Definition dec_saved_lookup (setting : Z) (t : VteTerminalPrivate) : bool :=
  match m_dec_saved t !! setting with
  | Some b => b
  | None => false
  end.

(** The value the [if (save)] block reads for an entry: the member
    itself for a [gboolean], the comparison with the on-value for an
    [int] or a pointer, and the incoming [set] for an entry without a
    member.  The pointer of a pointer-valued member is the offset it
    points at. *)
Definition decset_saved_value (key : decset_t) (set : bool) (t : VteTerminalPrivate)
  : bool :=
  match boffset key, ioffset key, poffset key with
  | Some b, _, _ => negb (get_member b t =? FALSE)
  | None, Some i, _ => get_member i t =? tvalue key
  | None, None, Some p => get_member p t =? tvalue key
  | None, None, None => set
  end.

(** The [if (save)] block for an entry: the value read and the state
    with that value stored. *)
Definition decset_save (key : decset_t) (setting : Z) (set : bool)
    (t : VteTerminalPrivate) : bool * VteTerminalPrivate :=
  let set := decset_saved_value key set t in
  (set, set_dec_saved (<[setting := set]> (m_dec_saved t)) t).

(** The [if (!save)] block for an entry. *)
Definition decset_apply (key : decset_t) (set : bool) (t : VteTerminalPrivate)
  : VteTerminalPrivate :=
  let t :=
    match set_hook key with
    | Some h => if set then call_handler h t else t
    | None => t
    end in
  let t :=
    match boffset key, ioffset key, poffset key with
    | Some b, _, _ => set_member b (of_bool set) t
    | None, Some i, _ => set_member i (if set then tvalue key else fvalue key) t
    | None, None, Some p => set_member p (if set then tvalue key else fvalue key) t
    | None, None, None => t
    end in
  match reset_hook key with
  | Some h => if negb set then call_handler h t else t
  | None => t
  end.

(** The [do { ... } while (0)] of [decset] for the entry found: the
    value of [set] it leaves and the new state. *)
Definition decset_entry (key : decset_t) (setting : Z) (restore save set : bool)
    (t : VteTerminalPrivate) : bool * VteTerminalPrivate :=
  if decset_ignored key then (set, t)
  else
    let set := if restore then dec_saved_lookup setting t else set in
    let '(set, t) := if save then decset_save key setting set t else (set, t) in
    let t := if negb save then decset_apply key set t else t in
    (set, t).

(** "Do whatever's necessary when the setting changes": the [switch] that
    closes [decset]. *)
Definition decset_switch (setting : Z) (set : bool) (t : VteTerminalPrivate)
  : VteTerminalPrivate :=
  if setting =? 3 then
    if truthy (m_deccolm_mode t) then
      let t := do_effect (emit_resize_window (if set then 132 else 80) (m_row_count t)) t in
      let t := clear_screen t in
      home_cursor t
    else t
  else if setting =? 5 then do_effect invalidate_all t
  else if setting =? 6 then home_cursor t
  else if (setting =? 47) || (setting =? 1047) || (setting =? 1049) then
    let t := if set then clear_screen t else t in
    let t := do_effect gtk_adjustment_set_value t in
    let t := do_effect set_scrollback_lines t in
    let t := do_effect queue_contents_changed t in
    do_effect invalidate_all t
  else if (setting =? 9) || (setting =? 1000) || (setting =? 1001)
          || (setting =? 1002) || (setting =? 1003) then
    do_effect apply_mouse_cursor t
  else t.

(** [decset(long setting, bool restore, bool save, bool set)] *)
Definition decset (setting : Z) (restore save set : bool) (t : VteTerminalPrivate)
  : VteTerminalPrivate :=
  match decset_find setting with
  | None => t
  | Some key =>
      let '(set, t) := decset_entry key setting restore save set t in
      decset_switch setting set t
  end.

End WithDefines.

(** The values that the headers of the upstream release give to the
    constants, as an instance for the examples. *)
Definition upstream_defines : Defines :=
  {| VTE_LEGACY_COLORS_OFFSET := 0;
     VTE_COLOR_BRIGHT_OFFSET := 8;
     VTE_DEFAULT_FG := 256;
     VTE_DEFAULT_BG := 257;
     VTE_RGB_COLOR := fun rb gb bb r g b =>
       Z.lor (Z.shiftl 1 (rb + gb + bb))
         (Z.lor (Z.shiftl (Z.land (Z.shiftr r (8 - rb)) (Z.shiftl 1 rb - 1)) (gb + bb))
            (Z.lor (Z.shiftl (Z.land (Z.shiftr g (8 - gb)) (Z.shiftl 1 gb - 1)) bb)
               (Z.land (Z.shiftr b (8 - bb)) (Z.shiftl 1 bb - 1))));
     VTE_KEYMODE_NORMAL := 0;
     VTE_KEYMODE_APPLICATION := 1;
     MOUSE_TRACKING_SEND_XY_ON_CLICK := 1;
     MOUSE_TRACKING_SEND_XY_ON_BUTTON := 2;
     MOUSE_TRACKING_HILITE_TRACKING := 3;
     MOUSE_TRACKING_CELL_MOTION_TRACKING := 4;
     MOUSE_TRACKING_ALL_MOTION_TRACKING := 5;
     VTE_HYPERLINK_ID_LENGTH_MAX := 250;
     VTE_HYPERLINK_URI_LENGTH_MAX := 2083;
     VTE_CAP_CSI := String (ascii_of_nat 27) "["%string;
     basic_cell := mk_attr 256 257 256 false false false 0 false false false false
                           false 0 |}.

(** A terminal of [rows] by [columns] cells after power-on: cursor at
    the origin, no scrolling restriction, every mode member 0. *)
Definition power_on (rows columns : Z) : VteTerminalPrivate :=
  {| m_screen := mk_screen (mk_ring 0 []) (mk_position 0 0) 0;
     m_row_count := rows;
     m_column_count := columns;
     m_scrolling_restricted := false;
     m_scrolling_region := mk_region 0 (rows - 1);
     m_cursor_mode := 0;
     m_reverse_mode := 0;
     m_origin_mode := 0;
     m_autowrap := 1;
     m_mouse_tracking_mode := 0;
     m_cursor_visible := 1;
     m_deccolm_mode := 0;
     m_keypad_mode := 0;
     m_focus_tracking_mode := 0;
     m_mouse_xterm_extension := 0;
     m_alternate_screen_scroll := 1;
     m_mouse_urxvt_extension := 0;
     m_meta_sends_escape := 1;
     m_bracketed_paste_mode := 0;
     m_mouse_smooth_scroll_delta := 0;
     m_dec_saved := ∅;
     m_defaults := basic_cell upstream_defines;
     m_color_defaults := basic_cell upstream_defines;
     m_fill_defaults := basic_cell upstream_defines;
     m_allow_hyperlink := true;
     m_hyperlink_auto_id := 0;
     m_text_deleted_flag := false;
     m_effects := [] |}.

End Terminal.

(** ** Sub-parameter collection ([parser-glue.hh], class [Sequence]) *)

Module Subparameters.
Import Arg Sequence.

(** The [for (auto i : params)] of [collect_subparams] over [n] output
    slots, each filled from [param(idx++, default_v)]: the values stored,
    in order, and the final [idx]. *)
Fixpoint collect_subparams_loop (seq : vte_seq) (idx : Z) (n : nat) (default_v : Z)
  : list Z * Z :=
  match n with
  | O => ([], idx)
  | S n' =>
      let v := param seq idx default_v in
      let '(vs, idx') := collect_subparams_loop seq (u32 (idx + 1)) n' default_v in
      (v :: vs, idx')
  end.

(** [collect_subparams(start_idx, {slots...}, default_v)]: the returned
    flag and the values written to the slots. *)
Definition collect_subparams (seq : vte_seq) (start_idx : Z) (n : nat) (default_v : Z)
  : bool * list Z :=
  let '(vs, idx) := collect_subparams_loop seq start_idx n default_v in
  (idx <=? next seq start_idx, vs).

End Subparameters.

(** ** The rest of a tokenised string ([parser-glue.hh]) *)

Module TokeniserRest.
Import StringTokeniser.

Definition size_remaining (it : const_iterator) : Z :=
  usize (string_size (m_string it) - m_position it).

(** [string_remaining]: [substr(m_position)], the string from the current
    token on, further separators included. *)
Definition string_remaining (it : const_iterator) : string :=
  string_substr (m_string it) (m_position it)
                (string_size (m_string it) - m_position it).

(** [append(str)] and [append_remaining(str)]: the string [str] refers to
    after the call. *)
Definition append (it : const_iterator) (str : string) : string :=
  (str ++ deref it)%string.

Definition append_remaining (it : const_iterator) (str : string) : string :=
  (str ++ string_remaining it)%string.

End TokeniserRest.

(** ** Cursor motion ([vteseq.cc]) *)

Module Motion.
Import Arg Sequence Terminal.

(** glib's [MIN(a, b)] and [MAX(a, b)]: [(a < b) ? a : b] and
    [(a > b) ? a : b]. *)
Definition MIN (a b : Z) : Z := if a <? b then a else b.
Definition MAX (a b : Z) : Z := if a >? b then a else b.

Definition move_cursor_down (rows : Z) (t : VteTerminalPrivate) : VteTerminalPrivate :=
  let rows := CLAMP rows 1 (m_row_count t) in
  let t := ensure_cursor_is_onscreen t in
  let end_ :=
    if m_scrolling_restricted t
    then insert_delta (m_screen t) + region_end (m_scrolling_region t)
    else insert_delta (m_screen t) + m_row_count t - 1 in
  set_cursor (mk_position (MIN (row (cursor (m_screen t)) + rows) end_)
                          (col (cursor (m_screen t)))) t.

Definition move_cursor_up (rows : Z) (t : VteTerminalPrivate) : VteTerminalPrivate :=
  let rows := CLAMP rows 1 (m_row_count t) in
  let t := ensure_cursor_is_onscreen t in
  let start :=
    if m_scrolling_restricted t
    then insert_delta (m_screen t) + region_start (m_scrolling_region t)
    else insert_delta (m_screen t) in
  set_cursor (mk_position (MAX (row (cursor (m_screen t)) - rows) start)
                          (col (cursor (m_screen t)))) t.

Definition move_cursor_backward (columns : Z) (t : VteTerminalPrivate)
  : VteTerminalPrivate :=
  let t := ensure_cursor_is_onscreen t in
  let column := get_cursor_column t in
  let columns := CLAMP columns 1 column in
  set_cursor_column (column - columns) t.

Definition move_cursor_forward (columns : Z) (t : VteTerminalPrivate)
  : VteTerminalPrivate :=
  let columns := CLAMP columns 1 (m_column_count t) in
  let t := ensure_cursor_is_onscreen t in
  let column := get_cursor_column t in
  if column <? m_column_count t then set_cursor_column (column + columns) t
  else t.

Definition BS (seq : vte_seq) (t : VteTerminalPrivate) : VteTerminalPrivate :=
  let t := ensure_cursor_is_onscreen t in
  if col (cursor (m_screen t)) >? 0
  then set_cursor (mk_position (row (cursor (m_screen t)))
                               (col (cursor (m_screen t)) - 1)) t
  else t.

Definition CHA (seq : vte_seq) (t : VteTerminalPrivate) : VteTerminalPrivate :=
  let value := collect1_clamped seq 0 1 1 (m_column_count t) in
  set_cursor_column1 value t.

Definition CNL (seq : vte_seq) (t : VteTerminalPrivate) : VteTerminalPrivate :=
  let t := set_cursor_column1 1 t in
  let value := collect1 seq 0 1 in
  move_cursor_down value t.

Definition CPL (seq : vte_seq) (t : VteTerminalPrivate) : VteTerminalPrivate :=
  let t := set_cursor_column 0 t in
  let value := collect1 seq 0 1 in
  move_cursor_up value t.

Definition CR (seq : vte_seq) (t : VteTerminalPrivate) : VteTerminalPrivate :=
  set_cursor_column 0 t.

Definition CUB (seq : vte_seq) (t : VteTerminalPrivate) : VteTerminalPrivate :=
  move_cursor_backward (collect1 seq 0 1) t.

Definition CUD (seq : vte_seq) (t : VteTerminalPrivate) : VteTerminalPrivate :=
  move_cursor_down (collect1 seq 0 1) t.

Definition CUF (seq : vte_seq) (t : VteTerminalPrivate) : VteTerminalPrivate :=
  move_cursor_forward (collect1 seq 0 1) t.

Definition CUU (seq : vte_seq) (t : VteTerminalPrivate) : VteTerminalPrivate :=
  move_cursor_up (collect1 seq 0 1) t.

Definition HPA (seq : vte_seq) (t : VteTerminalPrivate) : VteTerminalPrivate :=
  let value := collect1_clamped seq 0 1 1 (m_column_count t) in
  set_cursor_column1 value t.

Definition HVP (seq : vte_seq) (t : VteTerminalPrivate) : VteTerminalPrivate :=
  CUP seq t.

Definition VPA (seq : vte_seq) (t : VteTerminalPrivate) : VteTerminalPrivate :=
  let t := ensure_cursor_is_onscreen t in
  let value := collect1_clamped seq 0 1 1 (m_row_count t) in
  set_cursor_row1 value t.

End Motion.

(** ** Device attributes and keypad mode ([vteseq.cc]) *)

Module Queries.
Import Arg Sequence Terminal.

(** The reply of [DA1] is spelled out in the source: ESC [ ? 6 2 ; c. *)
Definition DA1 (seq : vte_seq) (t : VteTerminalPrivate) : VteTerminalPrivate :=
  if negb (collect1 seq 0 0 =? 0) then t
  else feed (String (ascii_of_nat 27) "[?62;c") t.

Definition DA3 (seq : vte_seq) (t : VteTerminalPrivate) : VteTerminalPrivate :=
  if negb (collect1 seq 0 0 =? 0) then t else t.

Definition DECID (seq : vte_seq) (t : VteTerminalPrivate) : VteTerminalPrivate :=
  DA1 seq t.

Section WithDefines.
Context (defs : Defines).

Definition set_keypad_mode (mode : Z) (t : VteTerminalPrivate) : VteTerminalPrivate :=
  set_member OFFSET_m_keypad_mode mode t.

Definition DECKPAM (seq : vte_seq) (t : VteTerminalPrivate) : VteTerminalPrivate :=
  set_keypad_mode (VTE_KEYMODE_APPLICATION defs) t.

Definition DECKPNM (seq : vte_seq) (t : VteTerminalPrivate) : VteTerminalPrivate :=
  set_keypad_mode (VTE_KEYMODE_NORMAL defs) t.

End WithDefines.

End Queries.

(** * Statements

    The notions the statements below are phrased in. *)

Import Arg Sequence Terminal.

(** The index at which the [k]-th parameter block counted from [s]
    starts: [k] applications of [next]. *)
Definition block_start (seq : vte_seq) (s : Z) (k : nat) : Z :=
  Nat.iter k (next seq) s.

(** The four spellings of an extended foreground colour: [38;2;10;20;30],
    [38:2:10:20:30], [38:2::10:20:30] and [38:2:1:10:20:30]. *)
Definition sgr_semicolon : vte_seq :=
  mk_seq [fin 38; fin 2; fin 10; fin 20; fin 30].
Definition sgr_colon : vte_seq :=
  mk_seq [sub 38; sub 2; sub 10; sub 20; fin 30].
Definition sgr_colon_default_colorspace : vte_seq :=
  mk_seq [sub 38; sub 2; sub_default; sub 10; sub 20; fin 30].
Definition sgr_colon_colorspace_1 : vte_seq :=
  mk_seq [sub 38; sub 2; sub 1; sub 10; sub 20; fin 30].



(** The arguments as the sequence holds them, without the accessors of
    the sequence view: the number an argument stands for (-1 for a
    default one), the number at position [k] of a list of arguments (-1
    past its end), and the length of the parameter block a list starts
    with: its leading sub-parameters and the parameter that closes them,
    the position after the end of the list counting as that parameter
    when none is left. *)
Definition arg_number (a : vte_seq_arg_t) : Z :=
  match arg_value a with
  | Some v => v
  | None => -1
  end.

Definition list_value (l : list vte_seq_arg_t) (k : nat) : Z :=
  nth k (map arg_number l) (-1).




(** The home position: column 0 of the first row, which is the top of the
    scrolling region when origin mode and the restriction are both on. *)
Definition home_position (t : VteTerminalPrivate) : VteVisualPosition :=
  mk_position
    (insert_delta (m_screen t)
     + (if truthy (m_origin_mode t) && m_scrolling_restricted t
        then region_start (m_scrolling_region t) else 0))
    0.

(** The top and bottom margins DECSTBM works with, after defaulting. *)
Definition DECSTBM_top (seq : vte_seq) : Z :=
  let v := param seq 0 (-1) in if v =? -1 then 1 else v.
Definition DECSTBM_bottom (seq : vte_seq) (t : VteTerminalPrivate) : Z :=
  let v := param seq (next seq 0) (-1) in if v =? -1 then m_row_count t else v.

(** A state put into origin mode with the scrolling region restricted
    to the rows [first..last] (counted from 0). *)
Definition with_origin_region (first last : Z) (t : VteTerminalPrivate)
  : VteTerminalPrivate :=
  set_member OFFSET_m_origin_mode TRUE
    (set_scrolling_restricted true
       (set_scrolling_region (mk_region first last) t)).

(** Origin mode and the scrolling restriction are both on. *)
Definition origin_restricted (t : VteTerminalPrivate) : bool :=
  truthy (m_origin_mode t) && m_scrolling_restricted t.

(** The scrolling region lies within the grid. *)
Definition region_in_grid (t : VteTerminalPrivate) : Prop :=
  0 <= region_start (m_scrolling_region t)
  /\ region_start (m_scrolling_region t) <= region_end (m_scrolling_region t)
  /\ region_end (m_scrolling_region t) <= m_row_count t - 1.

(** The cursor lies on the grid: row and column counted from 0. *)
Definition cursor_in_grid (t : VteTerminalPrivate) : Prop :=
  0 <= row (cursor (m_screen t)) - insert_delta (m_screen t) <= m_row_count t - 1
  /\ 0 <= col (cursor (m_screen t)) <= m_column_count t - 1.

(** A terminal of 80x24 cells in origin mode, scrolling region rows
    5..10 (counted from 0), with the cursor on row 20. *)
Definition below_region_state : VteTerminalPrivate :=
  set_cursor (mk_position 20 0) (with_origin_region 5 10 (power_on 24 80)).

(** Decimal digits and the value of a digit string read from the left
    with [acc] as the value so far. *)
Definition is_digit (c : ascii) : bool :=
  (48 <=? Z.of_nat (nat_of_ascii c)) && (Z.of_nat (nat_of_ascii c) <=? 57).

Fixpoint all_digits (s : string) : bool :=
  match s with
  | EmptyString => true
  | String c rest => is_digit c && all_digits rest
  end.

Fixpoint decimal_value (acc : Z) (s : string) : Z :=
  match s with
  | EmptyString => acc
  | String c rest => decimal_value (acc * 10 + (Z.of_nat (nat_of_ascii c) - 48)) rest
  end.

(** The loop of [number] run over the characters of a token. *)
Fixpoint number_scan (token : string) (v : Z) : bool * Z :=
  match token with
  | EmptyString => (true, v)
  | String c rest =>
      let c := StringTokeniser.char_value c in
      if (c <? StringTokeniser.char_value "0") || (c >? StringTokeniser.char_value "9")
      then (false, v)
      else
        let v' := v * 10 + (c - StringTokeniser.char_value "0") in
        if v' >? 65535 then (false, v') else number_scan rest v'
  end.

(** An iterator that points at a token of its string. *)
Definition valid_iterator (it : StringTokeniser.const_iterator) : Prop :=
  let len := StringTokeniser.string_size (StringTokeniser.m_string it) in
  len < npos
  /\ 0 <= StringTokeniser.m_position it <= len
  /\ (StringTokeniser.m_next_separator it = npos
      \/ StringTokeniser.m_position it <= StringTokeniser.m_next_separator it < len).

(** Whether the character [c] occurs in [s]. *)
Fixpoint has_char (c : ascii) (s : string) : bool :=
  match s with
  | EmptyString => false
  | String a rest => Ascii.eqb a c || has_char c rest
  end.

(** A run of OSC 8 sequences, each with its parameter string and URI. *)
Definition OSC8_run (defs : Defines) (calls : list (option string * option string))
    (t : VteTerminalPrivate) : VteTerminalPrivate :=
  fold_left (fun t call => set_current_hyperlink defs (fst call) (snd call) t) calls t.


(** A hook table for the examples: the hooks defined outside the sources
    do nothing. *)
Definition no_external_handler (h : decset_handler_t) (t : VteTerminalPrivate)
  : VteTerminalPrivate := t.

From Stdlib Require Import Sorted.
(** The notions of the further statements. *)

Import Subparameters Motion Queries.

(** Splitting a string at every occurrence of a separator, as a plain
    recursion over its characters; the result is never empty. *)
Fixpoint split_string (sep : ascii) (s : string) : list string :=
  match s with
  | EmptyString => [EmptyString]
  | String a rest =>
      if Ascii.eqb a sep then EmptyString :: split_string sep rest
      else
        match split_string sep rest with
        | token :: tokens => String a token :: tokens
        | [] => [String a EmptyString]
        end
  end.

(** The number of occurrences of a character, the position of its first
    occurrence, and the first [n] characters and the rest of a string. *)
Fixpoint count_char (c : ascii) (s : string) : nat :=
  match s with
  | EmptyString => O
  | String a rest => if Ascii.eqb a c then S (count_char c rest) else count_char c rest
  end.

Fixpoint find_char (c : ascii) (s : string) : option nat :=
  match s with
  | EmptyString => None
  | String a rest =>
      if Ascii.eqb a c then Some O else option_map S (find_char c rest)
  end.

Fixpoint str_take (n : nat) (s : string) : string :=
  match n, s with
  | S n', String a rest => String a (str_take n' rest)
  | _, _ => EmptyString
  end.

Fixpoint str_drop (n : nat) (s : string) : string :=
  match n, s with
  | S n', String _ rest => str_drop n' rest
  | _, _ => s
  end.

(** The tokens of a string, as strings. *)
Definition token_strings (str : string) (sep : ascii) : list string :=
  map StringTokeniser.deref (StringTokeniser.tokens str sep).

(** The handlers that only move the cursor. *)
Definition cursor_motion_handlers
  : list (vte_seq -> VteTerminalPrivate -> VteTerminalPrivate) :=
  [BS; CHA; CNL; CPL; CR; CUB; CUD; CUF; CUU; CUP; HPA; HVP; VPA].

(** The cursor is on a row of the screen and not left of it; its column
    may be the pending-wrap column at the right or beyond. *)
Definition cursor_on_screen (t : VteTerminalPrivate) : Prop :=
  0 <= row (cursor (m_screen t)) - insert_delta (m_screen t) <= m_row_count t - 1
  /\ 0 <= col (cursor (m_screen t)).

(** The cursor is on a row of the scrolling region. *)
Definition cursor_in_region (t : VteTerminalPrivate) : Prop :=
  region_start (m_scrolling_region t)
  <= row (cursor (m_screen t)) - insert_delta (m_screen t)
  <= region_end (m_scrolling_region t).

(** The handlers that move the cursor up or down by a count. *)
Definition vertical_motion_handlers
  : list (vte_seq -> VteTerminalPrivate -> VteTerminalPrivate) :=
  [CUU; CUD; CNL; CPL].

(** The first and the last row that [move_cursor_up] and
    [move_cursor_down] move to: the ends of the scrolling region when it
    is restricted, of the screen otherwise. *)
Definition top_limit (t : VteTerminalPrivate) : Z :=
  insert_delta (m_screen t)
  + (if m_scrolling_restricted t then region_start (m_scrolling_region t) else 0).
Definition bottom_limit (t : VteTerminalPrivate) : Z :=
  insert_delta (m_screen t)
  + (if m_scrolling_restricted t then region_end (m_scrolling_region t)
     else m_row_count t - 1).

(** A state with the scrolling region restricted to the rows
    [first..last] (counted from 0) and the cursor at [r], [c]. *)
Definition restricted_state (first last r c : Z) (t : VteTerminalPrivate)
  : VteTerminalPrivate :=
  set_cursor (mk_position r c)
    (set_scrolling_restricted true
       (set_scrolling_region (mk_region first last) t)).

(** The handlers that answer a query. *)
Definition query_handlers (defs : Defines)
  : list (vte_seq -> VteTerminalPrivate -> VteTerminalPrivate) :=
  [DSR_ECMA defs; DSR_DEC defs; DA1; DA3; DECID].

(** The private modes that [decset] acts on: the settings of its table
    whose entry has a member, two different values or a hook. *)
Definition handled_settings : list Z :=
  [1; 3; 5; 6; 7; 9; 25; 40; 47; 66; 1000; 1001; 1002; 1003; 1004; 1006; 1007;
   1015; 1036; 1047; 1048; 1049; 2004].

(** The member a table entry addresses, and the value [decset] writes
    to it for [set]: the flag itself for a [gboolean] member, the on or
    the off value of the entry otherwise. *)
Definition decset_member (key : decset_t) : option member :=
  match boffset key, ioffset key, poffset key with
  | Some b, _, _ => Some b
  | None, Some i, _ => Some i
  | None, None, p => p
  end.
Definition decset_value (key : decset_t) (set : bool) : Z :=
  match boffset key with
  | Some _ => of_bool set
  | None => if set then tvalue key else fvalue key
  end.

(** A hook slot that is empty or holds the one hook defined in the
    sources. *)
Definition internal_hook (h : option decset_handler_t) : bool :=
  match h with
  | None | Some handler_reset_mouse_smooth_scroll_delta => true
  | Some _ => false
  end.

(** The settings of the mouse tracking modes. *)
Definition mouse_tracking_settings : list Z := [9; 1000; 1001; 1002; 1003].

(** [t'] differs from [t] in the three attribute records at most. *)
Definition attributes_only (t t' : VteTerminalPrivate) : Prop :=
  exists d c f : VteCellAttr,
    t' = set_fill_defaults f (set_color_defaults c (set_defaults d t)).

(** Two attribute records with the same three colours. *)
Definition same_colors (a b : VteCellAttr) : Prop :=
  fore a = fore b /\ back a = back b /\ deco a = deco b.

(** What a round of the SGR loop keeps: everything but the three
    attribute records, and the current hyperlink. *)
Definition SGR_keeps (t t' : VteTerminalPrivate) : Prop :=
  attributes_only t t'
  /\ hyperlink_idx (m_defaults t') = hyperlink_idx (m_defaults t).

(** A final parameter that does not introduce a colour specification:
    not a sub-parameter, and not 38, 48 or 58. *)
Definition plain_parameter (arg : vte_seq_arg_t) : bool :=
  negb (arg_nonfinal arg)
  && negb (vte_seq_arg_value arg (-1) =? 38)
  && negb (vte_seq_arg_value arg (-1) =? 48)
  && negb (vte_seq_arg_value arg (-1) =? 58).

(** Two states that differ at most in the three colours of the colour
    defaults and of the fill defaults. *)
Definition colours_apart (u u' : VteTerminalPrivate) : Prop :=
  exists c f : VteCellAttr,
    u' = set_fill_defaults f (set_color_defaults c u)
    /\ (forall x, copy_colors x c = copy_colors x (m_color_defaults u))
    /\ (forall x, copy_colors x f = copy_colors x (m_fill_defaults u)).

(** The grid invariant: a grid of at least one cell, a restricted
    scrolling region within it, and the cursor on it. *)
Definition grid_ok (t : VteTerminalPrivate) : Prop :=
  1 <= m_row_count t
  /\ 1 <= m_column_count t
  /\ (m_scrolling_restricted t = true -> region_in_grid t)
  /\ cursor_in_grid t.

(** What the grid invariant reads of a state. *)
Definition grid_view (t : VteTerminalPrivate)
  : VteVisualPosition * Z * Z * Z * bool * vte_scrolling_region :=
  (cursor (m_screen t), insert_delta (m_screen t), m_row_count t, m_column_count t,
   m_scrolling_restricted t, m_scrolling_region t).

(** A sequence that SGR does not answer with a reset: it has a
    parameter, and none of its arguments is 0 or default. *)
Definition no_reset_parameter (seq : vte_seq) : bool :=
  negb (length (args seq) =? 0)%nat
  && forallb (fun a => negb (arg_number a =? 0) && negb (arg_number a =? -1)) (args seq).

(** The settings whose table entry has a hook other than
    [reset_mouse_smooth_scroll_delta]: the hooks that switch screens,
    save or restore the cursor, or report the focus. *)
Definition hooked_settings : list Z := [47; 1004; 1047; 1048; 1049].

(** One step of a run: a handler applied to its sequence, or [decset]
    on one setting. *)
Inductive grid_step (defs : Defines)
    (external_handler : decset_handler_t -> VteTerminalPrivate -> VteTerminalPrivate)
  : (VteTerminalPrivate -> VteTerminalPrivate) -> Prop :=
  | step_motion h seq :
      In h cursor_motion_handlers -> grid_step defs external_handler (h seq)
  | step_DECSTBM seq : grid_step defs external_handler (DECSTBM seq)
  | step_query h seq :
      In h (query_handlers defs) -> grid_step defs external_handler (h seq)
  | step_SGR seq :
      wf seq -> no_reset_parameter seq = true ->
      grid_step defs external_handler (SGR defs seq)
  | step_hyperlink hyperlink_params uri :
      grid_step defs external_handler (set_current_hyperlink defs hyperlink_params uri)
  | step_DECKPAM seq : grid_step defs external_handler (DECKPAM defs seq)
  | step_DECKPNM seq : grid_step defs external_handler (DECKPNM defs seq)
  | step_decset setting restore save set :
      ~ In (int16 setting) hooked_settings ->
      grid_step defs external_handler
        (decset defs external_handler setting restore save set).

(** A run of steps, first to last. *)
Definition run_steps (steps : list (VteTerminalPrivate -> VteTerminalPrivate))
    (t : VteTerminalPrivate) : VteTerminalPrivate :=
  fold_left (fun u step => step u) steps t.

(** * Proofs *)

(** ** The sequence view *)

Lemma u32_small z : 0 <= z < 2 ^ 32 -> u32 z = z.
Proof. intros H. unfold u32. apply Z.mod_small. exact H. Qed.

(** Increments that stay below 2^32 do not wrap. *)
Ltac u32_simpl :=
  repeat match goal with
         | |- context [u32 (?a + 1)] => rewrite (u32_small (a + 1)) by lia
         end.

Lemma size_nonneg seq : 0 <= size seq.
Proof. unfold size. lia. Qed.

Lemma wf_size seq : wf seq -> size seq <= 16.
Proof. unfold wf, size, VTE_PARSER_ARG_MAX. lia. Qed.

Lemma param_nonfinal_lt seq idx : param_nonfinal seq idx = true -> idx < size seq.
Proof.
  unfold param_nonfinal. destruct (idx <? size seq) eqn:E; [|discriminate].
  intros _. apply Z.ltb_lt. exact E.
Qed.

Lemma param_nonfinal_ge seq idx : size seq <= idx -> param_nonfinal seq idx = false.
Proof.
  intros H. unfold param_nonfinal.
  destruct (idx <? size seq) eqn:E; [apply Z.ltb_lt in E; lia | reflexivity].
Qed.

(** The loop of [next] stops at the first index from [idx] on whose
    parameter is final, provided the fuel covers the arguments left. *)
Lemma next_loop_stops seq : wf seq ->
  forall fuel idx, 0 <= idx < 2 ^ 32 -> size seq - idx < Z.of_nat fuel -> (0 < fuel)%nat ->
  exists j, next_loop fuel seq idx = Some j
            /\ idx <= j /\ j <= Z.max idx (size seq)
            /\ param_nonfinal seq j = false
            /\ (forall k, idx <= k < j -> param_nonfinal seq k = true).
Proof.
  intros Hwf. apply wf_size in Hwf.
  induction fuel as [|fuel IH]; intros idx Hidx Hfuel Hpos; [lia|].
  cbn [next_loop]. destruct (param_nonfinal seq idx) eqn:E.
  - pose proof (param_nonfinal_lt _ _ E) as Hlt.
    rewrite u32_small by lia.
    destruct (IH (idx + 1)) as (j & Hj & Hle & Hmax & Hstop & Hrun); try lia.
    exists j. repeat apply conj; try assumption; try lia.
    intros k Hk. destruct (Z.eq_dec k idx) as [->|Hne]; [exact E|].
    apply Hrun. lia.
  - exists idx. repeat apply conj; try assumption; try reflexivity; lia.
Qed.

Lemma next_spec seq idx : wf seq -> 0 <= idx < 2 ^ 32 ->
  exists j, next_loop (S (length (args seq))) seq idx = Some j
            /\ next seq idx = u32 (j + 1)
            /\ idx <= j /\ j <= Z.max idx (size seq)
            /\ param_nonfinal seq j = false
            /\ (forall k, idx <= k < j -> param_nonfinal seq k = true).
Proof.
  intros Hwf Hidx.
  destruct (next_loop_stops seq Hwf (S (length (args seq))) idx Hidx)
    as (j & Hj & H); [unfold size; lia | lia |].
  exists j. split; [exact Hj|]. split; [|exact H].
  unfold next. rewrite Hj. reflexivity.
Qed.

Lemma next_bounds seq idx : wf seq -> 0 <= idx < UINT_MAX ->
  idx < next seq idx <= Z.max (idx + 1) (size seq + 1).
Proof.
  intros Hwf Hidx. unfold UINT_MAX in Hidx.
  destruct (next_spec seq idx Hwf) as (j & _ & Hn & Hle & Hmax & _); [lia|].
  pose proof (wf_size _ Hwf). rewrite Hn. rewrite u32_small; lia.
Qed.

Lemma next_out_of_range seq idx : 0 <= idx < UINT_MAX -> size seq <= idx ->
  next seq idx = idx + 1.
Proof.
  intros Hidx Hge. unfold next. cbn [next_loop].
  rewrite (param_nonfinal_ge _ _ Hge). apply u32_small. unfold UINT_MAX in Hidx. lia.
Qed.

Lemma next_final seq idx : 0 <= idx < UINT_MAX -> param_nonfinal seq idx = false ->
  next seq idx = idx + 1.
Proof.
  intros Hidx Hf. unfold next. cbn [next_loop]. rewrite Hf.
  apply u32_small. unfold UINT_MAX in Hidx. lia.
Qed.

Lemma next_nonfinal seq idx : wf seq -> 0 <= idx ->
  param_nonfinal seq idx = true -> next seq idx = next seq (idx + 1).
Proof.
  intros Hwf Hidx Hnf.
  pose proof (param_nonfinal_lt _ _ Hnf) as Hlt. pose proof (wf_size _ Hwf) as Hsz.
  destruct (next_spec seq idx Hwf) as (j & _ & Hn & Hle & _ & Hstop & Hrun); [lia|].
  destruct (next_spec seq (idx + 1) Hwf) as (j' & _ & Hn' & Hle' & _ & Hstop' & Hrun'); [lia|].
  rewrite Hn, Hn'. f_equal. f_equal.
  assert (idx < j) by (destruct (Z.eq_dec idx j); [subst; congruence | lia]).
  destruct (Z.lt_trichotomy j j') as [Hlt'|[Heq|Hgt]]; [|exact Heq|].
  - rewrite Hrun' in Hstop by lia. discriminate.
  - rewrite Hrun in Hstop' by lia. discriminate.
Qed.


Lemma next_step_iff seq idx : wf seq -> 0 <= idx < UINT_MAX ->
  (next seq idx = idx + 1 <-> param_nonfinal seq idx = false).
Proof.
  intros Hwf Hidx. split.
  - intros Hn. destruct (param_nonfinal seq idx) eqn:E; [|reflexivity].
    rewrite next_nonfinal in Hn by (assumption || lia).
    pose proof (param_nonfinal_lt _ _ E). pose proof (wf_size _ Hwf).
    unfold UINT_MAX in *.
    pose proof (next_bounds seq (idx + 1) Hwf ltac:(unfold UINT_MAX; lia)). lia.
  - apply next_final. exact Hidx.
Qed.

Lemma block_start_bounds seq s k : wf seq -> 0 <= s -> s + 16 + Z.of_nat k < UINT_MAX ->
  s + Z.of_nat k <= block_start seq s k <= Z.max s (size seq + 1) + Z.of_nat k.
Proof.
  intros Hwf Hs. pose proof (wf_size _ Hwf) as Hsz. pose proof (size_nonneg seq).
  pose proof (next_bounds seq) as Hnext. unfold UINT_MAX in *.
  induction k as [|k IH]; intros Hk.
  - cbn. lia.
  - unfold block_start in *. rewrite Nat.iter_succ.
    specialize (IH ltac:(lia)).
    specialize (Hnext (Nat.iter k (next seq) s) Hwf ltac:(lia)). lia.
Qed.

Lemma collect_loop_spec seq d : forall n s,
  let '(vs, idx) := collect_loop seq s n d in
  idx = block_start seq s n /\ length vs = n
  /\ forall k, (k < n)%nat -> nth k vs d = param seq (block_start seq s k) d.
Proof.
  induction n as [|n IH]; intros s; cbn [collect_loop].
  - repeat apply conj; try reflexivity. intros k Hk. lia.
  - specialize (IH (next seq s)).
    destruct (collect_loop seq (next seq s) n d) as [vs idx].
    destruct IH as (Hidx & Hlen & Hnth).
    unfold block_start in *. repeat apply conj.
    + rewrite Nat.iter_succ_r. exact Hidx.
    + cbn. lia.
    + intros [|k] Hk; [reflexivity|].
      cbn [nth]. rewrite Nat.iter_succ_r. apply Hnth. lia.
Qed.

Lemma block_start_advance seq s n : wf seq -> 0 <= s -> s + 16 + Z.of_nat n < UINT_MAX ->
  (block_start seq s n - s = Z.of_nat n
   <-> forall k, (k < n)%nat -> param_nonfinal seq (block_start seq s k) = false).
Proof.
  intros Hwf Hs. induction n as [|n IH]; intros Hn.
  - cbn. split; [intros _ k Hk; lia | lia].
  - pose proof (block_start_bounds seq s n Hwf Hs) as Hb.
    pose proof (wf_size _ Hwf) as Hsz.
    assert (Hrange : 0 <= block_start seq s n < UINT_MAX)
      by (unfold UINT_MAX in *; lia).
    unfold UINT_MAX in Hn, Hb, IH. specialize (Hb ltac:(lia)).
    pose proof (next_bounds seq _ Hwf Hrange) as Hnext.
    pose proof (next_step_iff seq _ Hwf Hrange) as Hstep.
    change (block_start seq s (S n)) with (next seq (block_start seq s n)).
    split.
    + intros Heq k Hk.
      assert (Hn1 : block_start seq s n - s = Z.of_nat n) by lia.
      destruct (Nat.eq_dec k n) as [->|Hne].
      * apply Hstep. lia.
      * apply (proj1 (IH ltac:(lia)) Hn1). lia.
    + intros Hall.
      assert (Hn1 : block_start seq s n - s = Z.of_nat n).
      { apply IH; [lia|]. intros k Hk. apply Hall. lia. }
      assert (next seq (block_start seq s n) = block_start seq s n + 1).
      { apply Hstep. apply Hall. lia. }
      lia.
Qed.

Section SGRFacts.
Context (defs : Defines).

Lemma seq_parse_sgr_color_idx rb gb bb seq idx : wf seq -> 0 <= idx < size seq ->
  idx <= fst (seq_parse_sgr_color defs rb gb bb seq idx) <= size seq + 5.
Proof.
  intros Hwf Hidx. pose proof (wf_size _ Hwf) as Hsz.
  unfold seq_parse_sgr_color.
  destruct (param_nonfinal seq idx).
  - u32_simpl.
    repeat match goal with
           | |- context [if ?c then _ else _] => destruct c
           end; cbn [fst]; u32_simpl; lia.
  - assert (H1 := next_bounds seq idx Hwf ltac:(unfold UINT_MAX; lia)).
    assert (H2 := next_bounds seq (next seq idx) Hwf ltac:(unfold UINT_MAX; lia)).
    assert (H3 := next_bounds seq (next seq (next seq idx)) Hwf ltac:(unfold UINT_MAX; lia)).
    assert (H4 := next_bounds seq (next seq (next seq (next seq idx))) Hwf
                    ltac:(unfold UINT_MAX; lia)).
    repeat match goal with
           | |- context [if ?c then _ else _] => destruct c
           end; cbn [fst]; lia.
Qed.

Lemma SGR_param_idx seq i t : wf seq -> 0 <= i < size seq ->
  i <= fst (SGR_param defs seq i t) <= size seq + 5.
Proof.
  intros Hwf Hi.
  pose proof (seq_parse_sgr_color_idx 8 8 8 seq i Hwf Hi) as H888.
  pose proof (seq_parse_sgr_color_idx 4 5 4 seq i Hwf Hi) as H454.
  unfold SGR_param.
  destruct (seq_parse_sgr_color defs 8 8 8 seq i) as [i8 [c8|]];
  destruct (seq_parse_sgr_color defs 4 5 4 seq i) as [i4 [c4|]];
  cbn [fst] in *;
  repeat match goal with
         | |- context [if ?c then (_, _) else _] => destruct c
         end; cbn [fst]; lia.
Qed.

Lemma SGR_loop_terminates seq : wf seq ->
  forall fuel i t, 0 <= i -> size seq - i < Z.of_nat fuel -> (0 < fuel)%nat ->
  exists t', SGR_loop defs fuel seq i t = Some t'.
Proof.
  intros Hwf. pose proof (wf_size _ Hwf) as Hsz.
  induction fuel as [|fuel IH]; intros i t Hi Hfuel Hpos; [lia|].
  cbn [SGR_loop]. destruct (i <? size seq) eqn:E.
  - apply Z.ltb_lt in E.
    pose proof (SGR_param_idx seq i t Hwf ltac:(lia)) as Hidx.
    destruct (SGR_param defs seq i t) as [i' t']. cbn [fst] in Hidx.
    pose proof (next_bounds seq i' Hwf ltac:(unfold UINT_MAX; lia)).
    apply IH; lia.
  - eexists. reflexivity.
Qed.

End SGRFacts.

(** C9, amended.  For every index below [UINT_MAX] the loop of [next]
    ends and [next] returns a strictly greater index, which is [idx + 1]
    when [idx] is at or beyond [size()]; at [UINT_MAX] the increment wraps
    to 0.  The iteration [i = next(i)] of the SGR handler ends on every
    sequence: its loop returns within one round per argument. *)
Theorem next_advances_below_UINT_MAX (seq : vte_seq) (Hwf : wf seq) :
  (forall idx, 0 <= idx < UINT_MAX ->
     (exists j, next_loop (S (length (args seq))) seq idx = Some j)
     /\ idx < next seq idx
     /\ (size seq <= idx -> next seq idx = idx + 1))
  /\ next seq UINT_MAX = 0
  /\ (forall defs t,
        exists t', Terminal.SGR_loop defs (S (length (args seq))) seq 0 t = Some t').
Proof.
  repeat apply conj.
  - intros idx Hidx. repeat apply conj.
    + destruct (next_spec seq idx Hwf) as (j & Hj & _); [unfold UINT_MAX in Hidx; lia|].
      exists j. exact Hj.
    + apply next_bounds; assumption.
    + intros Hge. apply next_out_of_range; assumption.
  - unfold next. cbn [next_loop].
    rewrite param_nonfinal_ge; [reflexivity|].
    apply wf_size in Hwf. unfold UINT_MAX. lia.
  - intros defs t. apply SGR_loop_terminates; [assumption| lia | unfold size; lia | lia].
Qed.

(** C9 as stated fails at the largest index: [next(UINT_MAX)] is 0, which
    is not greater than [UINT_MAX]. *)
Lemma next_wraps_at_UINT_MAX :
  next (mk_seq []) UINT_MAX = 0 /\ ~ (UINT_MAX < next (mk_seq []) UINT_MAX).
Proof. split; [reflexivity|]. vm_compute. intros H. discriminate H. Qed.

Lemma wf_sgr_colon_default_colorspace : wf sgr_colon_default_colorspace.
Proof. unfold wf, VTE_PARSER_ARG_MAX. cbn. lia. Qed.

Lemma next_advances_witness :
  wf sgr_colon_default_colorspace
  /\ 0 < next sgr_colon_default_colorspace 0
  /\ next sgr_colon_default_colorspace UINT_MAX = 0.
Proof.
  split; [exact wf_sgr_colon_default_colorspace|].
  destruct (next_advances_below_UINT_MAX sgr_colon_default_colorspace
              wf_sgr_colon_default_colorspace) as (Hlt & Hwrap & _).
  split; [|exact Hwrap].
  apply (Hlt 0). unfold UINT_MAX. lia.
Defined.

(** C6, amended.  [collect] writes to the k-th slot the value of the
    parameter that starts the k-th block counted from [s] (the default
    when that parameter is default-valued or out of range), and returns
    true exactly when none of the [N] blocks it walked over has
    sub-parameters, that is, when the [N] blocks are [N] parameters. *)
Theorem collect_slots_and_flag (seq : vte_seq) (s : Z) (N : nat) (d : Z)
    (Hwf : wf seq) (Hs : 0 <= s) (Hrange : s + 16 + Z.of_nat N < UINT_MAX) :
  length (snd (collect seq s N d)) = N
  /\ (forall k, (k < N)%nat ->
        nth k (snd (collect seq s N d)) d = param seq (block_start seq s k) d)
  /\ (fst (collect seq s N d) = true <->
      forall k, (k < N)%nat -> param_nonfinal seq (block_start seq s k) = false).
Proof.
  unfold collect. pose proof (collect_loop_spec seq d N s) as Hloop.
  destruct (collect_loop seq s N d) as [vs idx]. cbn [fst snd].
  destruct Hloop as (Hidx & Hlen & Hnth).
  split; [exact Hlen|]. split; [exact Hnth|].
  subst idx. pose proof (block_start_bounds seq s N Hwf Hs Hrange) as Hb.
  pose proof (wf_size _ Hwf) as Hsz.
  rewrite u32_small by (unfold UINT_MAX in *; lia).
  rewrite Z.eqb_eq. apply block_start_advance; assumption.
Qed.

Lemma collect_slots_and_flag_witness :
  snd (collect sgr_semicolon 1 2 (-1)) = [2; 10]
  /\ fst (collect sgr_semicolon 1 2 (-1)) = true.
Proof.
  assert (Hwf : wf sgr_semicolon) by (unfold wf, VTE_PARSER_ARG_MAX; cbn; lia).
  destruct (collect_slots_and_flag sgr_semicolon 1 2 (-1) Hwf
              ltac:(lia) ltac:(unfold UINT_MAX; cbn; lia)) as (_ & _ & Hflag).
  split; [reflexivity|]. apply Hflag.
  intros [|[|k]] Hk; [reflexivity | reflexivity | lia].
Defined.

(** C6 as stated fails on [1:2;3]: two slots are filled from its two
    blocks, which are all the blocks there are, and [collect] returns
    false; on the empty list, which has no block at all, it returns
    true. *)
Lemma collect_two_blocks_returns_false :
  block_start (mk_seq [sub 1; fin 2; fin 3]) 0 2 = size (mk_seq [sub 1; fin 2; fin 3])
  /\ collect (mk_seq [sub 1; fin 2; fin 3]) 0 2 (-1) = (false, [1; 3])
  /\ collect (mk_seq []) 0 2 (-1) = (true, [-1; -1]).
Proof. repeat apply conj; reflexivity. Qed.

(** ** SGR colours *)

Lemma land_255 x : Z.land x 255 = x <-> 0 <= x <= 255.
Proof.
  change (Z.land x 255) with (Z.land x (Z.ones 8)). rewrite Z.land_ones by lia.
  change (2 ^ 8) with 256.
  split.
  - intros H. pose proof (Z.mod_pos_bound x 256 ltac:(lia)). lia.
  - intros H. apply Z.mod_small. lia.
Qed.



(** C1.  Whatever the terminal state, the SGR sequences [38;2;10;20;30],
    [38:2:10:20:30] and [38:2::10:20:30] leave the same state, whose
    foreground colour is the RGB colour 10,20,30; on [38:2:1:10:20:30] the
    colour parse fails and the foreground colour stays as it was. *)
Theorem SGR_foreground_grammar_equivalence (defs : Defines) (t : VteTerminalPrivate) :
  fore (m_defaults (SGR defs sgr_semicolon t)) = VTE_RGB_COLOR defs 8 8 8 10 20 30
  /\ SGR defs sgr_colon t = SGR defs sgr_semicolon t
  /\ SGR defs sgr_colon_default_colorspace t = SGR defs sgr_semicolon t
  /\ snd (seq_parse_sgr_color defs 8 8 8 sgr_colon_colorspace_1 0) = None
  /\ fore (m_defaults (SGR defs sgr_colon_colorspace_1 t)) = fore (m_defaults t).
Proof.
  repeat apply conj; reflexivity.
Qed.

Section ColourOutOfRange.
Context (defs : Defines).


End ColourOutOfRange.


(** ** DECSTBM *)

Lemma extend_ring_enough ring limit :
  exists ring', extend_ring (S (Z.to_nat (limit - _vte_ring_next ring))) ring limit
                = Some ring'
                /\ _vte_ring_next ring' = Z.max (_vte_ring_next ring) limit.
Proof.
  remember (Z.to_nat (limit - _vte_ring_next ring)) as n eqn:Hn.
  revert ring Hn. induction n as [|n IH]; intros ring Hn.
  - cbn [extend_ring]. destruct (Z.ltb_spec (_vte_ring_next ring) limit); [lia|].
    exists ring. split; [reflexivity | lia].
  - cbn [extend_ring]. destruct (Z.ltb_spec (_vte_ring_next ring) limit) as [Hlt|Hge].
    + destruct (IH (_vte_ring_insert ring (_vte_ring_next ring))) as (r' & Hr & Hnext).
      { unfold _vte_ring_insert, _vte_ring_next in *. cbn. lia. }
      exists r'. split; [exact Hr|].
      rewrite Hnext. unfold _vte_ring_insert, _vte_ring_next in *. cbn. lia.
    + lia.
Qed.

Lemma home_cursor_position t :
  1 <= m_row_count t -> 1 <= m_column_count t ->
  (truthy (m_origin_mode t) && m_scrolling_restricted t = true ->
   region_start (m_scrolling_region t) <= region_end (m_scrolling_region t)) ->
  cursor (m_screen (home_cursor t)) = home_position (home_cursor t)
  /\ m_scrolling_restricted (home_cursor t) = m_scrolling_restricted t
  /\ m_scrolling_region (home_cursor t) = m_scrolling_region t.
Proof.
  intros HR HC Hregion.
  assert (Hhome : home_position (home_cursor t) = home_position t).
  { unfold home_cursor, set_cursor_coords, set_cursor_row, set_cursor_column,
      home_position.
    cbn. destruct (truthy (m_origin_mode t) && m_scrolling_restricted t) eqn:E;
      cbn; rewrite ?E; reflexivity. }
  rewrite Hhome. clear Hhome.
  unfold home_cursor, set_cursor_coords, set_cursor_row, set_cursor_column,
    home_position, CLAMP.
  cbn. destruct (truthy (m_origin_mode t) && m_scrolling_restricted t).
  - specialize (Hregion eq_refl). cbn.
    repeat match goal with
           | |- context [if ?c then _ else _] =>
               let E := fresh in destruct c eqn:E
           end; repeat apply conj; try reflexivity; f_equal; lia.
  - cbn.
    repeat match goal with
           | |- context [if ?c then _ else _] =>
               let E := fresh in destruct c eqn:E
           end; repeat apply conj; try reflexivity; f_equal; lia.
Qed.

Lemma DECSTBM_unfold seq t :
  DECSTBM seq t =
  let start := DECSTBM_top seq in
  let end_ := DECSTBM_bottom seq t in
  if (start <? 1) || (start >? m_row_count t) || (end_ <? start + 1) then
    home_cursor (set_scrolling_restricted false t)
  else
    let end_ := if end_ >? m_row_count t then m_row_count t else end_ in
    let t := set_scrolling_region (mk_region (start - 1) (end_ - 1)) t in
    let t := set_scrolling_restricted true t in
    let t :=
      if (region_start (m_scrolling_region t) =? 0)
         && (region_end (m_scrolling_region t) =? m_row_count t - 1)
      then set_scrolling_restricted false t
      else
        let limit := insert_delta (m_screen t) + m_row_count t in
        let ring := row_data (m_screen t) in
        match extend_ring (S (Z.to_nat (limit - _vte_ring_next ring))) ring limit with
        | Some ring' => set_row_data ring' t
        | None => t
        end in
    home_cursor t.
Proof. reflexivity. Qed.

(** C3.  On a terminal of [R] rows, with top and bottom defaulted to 1
    and [R]: when top < 1, top > R or bottom < top + 1 DECSTBM clears the
    restriction flag; when top = 1 and bottom >= R it clears it as well;
    otherwise the region becomes [top - 1, min(bottom, R) - 1] and the
    flag is set; in every case the cursor ends at the home position. *)
Theorem DECSTBM_sets_region (seq : vte_seq) (t : VteTerminalPrivate)
    (HR : 1 <= m_row_count t) (HC : 1 <= m_column_count t) :
  let R := m_row_count t in
  let top := DECSTBM_top seq in
  let bottom := DECSTBM_bottom seq t in
  (top < 1 \/ top > R \/ bottom < top + 1 ->
   m_scrolling_restricted (DECSTBM seq t) = false)
  /\ (1 <= top <= R -> top + 1 <= bottom -> top = 1 /\ bottom >= R ->
      m_scrolling_restricted (DECSTBM seq t) = false)
  /\ (1 <= top <= R -> top + 1 <= bottom -> ~ (top = 1 /\ bottom >= R) ->
      m_scrolling_region (DECSTBM seq t) = mk_region (top - 1) (Z.min bottom R - 1)
      /\ m_scrolling_restricted (DECSTBM seq t) = true)
  /\ cursor (m_screen (DECSTBM seq t)) = home_position (DECSTBM seq t).
Proof.
  intros R top bottom. rewrite DECSTBM_unfold. fold top bottom R. cbv zeta.
  destruct ((top <? 1) || (top >? R) || (bottom <? top + 1)) eqn:Hbail.
  - (* garbage: bail out *)
    destruct (home_cursor_position (set_scrolling_restricted false t) HR HC)
      as (Hcur & Hflag & _).
    { cbn. rewrite andb_false_r. discriminate. }
    repeat apply conj; try (intros; lia); [intros _; exact Hflag | exact Hcur].
  - apply orb_false_elim in Hbail as [Hbail Hb3].
    apply orb_false_elim in Hbail as [Hb1 Hb2].
    apply Z.ltb_ge in Hb1, Hb3. assert (Hb2' : top <= R) by lia.
    set (end_ := if bottom >? R then R else bottom).
    assert (Hend : end_ = Z.min bottom R) by (subst end_; destruct (Z.gtb_spec bottom R); lia).
    cbn [m_scrolling_region set_scrolling_restricted set_scrolling_region
         region_start region_end m_row_count].
    fold R.
    destruct ((top - 1 =? 0) && (end_ - 1 =? R - 1)) eqn:Hfull.
    + (* the whole screen *)
      apply andb_prop in Hfull as [Hf1 Hf2]. apply Z.eqb_eq in Hf1, Hf2.
      match goal with
      | |- context [home_cursor ?u] =>
          destruct (home_cursor_position u HR HC) as (Hcur & Hflag & Hreg)
      end.
      { cbn. rewrite andb_false_r. discriminate. }
      repeat apply conj; try (intros; lia); [intros _ _ _; exact Hflag | exact Hcur].
    + (* a proper region *)
      assert (Hnot : ~ (top = 1 /\ bottom >= R)).
      { intros [H1 H2]. apply andb_false_iff in Hfull as [H|H];
          apply Z.eqb_neq in H; lia. }
      match goal with
      | |- context [home_cursor ?u] =>
          assert (Hu : m_scrolling_restricted u = true
                       /\ m_scrolling_region u = mk_region (top - 1) (end_ - 1)
                       /\ m_row_count u = R /\ m_column_count u = m_column_count t);
          [| destruct (home_cursor_position u) as (Hcur & Hflag & Hreg) ]
      end.
      { destruct (extend_ring _ _ _); cbn; repeat apply conj; reflexivity. }
      { destruct Hu as (_ & _ & -> & _). exact HR. }
      { destruct Hu as (_ & _ & _ & ->). exact HC. }
      { destruct Hu as (_ & -> & _). intros _. cbn. lia. }
      destruct Hu as (Hu1 & Hu2 & _).
      repeat apply conj; try (intros; lia).
      * intros _ _ _. split.
        -- rewrite Hreg, Hu2, Hend. reflexivity.
        -- rewrite Hflag. exact Hu1.
      * exact Hcur.
Qed.

Lemma DECSTBM_sets_region_witness :
  m_scrolling_region (DECSTBM (mk_seq [fin 3; fin 10]) (power_on 24 80)) = mk_region 2 9
  /\ m_scrolling_restricted (DECSTBM (mk_seq [fin 3; fin 10]) (power_on 24 80)) = true
  /\ cursor (m_screen (DECSTBM (mk_seq [fin 3; fin 10]) (power_on 24 80)))
     = home_position (DECSTBM (mk_seq [fin 3; fin 10]) (power_on 24 80)).
Proof.
  destruct (DECSTBM_sets_region (mk_seq [fin 3; fin 10]) (power_on 24 80))
    as (_ & _ & Hregion & Hhome);
    [change (1 <= 24); lia | change (1 <= 80); lia |].
  destruct Hregion as [Hreg Hflag];
    [change (1 <= 3 <= 24); lia | change (3 + 1 <= 10); lia
     | change (~ (3 = 1 /\ 10 >= 24)); lia |].
  repeat apply conj; [exact Hreg | exact Hflag | exact Hhome].
Defined.

(** ** CUP *)

Lemma std_clamp v lo hi : lo <= hi -> lo <= std_min (std_max v lo) hi <= hi.
Proof.
  intros H. unfold std_min, std_max.
  destruct (Z.ltb_spec v lo); destruct (Z.ltb_spec hi lo);
    try destruct (Z.ltb_spec hi v); lia.
Qed.

Lemma set_cursor_coords1_in_grid r c t :
  1 <= r <= m_row_count t -> 1 <= c <= m_column_count t ->
  (origin_restricted t = true -> region_in_grid t) ->
  cursor_in_grid (set_cursor_coords1 r c t)
  /\ (origin_restricted t = false ->
      cursor (m_screen (set_cursor_coords1 r c t))
      = mk_position (r - 1 + insert_delta (m_screen t)) (c - 1)).
Proof.
  intros Hr Hc Hregion.
  unfold cursor_in_grid, region_in_grid, origin_restricted in *.
  unfold set_cursor_coords1, set_cursor_row1, set_cursor_column1, set_cursor_row,
    set_cursor_column, CLAMP.
  cbn. destruct (truthy (m_origin_mode t) && m_scrolling_restricted t).
  - specialize (Hregion eq_refl). cbn.
    repeat match goal with
           | |- context [if ?c then _ else _] =>
               let E := fresh in destruct c eqn:E
           end; (split; [lia | discriminate]).
  - cbn.
    repeat match goal with
           | |- context [if ?c then _ else _] =>
               let E := fresh in destruct c eqn:E
           end; (split; [lia | intros _; f_equal; lia]).
Qed.

Lemma set_cursor_coords1_origin r c t :
  1 <= r <= m_row_count t -> 1 <= c <= m_column_count t ->
  origin_restricted t = true -> region_in_grid t ->
  cursor (m_screen (set_cursor_coords1 r c t))
  = mk_position
      (Z.min (region_start (m_scrolling_region t) + (r - 1))
             (region_end (m_scrolling_region t))
       + insert_delta (m_screen t))
      (c - 1).
Proof.
  intros Hr Hc Horigin Hregion.
  unfold region_in_grid, origin_restricted in *.
  unfold set_cursor_coords1, set_cursor_row1, set_cursor_column1, set_cursor_row,
    set_cursor_column, CLAMP.
  cbn. rewrite Horigin. cbn.
  repeat match goal with
         | |- context [if ?c then _ else _] =>
             let E := fresh in destruct c eqn:E
         end; f_equal; lia.
Qed.

(** C7, amended.  CUP without parameters, with default parameters and
    with 1;1 leave the same state.  The row and column handed to the
    move are the parameters clamped into [1, R] and [1, C], and the
    cursor ends on the grid: on that row and column, counted from 1,
    when origin mode and the scrolling restriction are not both on; on
    that column and on the row counted from the first row of the region,
    or on the last row of the region when this lies beyond it, when
    they are.  So on an 80x24 grid CUP 9999;9999 puts the cursor on row
    24, column 80 in the first case and on the last row of the region,
    column 80, in the second. *)
Theorem CUP_defaults_and_clamps (t : VteTerminalPrivate)
    (HR : 1 <= m_row_count t) (HC : 1 <= m_column_count t)
    (Hregion : origin_restricted t = true -> region_in_grid t) :
  CUP (mk_seq []) t = CUP (mk_seq [fin 1; fin 1]) t
  /\ CUP (mk_seq [fin_default; fin_default]) t = CUP (mk_seq [fin 1; fin 1]) t
  /\ (forall seq,
        exists r c,
          1 <= r <= m_row_count t /\ 1 <= c <= m_column_count t
          /\ r = Z.min (Z.max (collect1 seq 0 1) 1) (m_row_count t)
          /\ c = Z.min (Z.max (collect1 seq (next seq 0) 1) 1) (m_column_count t)
          /\ CUP seq t = set_cursor_coords1 r c t
          /\ cursor_in_grid (CUP seq t)
          /\ (origin_restricted t = false ->
              cursor (m_screen (CUP seq t))
              = mk_position (r - 1 + insert_delta (m_screen t)) (c - 1))
          /\ (origin_restricted t = true ->
              cursor (m_screen (CUP seq t))
              = mk_position
                  (Z.min (region_start (m_scrolling_region t) + (r - 1))
                         (region_end (m_scrolling_region t))
                   + insert_delta (m_screen t))
                  (c - 1)))
  /\ (origin_restricted t = false -> m_row_count t = 24 -> m_column_count t = 80 ->
      cursor (m_screen (CUP (mk_seq [fin 9999; fin 9999]) t))
      = mk_position (23 + insert_delta (m_screen t)) 79)
  /\ (origin_restricted t = true -> m_row_count t = 24 -> m_column_count t = 80 ->
      cursor (m_screen (CUP (mk_seq [fin 9999; fin 9999]) t))
      = mk_position (region_end (m_scrolling_region t) + insert_delta (m_screen t)) 79).
Proof.
  split; [reflexivity|]. split; [reflexivity|]. split; [|split].
  - intros seq.
    pose proof (std_clamp (collect1 seq 0 1) 1 (m_row_count t) HR) as Hr.
    pose proof (std_clamp (collect1 seq (next seq 0) 1) 1 (m_column_count t) HC) as Hc.
    exists (std_min (std_max (collect1 seq 0 1) 1) (m_row_count t)).
    exists (std_min (std_max (collect1 seq (next seq 0) 1) 1) (m_column_count t)).
    split; [exact Hr|]. split; [exact Hc|].
    split; [unfold std_min, std_max;
            destruct (Z.ltb_spec (collect1 seq 0 1) 1);
            match goal with |- context [if ?c then _ else _] => destruct c eqn:E end;
            lia|].
    split; [unfold std_min, std_max;
            destruct (Z.ltb_spec (collect1 seq (next seq 0) 1) 1);
            match goal with |- context [if ?c then _ else _] => destruct c eqn:E end;
            lia|].
    split; [reflexivity|].
    destruct (set_cursor_coords1_in_grid _ _ t Hr Hc Hregion) as [Hgrid Hpos].
    split; [exact Hgrid|]. split; [exact Hpos|].
    intros Horigin.
    apply (set_cursor_coords1_origin _ _ t Hr Hc Horigin (Hregion Horigin)).
  - intros Horigin H24 H80.
    change (CUP (mk_seq [fin 9999; fin 9999]) t)
      with (set_cursor_coords1 (std_min (std_max 9999 1) (m_row_count t))
              (std_min (std_max 9999 1) (m_column_count t)) t).
    rewrite H24, H80.
    change (std_min (std_max 9999 1) 24) with 24.
    change (std_min (std_max 9999 1) 80) with 80.
    destruct (set_cursor_coords1_in_grid 24 80 t) as [_ Hpos]; try lia; [exact Hregion|].
    rewrite (Hpos Horigin). f_equal.
  - intros Horigin H24 H80.
    change (CUP (mk_seq [fin 9999; fin 9999]) t)
      with (set_cursor_coords1 (std_min (std_max 9999 1) (m_row_count t))
              (std_min (std_max 9999 1) (m_column_count t)) t).
    rewrite H24, H80.
    change (std_min (std_max 9999 1) 24) with 24.
    change (std_min (std_max 9999 1) 80) with 80.
    pose proof (Hregion Horigin) as Hreg.
    rewrite (set_cursor_coords1_origin 24 80 t) by (assumption || lia).
    unfold region_in_grid in Hreg. f_equal. lia.
Qed.

Lemma CUP_defaults_and_clamps_witness :
  cursor (m_screen (CUP (mk_seq [fin 9999; fin 9999]) (power_on 24 80)))
  = mk_position 23 79
  /\ CUP (mk_seq []) (power_on 24 80) = CUP (mk_seq [fin 1; fin 1]) (power_on 24 80)
  /\ cursor (m_screen (CUP (mk_seq [fin 3; fin 9999])
                         (with_origin_region 5 10 (power_on 24 80))))
     = mk_position 7 79
  /\ cursor (m_screen (CUP (mk_seq [fin 20; fin 9999])
                         (with_origin_region 5 10 (power_on 24 80))))
     = mk_position 10 79.
Proof.
  destruct (CUP_defaults_and_clamps (power_on 24 80)) as (Hdef & _ & _ & Hmax & _);
    [change (1 <= 24); lia | change (1 <= 80); lia | discriminate |].
  split; [apply Hmax; reflexivity|]. split; [exact Hdef|].
  destruct (CUP_defaults_and_clamps (with_origin_region 5 10 (power_on 24 80)))
    as (_ & _ & Hpos & _);
    [change (1 <= 24); lia | change (1 <= 80); lia
     | intros _; unfold region_in_grid; cbn; lia |].
  split.
  - destruct (Hpos (mk_seq [fin 3; fin 9999]))
      as (r & c & _ & _ & -> & -> & _ & _ & _ & Ho).
    rewrite (Ho eq_refl). reflexivity.
  - destruct (Hpos (mk_seq [fin 20; fin 9999]))
      as (r & c & _ & _ & -> & -> & _ & _ & _ & Ho).
    rewrite (Ho eq_refl). reflexivity.
Defined.

(** C7 as stated fails in origin mode: on an 80x24 grid whose scrolling
    region is restricted to rows 6..11, CUP 9999;9999 leaves the cursor on
    the last row of the region (row 11, counted from 1), not on row 24. *)
Lemma CUP_origin_mode_stops_at_region_end :
  cursor (m_screen (CUP (mk_seq [fin 9999; fin 9999])
                        (with_origin_region 5 10 (power_on 24 80))))
  = mk_position 10 79.
Proof. reflexivity. Qed.

(** ** DSR *)

(** C5, the reply at the failing state.  In origin mode with the region
    restricted to rows 5..10 and the cursor on row 20, DSR 6 changes
    nothing but the output and reports row 11, although the region has
    only 6 rows: the row relative to the region top is clamped against the
    absolute last row of the region. *)
Theorem DSR_ECMA_reports_row_beyond_region :
  DSR_ECMA upstream_defines (mk_seq [fin 6]) below_region_state
  = do_effect (feed_child (String (ascii_of_nat 27) "[11;1R")) below_region_state
  /\ region_end (m_scrolling_region below_region_state)
     - region_start (m_scrolling_region below_region_state) + 1 = 6.
Proof. split; reflexivity. Qed.

(** What DSR 6 does in general: the state is left as it was but for the
    reply [CSI row ; col R] written to the child. *)
Lemma DSR_ECMA_cursor_report defs t :
  DSR_ECMA defs (mk_seq [fin 6]) t
  = let origin := if origin_restricted t
                  then region_start (m_scrolling_region t) else 0 in
    let rowmax := if origin_restricted t
                  then region_end (m_scrolling_region t) else m_row_count t - 1 in
    let rowval :=
      CLAMP (row (cursor (m_screen t)) - insert_delta (m_screen t) - origin) 0 rowmax in
    feed (VTE_CAP_CSI defs ++ string_of_Z (rowval + 1) ++ ";"
          ++ string_of_Z (CLAMP (col (cursor (m_screen t)) + 1) 1 (m_column_count t))
          ++ "R") t.
Proof.
  unfold DSR_ECMA, origin_restricted. cbn.
  destruct (truthy (m_origin_mode t) && m_scrolling_restricted t); reflexivity.
Qed.

(** Where the reply is right: with the cursor inside the active region
    the clamp changes nothing, and the row reported is the row counted
    from the region top, within the rows of the region. *)
Lemma DSR_ECMA_row_inside_region (r origin rowmax : Z) :
  0 <= origin -> origin <= r <= rowmax ->
  CLAMP (r - origin) 0 rowmax = r - origin
  /\ 1 <= CLAMP (r - origin) 0 rowmax + 1 <= rowmax - origin + 1.
Proof.
  intros Horigin Hr. unfold CLAMP.
  destruct (Z.gtb_spec (r - origin) rowmax); [lia|].
  destruct (Z.ltb_spec (r - origin) 0); lia.
Qed.

(** ** The number of a token *)

Section TokenNumber.
Import StringTokeniser.

Lemma substring_zero : forall n s, String.substring n 0 s = EmptyString.
Proof. induction n as [|n IH]; destruct s; cbn; auto. Qed.

Lemma substring_cons : forall k m s c,
  String.get k s = Some c ->
  String.substring k (S m) s = String c (String.substring (S k) m s).
Proof.
  induction k as [|k IH]; intros m [|a s] c Hget; cbn in Hget; try discriminate.
  - injection Hget as ->. reflexivity.
  - cbn [String.substring]. rewrite (IH m s c Hget). reflexivity.
Qed.

Lemma substring_length : forall k m s,
  (k + m <= String.length s)%nat -> String.length (String.substring k m s) = m.
Proof.
  induction k as [|k IH]; intros m s Hlen.
  - revert s Hlen. induction m as [|m IHm]; intros [|a s] Hlen; cbn in *;
      try reflexivity; try lia.
    rewrite IHm; [reflexivity | lia].
  - destruct s as [|a s]; cbn in *; [lia|]. apply IH. lia.
Qed.

Lemma get_in_range : forall k s,
  (k < String.length s)%nat -> exists c, String.get k s = Some c.
Proof.
  induction k as [|k IH]; intros [|a s] Hlen; cbn in *; try lia.
  - eexists. reflexivity.
  - apply IH. lia.
Qed.

Lemma number_loop_scan it s : forall n i v,
  0 <= i -> i + Z.of_nat n = s ->
  0 <= m_position it ->
  m_position it + s <= string_size (m_string it) ->
  string_size (m_string it) < npos ->
  number_loop it s n i v
  = number_scan (String.substring (Z.to_nat (m_position it + i)) n (m_string it)) v.
Proof.
  unfold string_size, npos.
  induction n as [|n IH]; intros i v Hi Hn Hpos Hlen Hnpos.
  - cbn [number_loop]. rewrite substring_zero. cbn [number_scan].
    replace (i =? s) with true by (symmetry; apply Z.eqb_eq; lia). reflexivity.
  - cbn [number_loop].
    destruct (get_in_range (Z.to_nat (m_position it + i)) (m_string it)) as [c Hc]; [lia|].
    rewrite (substring_cons _ _ _ _ Hc). cbn [number_scan].
    unfold string_at, usize. rewrite Z.mod_small by lia. rewrite Hc.
    destruct ((char_value c <? char_value "0") || (char_value c >? char_value "9"));
      [reflexivity|].
    destruct (v * 10 + (char_value c - char_value "0") >? 65535); [reflexivity|].
    rewrite IH by lia. do 2 f_equal. lia.
Qed.

Lemma nat_of_ascii_bound c : (nat_of_ascii c < 256)%nat.
Proof. apply nat_ascii_bounded. Qed.

Lemma digit_test c :
  (char_value c <? char_value "0") || (char_value c >? char_value "9")
  = negb (is_digit c).
Proof.
  pose proof (nat_of_ascii_bound c) as Hb. unfold is_digit, char_value.
  change (Z.of_nat (nat_of_ascii "0")) with 48.
  change (Z.of_nat (nat_of_ascii "9")) with 57. cbn [Z.ltb Z.compare Pos.compare Pos.compare_cont].
  change (if 48 <? 128 then 48 else 48 - 256) with 48.
  change (if 57 <? 128 then 57 else 57 - 256) with 57.
  destruct (Z.ltb_spec (Z.of_nat (nat_of_ascii c)) 128);
    destruct (Z.leb_spec 48 (Z.of_nat (nat_of_ascii c)));
    destruct (Z.leb_spec (Z.of_nat (nat_of_ascii c)) 57);
    cbn [andb negb];
    repeat match goal with
           | |- context [?a <? ?b] => destruct (Z.ltb_spec a b)
           | |- context [?a >? ?b] => destruct (Z.gtb_spec a b)
           end; cbn; try reflexivity; lia.
Qed.

Lemma digit_value c : is_digit c = true ->
  char_value c - char_value "0" = Z.of_nat (nat_of_ascii c) - 48.
Proof.
  unfold is_digit, char_value. intros H. apply andb_prop in H as [H1 H2].
  apply Z.leb_le in H1, H2.
  change (Z.of_nat (nat_of_ascii "0")) with 48.
  change (if 48 <? 128 then 48 else 48 - 256) with 48.
  destruct (Z.ltb_spec (Z.of_nat (nat_of_ascii c)) 128); lia.
Qed.

Lemma decimal_value_ge : forall s acc,
  all_digits s = true -> 0 <= acc -> acc <= decimal_value acc s.
Proof.
  induction s as [|c s IH]; intros acc Hd Hacc; cbn in *; [lia|].
  apply andb_prop in Hd as [Hc Hs].
  assert (Hc' := Hc). unfold is_digit in Hc'. apply andb_prop in Hc' as [H1 H2].
  apply Z.leb_le in H1, H2.
  specialize (IH (acc * 10 + (Z.of_nat (nat_of_ascii c) - 48)) Hs ltac:(lia)). lia.
Qed.

Lemma number_scan_not_digits : forall s v,
  all_digits s = false -> fst (number_scan s v) = false.
Proof.
  induction s as [|c s IH]; intros v Hd; cbn in Hd; [discriminate|].
  cbn [number_scan]. rewrite digit_test.
  destruct (is_digit c) eqn:Hc; cbn [negb andb] in *; [|reflexivity].
  destruct (_ >? 65535); [reflexivity|]. apply IH. exact Hd.
Qed.

Lemma number_scan_digits : forall s v,
  all_digits s = true -> 0 <= v <= 65535 ->
  (decimal_value v s <= 65535 -> number_scan s v = (true, decimal_value v s))
  /\ (decimal_value v s > 65535 -> fst (number_scan s v) = false).
Proof.
  induction s as [|c s IH]; intros v Hd Hv; cbn in Hd.
  - cbn. split; [reflexivity | lia].
  - apply andb_prop in Hd as [Hc Hs].
    cbn [number_scan decimal_value]. rewrite digit_test, Hc. cbn [negb].
    rewrite (digit_value c Hc).
    assert (Hc' := Hc). unfold is_digit in Hc'. apply andb_prop in Hc' as [H1 H2].
    apply Z.leb_le in H1, H2.
    set (v' := v * 10 + (Z.of_nat (nat_of_ascii c) - 48)) in *.
    pose proof (decimal_value_ge s v' Hs ltac:(lia)) as Hge.
    destruct (Z.gtb_spec v' 65535) as [Hbig|Hsmall].
    + split; [lia | reflexivity].
    + apply IH; [exact Hs | lia].
Qed.

Lemma valid_iterator_size it : valid_iterator it ->
  0 <= size it
  /\ m_position it + size it <= string_size (m_string it).
Proof.
  unfold valid_iterator, size, usize, npos. cbv zeta.
  intros (Hlen & Hpos & Hsep).
  destruct (Z.eqb_spec (m_next_separator it) (2 ^ 64 - 1)) as [Heq|Hne]; cbn [negb].
  - rewrite Z.mod_small by lia. lia.
  - destruct Hsep as [Hsep|Hsep]; [contradiction|].
    rewrite Z.mod_small by lia. lia.
Qed.

Lemma number_of_valid_iterator it : valid_iterator it ->
  (deref it = EmptyString -> number it = (true, -1))
  /\ (deref it <> EmptyString -> number it = number_scan (deref it) 0).
Proof.
  intros Hvalid. pose proof (valid_iterator_size it Hvalid) as [Hsize Hfit].
  destruct Hvalid as (Hlen & Hpos & _). cbv zeta in *.
  assert (Hderef : String.length (deref it) = Z.to_nat (size it)).
  { unfold deref, string_substr. apply substring_length.
    unfold string_size in *. lia. }
  unfold number. destruct (Z.eqb_spec (size it) 0) as [Hz|Hnz].
  - split; [reflexivity|]. intros Hne. exfalso. apply Hne.
    rewrite Hz in Hderef. destruct (deref it); [reflexivity | discriminate].
  - split.
    + intros He. rewrite He in Hderef. cbn in Hderef. lia.
    + intros _. rewrite (number_loop_scan it (size it)) by lia.
      unfold deref, string_substr. rewrite Z.add_0_r. reflexivity.
Qed.

Lemma find_from_range : forall s c skip idx,
  0 <= idx -> idx + Z.of_nat (String.length s) < npos ->
  find_from s c skip idx = npos
  \/ idx + Z.of_nat skip <= find_from s c skip idx < idx + Z.of_nat (String.length s).
Proof.
  induction s as [|a s IH]; intros c skip idx Hidx Hlen; cbn [find_from].
  - left. reflexivity.
  - cbn [String.length] in Hlen. destruct skip as [|k].
    + destruct (Ascii.eqb a c).
      * right. cbn [String.length]. lia.
      * destruct (IH c 0%nat (idx + 1)) as [H|H]; [lia | lia | left; exact H |].
        right. cbn [String.length]. lia.
    + destruct (IH c k (idx + 1)) as [H|H]; [lia | lia | left; exact H |].
      right. cbn [String.length]. lia.
Qed.

Lemma iterator_at_valid str sep pos :
  string_size str < npos -> 0 <= pos <= string_size str ->
  valid_iterator (iterator_at str sep pos).
Proof.
  intros Hlen Hpos. unfold valid_iterator, iterator_at. cbn.
  split; [exact Hlen|]. split; [exact Hpos|].
  unfold string_find, string_size in *.
  destruct (find_from_range str sep (Z.to_nat pos) 0) as [H|H]; [lia | lia | |].
  - left. exact H.
  - right. lia.
Qed.

Lemma tokens_from_valid : forall fuel it,
  valid_iterator it -> forall x, In x (tokens_from fuel it) -> valid_iterator x.
Proof.
  induction fuel as [|fuel IH]; intros it Hvalid x Hin; cbn [tokens_from] in Hin.
  - destruct Hin.
  - destruct (m_position it =? npos); [destruct Hin|].
    destruct Hin as [<-|Hin]; [exact Hvalid|].
    unfold incr in Hin.
    destruct (Z.eqb_spec (m_next_separator it) npos) as [Heq|Hne]; cbn [negb] in Hin.
    + destruct fuel; cbn in Hin; destruct Hin.
    + refine (IH _ _ x Hin). clear Hin.
      destruct Hvalid as (Hlen & Hpos & Hsep). cbv zeta in *.
      destruct Hsep as [Hsep|Hsep]; [contradiction|].
      unfold usize. assert (Hlen' := Hlen). unfold npos in Hlen'.
      rewrite Z.mod_small by lia.
      apply iterator_at_valid; [exact Hlen | lia].
Qed.

Lemma tokens_valid str sep it :
  string_size str < npos -> In it (tokens str sep) -> valid_iterator it.
Proof.
  intros Hlen. apply tokens_from_valid.
  apply iterator_at_valid; [exact Hlen|]. unfold string_size. lia.
Qed.

End TokenNumber.

(** C8.  For every token of a tokenised string: the empty token parses
    to -1; a token with a character that is not a digit fails; a token of
    digits whose value is at most 0xFFFF parses to that value; a token of
    digits whose value exceeds 0xFFFF fails. *)
Theorem number_of_token (str : string) (sep : ascii)
    (it : StringTokeniser.const_iterator)
    (Hlen : StringTokeniser.string_size str < npos)
    (Hit : In it (StringTokeniser.tokens str sep)) :
  let token := StringTokeniser.deref it in
  (token = EmptyString -> StringTokeniser.number it = (true, -1))
  /\ (all_digits token = false -> fst (StringTokeniser.number it) = false)
  /\ (token <> EmptyString -> all_digits token = true ->
      decimal_value 0 token <= 65535 ->
      StringTokeniser.number it = (true, decimal_value 0 token))
  /\ (all_digits token = true -> decimal_value 0 token > 65535 ->
      fst (StringTokeniser.number it) = false).
Proof.
  intros token.
  pose proof (tokens_valid str sep it Hlen Hit) as Hvalid.
  destruct (number_of_valid_iterator it Hvalid) as [Hempty Hscan]. fold token in Hempty, Hscan.
  split; [exact Hempty|].
  destruct token as [|c rest] eqn:Htoken.
  - repeat apply conj; cbn; intros; try discriminate; try contradiction; lia.
  - rewrite Hscan by discriminate. repeat apply conj.
    + apply number_scan_not_digits.
    + intros _ Hd Hle. apply (number_scan_digits _ 0 Hd); [lia | exact Hle].
    + intros Hd Hgt. apply (number_scan_digits _ 0 Hd); [lia | exact Hgt].
Qed.

Lemma number_of_token_witness :
  StringTokeniser.number
    (StringTokeniser.incr (StringTokeniser.cbegin "4;65535;x" ";"%char))
  = (true, 65535).
Proof.
  assert (Hin : In (StringTokeniser.incr (StringTokeniser.cbegin "4;65535;x" ";"%char))
                   (StringTokeniser.tokens "4;65535;x" ";"%char))
    by (right; left; reflexivity).
  destruct (number_of_token "4;65535;x" ";"%char _ ltac:(reflexivity) Hin)
    as (_ & _ & Hvalue & _).
  apply Hvalue; [discriminate | reflexivity | change (65535 <= 65535); lia].
Defined.

(** ** Hyperlink ids *)

Lemma cut_at_no_char c s : has_char c (cut_at c s) = false.
Proof.
  induction s as [|a s IH]; cbn; [reflexivity|].
  destruct (Ascii.eqb a c) eqn:E; cbn; [reflexivity|]. rewrite E. exact IH.
Qed.

Lemma explicit_id_no_colon defs hp id :
  hyperlink_explicit_id defs hp = Some id -> has_char ":" id = false.
Proof.
  unfold hyperlink_explicit_id.
  set (found := match hp with Some _ => _ | None => _ end).
  destruct found as [raw|]; cbn [option_map]; [|discriminate].
  destruct (strlen (cut_at ":" raw) >? VTE_HYPERLINK_ID_LENGTH_MAX defs);
    intros [= <-]; [reflexivity | apply cut_at_no_char].
Qed.

Lemma to_int_not_nil z : Z.to_int z <> Decimal.Pos Decimal.Nil
                         /\ Z.to_int z <> Decimal.Neg Decimal.Nil.
Proof.
  destruct z as [|p|p]; cbn; split; try discriminate;
    intros [= H]; exact (DecimalPos.Unsigned.to_uint_nonnil p H).
Qed.

Lemma string_of_Z_inj a b : string_of_Z a = string_of_Z b -> a = b.
Proof.
  unfold string_of_Z. intros H.
  destruct (to_int_not_nil a) as [Ha1 Ha2]. destruct (to_int_not_nil b) as [Hb1 Hb2].
  pose proof (NilZero.isi (Z.to_int a) Ha1 Ha2) as Ia.
  pose proof (NilZero.isi (Z.to_int b) Hb1 Hb2) as Ib.
  rewrite H in Ia. rewrite Ia in Ib. injection Ib as Ib.
  apply DecimalZ.to_int_inj. exact Ib.
Qed.

Lemma set_hyperlink_idx_of_auto_id h t :
  m_hyperlink_auto_id (set_hyperlink_idx_of h t) = m_hyperlink_auto_id t.
Proof.
  unfold set_hyperlink_idx_of.
  destruct (_vte_ring_get_hyperlink_idx (row_data (m_screen t)) h). reflexivity.
Qed.

Lemma hyperlink_id_counter id t :
  m_hyperlink_auto_id t <= m_hyperlink_auto_id (snd (hyperlink_id id t)).
Proof.
  unfold hyperlink_id, hyperlink_auto_id.
  destruct id as [[|c rest]|]; cbn; lia.
Qed.

Lemma set_current_hyperlink_counter defs hp uri t :
  m_hyperlink_auto_id t <= m_hyperlink_auto_id (set_current_hyperlink defs hp uri t).
Proof.
  unfold set_current_hyperlink.
  destruct (negb (m_allow_hyperlink t)); [lia|].
  set (u := match uri with Some _ => _ | None => _ end).
  destruct u as [[|c rest]|]; rewrite ?set_hyperlink_idx_of_auto_id; try lia.
  pose proof (hyperlink_id_counter (hyperlink_explicit_id defs hp) t) as Hc.
  destruct (hyperlink_id (hyperlink_explicit_id defs hp) t) as [i t'].
  rewrite set_hyperlink_idx_of_auto_id. exact Hc.
Qed.

Lemma OSC8_run_counter defs calls : forall t,
  m_hyperlink_auto_id t <= m_hyperlink_auto_id (OSC8_run defs calls t).
Proof.
  unfold OSC8_run. induction calls as [|call calls IH]; intros t; cbn [fold_left]; [lia|].
  pose proof (set_current_hyperlink_counter defs (fst call) (snd call) t).
  specialize (IH (set_current_hyperlink defs (fst call) (snd call) t)). lia.
Qed.

(** C10.  An explicit id never contains a colon.  Without an explicit id
    (none given, or an empty one) the id is a colon followed by the
    counter in decimal, and the counter goes up by one.  Hence an
    automatic id differs from every explicit id, and the automatic id of
    a hyperlink differs from that of any later one, whatever OSC 8
    sequences and URIs come in between. *)
Theorem hyperlink_ids_distinct (defs : Defines) :
  (forall hp id, hyperlink_explicit_id defs hp = Some id -> has_char ":" id = false)
  /\ (forall id t, id = None \/ id = Some EmptyString ->
        hyperlink_id id t
        = ((":" ++ string_of_Z (m_hyperlink_auto_id t))%string,
           set_hyperlink_auto_id (m_hyperlink_auto_id t + 1) t))
  /\ (forall hp id t, hyperlink_explicit_id defs hp = Some id ->
        fst (hyperlink_auto_id t) <> id)
  /\ (forall id1 id2 calls t,
        id1 = None \/ id1 = Some EmptyString ->
        id2 = None \/ id2 = Some EmptyString ->
        fst (hyperlink_id id2 (OSC8_run defs calls (snd (hyperlink_id id1 t))))
        <> fst (hyperlink_id id1 t)).
Proof.
  assert (Hauto : forall id t, id = None \/ id = Some EmptyString ->
            hyperlink_id id t
            = ((":" ++ string_of_Z (m_hyperlink_auto_id t))%string,
               set_hyperlink_auto_id (m_hyperlink_auto_id t + 1) t)).
  { intros id t [-> | ->]; reflexivity. }
  split; [exact (explicit_id_no_colon defs)|]. split; [exact Hauto|]. split.
  - intros hp id t Hid Heq. apply explicit_id_no_colon in Hid.
    rewrite <- Heq in Hid. cbn in Hid. discriminate.
  - intros id1 id2 calls t H1 H2.
    rewrite (Hauto id1 t H1). cbn [fst snd].
    rewrite (Hauto id2 _ H2). cbn [fst].
    pose proof (OSC8_run_counter defs calls
                  (set_hyperlink_auto_id (m_hyperlink_auto_id t + 1) t)) as Hc.
    cbn [m_hyperlink_auto_id set_hyperlink_auto_id] in Hc.
    intros Heq. cbn in Heq. injection Heq as Heq.
    apply string_of_Z_inj in Heq. lia.
Qed.

Lemma hyperlink_ids_distinct_witness :
  has_char ":" "abc" = false
  /\ ring_hyperlinks
       (row_data (m_screen
          (set_current_hyperlink upstream_defines None (Some "http://x"%string)
             (set_current_hyperlink upstream_defines (Some "id=abc:k=v"%string)
                (Some "http://x"%string)
                (set_current_hyperlink upstream_defines None (Some "http://x"%string)
                   (power_on 24 80))))))
     = [":0;http://x"; "abc;http://x"; ":1;http://x"]%string.
Proof.
  destruct (hyperlink_ids_distinct upstream_defines) as (Hcolon & _).
  split; [|reflexivity].
  apply (Hcolon (Some "id=abc:k=v"%string)). reflexivity.
Defined.

(** ** DECSET, the save path *)

Section DecsetSave.
Context (defs : Defines)
        (external_handler : decset_handler_t -> VteTerminalPrivate -> VteTerminalPrivate).

Lemma get_member_set_screen o s t : get_member o (set_screen s t) = get_member o t.
Proof. destruct o; reflexivity. Qed.

Lemma get_member_set_effects o l t : get_member o (set_effects l t) = get_member o t.
Proof. destruct o; reflexivity. Qed.

Lemma get_member_set_text_deleted_flag o b t :
  get_member o (set_text_deleted_flag b t) = get_member o t.
Proof. destruct o; reflexivity. Qed.

Lemma get_member_set_dec_saved o m t : get_member o (set_dec_saved m t) = get_member o t.
Proof. destruct o; reflexivity. Qed.

Lemma get_member_home_cursor o t : get_member o (home_cursor t) = get_member o t.
Proof.
  unfold home_cursor, set_cursor_coords, set_cursor_row, set_cursor_column, set_cursor.
  destruct (truthy _ && _); rewrite !get_member_set_screen; reflexivity.
Qed.

Lemma get_member_ring_appends o n t :
  get_member o (Nat.iter n ring_append t) = get_member o t.
Proof.
  induction n as [|n IH]; [reflexivity|].
  rewrite Nat.iter_succ. unfold ring_append at 1, set_row_data.
  rewrite get_member_set_screen. exact IH.
Qed.

Lemma get_member_clear_screen o t : get_member o (clear_screen t) = get_member o t.
Proof.
  unfold clear_screen, do_effect, set_cursor, set_insert_delta. cbv zeta.
  rewrite get_member_set_text_deleted_flag, !get_member_set_effects,
    !get_member_set_screen.
  apply get_member_ring_appends.
Qed.

Lemma get_member_decset_switch o setting set t :
  get_member o (decset_switch setting set t) = get_member o t.
Proof.
  unfold decset_switch, do_effect.
  repeat match goal with
         | |- context [if ?c then _ else _] => destruct c
         end;
    rewrite ?get_member_home_cursor, ?get_member_set_effects,
      ?get_member_clear_screen, ?get_member_set_effects;
    reflexivity.
Qed.

Lemma m_dec_saved_home_cursor t : m_dec_saved (home_cursor t) = m_dec_saved t.
Proof.
  unfold home_cursor, set_cursor_coords, set_cursor_row, set_cursor_column, set_cursor.
  destruct (truthy _ && _); reflexivity.
Qed.

Lemma m_dec_saved_ring_appends n t :
  m_dec_saved (Nat.iter n ring_append t) = m_dec_saved t.
Proof.
  induction n as [|n IH]; [reflexivity|]. rewrite Nat.iter_succ. exact IH.
Qed.

Lemma m_dec_saved_clear_screen t : m_dec_saved (clear_screen t) = m_dec_saved t.
Proof. unfold clear_screen. cbn. apply m_dec_saved_ring_appends. Qed.

Lemma m_dec_saved_do_effect e t : m_dec_saved (do_effect e t) = m_dec_saved t.
Proof. reflexivity. Qed.

Lemma m_dec_saved_decset_switch setting set t :
  m_dec_saved (decset_switch setting set t) = m_dec_saved t.
Proof.
  unfold decset_switch.
  repeat match goal with
         | |- context [if ?c then _ else _] => destruct c
         end;
    repeat first [ rewrite m_dec_saved_home_cursor
                 | rewrite m_dec_saved_clear_screen
                 | rewrite m_dec_saved_do_effect ];
    reflexivity.
Qed.

End DecsetSave.

Ltac in_list := repeat first [left; reflexivity | right].

Lemma decset_ignored_hooked (key : decset_t) (h : decset_handler_t) :
  set_hook key = Some h -> decset_ignored key = false.
Proof.
  intros Hh. unfold decset_ignored. rewrite Hh.
  rewrite (bool_decide_eq_true_2 (is_Some (Some h))) by eauto.
  cbn [negb]. rewrite andb_false_r. reflexivity.
Qed.

Section DecsetSaveWhole.
Context (defs : Defines).



End DecsetSaveWhole.





(** * Further properties *)

(** ** Blocks and sub-parameters *)

(** X1.  For an index inside the list, [next] returns the index right
    after the first final parameter at or after it: the parameter before
    the result is final (or lies past the end, when the list ends in a
    sub-parameter), every parameter from [idx] up to that one is a
    sub-parameter, and the result exceeds [size()] only when the last
    parameter is not final. *)
Theorem next_is_end_of_block (seq : vte_seq) (idx : Z)
    (Hwf : wf seq) (Hidx : 0 <= idx < size seq) :
  idx < next seq idx <= size seq + 1
  /\ param_nonfinal seq (next seq idx - 1) = false
  /\ (forall k, idx <= k < next seq idx - 1 -> param_nonfinal seq k = true)
  /\ (param_nonfinal seq (size seq - 1) = false -> next seq idx <= size seq).
Proof.
  pose proof (wf_size _ Hwf) as Hsz.
  destruct (next_spec seq idx Hwf) as (j & _ & Hn & Hle & Hmax & Hstop & Hrun); [lia|].
  rewrite Hn. rewrite u32_small by lia.
  replace (j + 1 - 1) with j by lia.
  repeat apply conj; try lia; try assumption.
  intros Hlast. destruct (Z.eq_dec j (size seq)) as [->|Hne]; [|lia].
  rewrite Hrun in Hlast by lia. discriminate.
Qed.

Lemma next_is_end_of_block_witness :
  next sgr_colon_default_colorspace 1 = 6
  /\ param_nonfinal sgr_colon_default_colorspace 5 = false.
Proof.
  destruct (next_is_end_of_block sgr_colon_default_colorspace 1
              wf_sgr_colon_default_colorspace) as (_ & Hfinal & _).
  - unfold size. cbn. lia.
  - split; [reflexivity | exact Hfinal].
Defined.

Lemma collect_subparams_loop_spec seq d : forall n s,
  0 <= s -> s + Z.of_nat n < 2 ^ 32 ->
  snd (collect_subparams_loop seq s n d) = s + Z.of_nat n
  /\ length (fst (collect_subparams_loop seq s n d)) = n
  /\ forall k, (k < n)%nat ->
       nth k (fst (collect_subparams_loop seq s n d)) d = param seq (s + Z.of_nat k) d.
Proof.
  induction n as [|n IH]; intros s Hs Hn; cbn [collect_subparams_loop].
  - cbn. repeat apply conj; lia.
  - rewrite u32_small by lia.
    specialize (IH (s + 1) ltac:(lia) ltac:(lia)).
    destruct (collect_subparams_loop seq (s + 1) n d) as [vs idx].
    cbn [fst snd] in *. destruct IH as (Hidx & Hlen & Hnth).
    repeat apply conj.
    + lia.
    + cbn. lia.
    + intros [|k] Hk; cbn [nth].
      * f_equal. lia.
      * rewrite Hnth by lia. f_equal. lia.
Qed.

(** X2.  [collect_subparams] writes to the k-th slot the value of the
    k-th parameter counted from [start_idx] (the default for a default
    or out-of-range one), and returns true exactly when the slots do not
    reach past the block that starts at [start_idx]: every parameter
    read but the last one is followed by a sub-parameter. *)
Theorem collect_subparams_within_block (seq : vte_seq) (s : Z) (N : nat) (d : Z)
    (Hwf : wf seq) (Hs : 0 <= s) (Hrange : s + Z.of_nat N < UINT_MAX) :
  length (snd (collect_subparams seq s N d)) = N
  /\ (forall k, (k < N)%nat ->
        nth k (snd (collect_subparams seq s N d)) d = param seq (s + Z.of_nat k) d)
  /\ (fst (collect_subparams seq s N d) = true <->
      forall k, (S k < N)%nat -> param_nonfinal seq (s + Z.of_nat k) = true).
Proof.
  unfold UINT_MAX in Hrange. pose proof (wf_size _ Hwf) as Hsz.
  unfold collect_subparams.
  pose proof (collect_subparams_loop_spec seq d N s Hs ltac:(lia)) as Hloop.
  destruct (collect_subparams_loop seq s N d) as [vs idx]. cbn [fst snd] in *.
  destruct Hloop as (Hidx & Hlen & Hnth).
  split; [exact Hlen|]. split; [exact Hnth|].
  subst idx. rewrite Z.leb_le.
  destruct (next_spec seq s Hwf) as (j & _ & Hn & Hle & Hmax & Hstop & Hrun); [lia|].
  rewrite Hn. rewrite u32_small by lia. split.
  - intros Hfit k Hk. apply Hrun. lia.
  - intros Hsub. destruct (Z_lt_le_dec j (s + Z.of_nat N - 1)) as [Hlt|Hge]; [|lia].
    specialize (Hsub (Z.to_nat (j - s)) ltac:(lia)).
    rewrite Z2Nat.id in Hsub by lia. replace (s + (j - s)) with j in Hsub by lia.
    rewrite Hsub in Hstop. discriminate.
Qed.

Lemma collect_subparams_within_block_witness :
  collect_subparams sgr_colon 2 3 (-1) = (true, [10; 20; 30])
  /\ fst (collect_subparams sgr_semicolon 2 3 (-1)) = false.
Proof.
  assert (Hwf : wf sgr_semicolon) by (unfold wf, VTE_PARSER_ARG_MAX; cbn; lia).
  destruct (collect_subparams_within_block sgr_semicolon 2 3 (-1) Hwf
              ltac:(lia) ltac:(unfold UINT_MAX; cbn; lia)) as (_ & _ & Hflag).
  split; [reflexivity|].
  destruct (fst (collect_subparams sgr_semicolon 2 3 (-1))) eqn:E; [|reflexivity].
  specialize (proj1 Hflag eq_refl 0%nat ltac:(lia)) as Hfalse. discriminate Hfalse.
Defined.

(** ** Tokens *)

Section TokenSplit.
Import StringTokeniser.

Lemma find_from_find_char : forall s c skip idx,
  find_from s c skip idx
  = match find_char c (str_drop skip s) with
    | Some k => idx + Z.of_nat skip + Z.of_nat k
    | None => npos
    end.
Proof.
  induction s as [|a s IH]; intros c skip idx.
  - destruct skip; reflexivity.
  - destruct skip as [|skip]; cbn [find_from str_drop find_char].
    + destruct (Ascii.eqb a c); [lia|].
      rewrite IH. cbn [str_drop].
      destruct (find_char c s); cbn [option_map]; lia.
    + rewrite IH. destruct (find_char c (str_drop skip s)); lia.
Qed.

Lemma substring_take_drop : forall p k s,
  String.substring p k s = str_take k (str_drop p s).
Proof.
  induction p as [|p IH]; intros k s.
  - cbn [str_drop]. revert s. induction k as [|k IHk]; intros [|a s]; cbn;
      try reflexivity. rewrite IHk. reflexivity.
  - destruct s as [|a s]; cbn [String.substring str_drop].
    + destruct k; reflexivity.
    + apply IH.
Qed.

Lemma str_take_all : forall s, str_take (String.length s) s = s.
Proof. induction s as [|a s IH]; cbn; [reflexivity|]. rewrite IH. reflexivity. Qed.

Lemma str_drop_length : forall p s,
  (p <= String.length s)%nat -> String.length (str_drop p s) = (String.length s - p)%nat.
Proof.
  induction p as [|p IH]; intros [|a s] Hp; cbn in *; try lia. apply IH. lia.
Qed.

Lemma str_drop_drop : forall p k s, str_drop k (str_drop p s) = str_drop (p + k) s.
Proof.
  induction p as [|p IH]; intros k s; [reflexivity|].
  destruct s as [|a s]; cbn [str_drop Nat.add].
  - destruct k; reflexivity.
  - apply IH.
Qed.

Lemma find_char_lt : forall c s k, find_char c s = Some k -> (k < String.length s)%nat.
Proof.
  induction s as [|a s IH]; intros k Hk; cbn in *; [discriminate|].
  destruct (Ascii.eqb a c); [injection Hk as <-; lia|].
  destruct (find_char c s) as [k'|]; cbn in Hk; [|discriminate].
  injection Hk as <-. specialize (IH k' eq_refl). lia.
Qed.

Lemma split_string_find : forall sep s,
  split_string sep s
  = match find_char sep s with
    | Some k => str_take k s :: split_string sep (str_drop (S k) s)
    | None => [s]
    end.
Proof.
  induction s as [|a s IH]; [reflexivity|].
  cbn [split_string find_char]. destruct (Ascii.eqb a sep); [reflexivity|].
  rewrite IH. destruct (find_char sep s) as [k|]; reflexivity.
Qed.

Lemma next_separator_iterator_at str sep p :
  m_next_separator (iterator_at str sep (Z.of_nat p))
  = match find_char sep (str_drop p str) with
    | Some k => Z.of_nat p + Z.of_nat k
    | None => npos
    end.
Proof.
  unfold iterator_at, string_find. cbn [m_next_separator].
  rewrite find_from_find_char, Nat2Z.id.
  destruct (find_char sep (str_drop p str)); lia.
Qed.

Lemma deref_iterator_at str sep p :
  string_size str < npos -> (p <= String.length str)%nat ->
  deref (iterator_at str sep (Z.of_nat p))
  = match find_char sep (str_drop p str) with
    | Some k => str_take k (str_drop p str)
    | None => str_drop p str
    end.
Proof.
  unfold string_size, npos. intros Hlen Hp.
  pose proof (find_char_lt sep (str_drop p str)) as Hk.
  rewrite str_drop_length in Hk by exact Hp.
  unfold deref, size, string_substr. rewrite next_separator_iterator_at.
  cbn [m_string m_position iterator_at].
  rewrite Nat2Z.id, substring_take_drop.
  destruct (find_char sep (str_drop p str)) as [k|].
  - specialize (Hk k eq_refl).
    destruct (Z.eqb_spec (Z.of_nat p + Z.of_nat k) npos) as [Heq|_];
      [unfold npos in Heq; lia|]. cbn [negb].
    unfold usize. rewrite Z.mod_small by lia.
    replace (Z.to_nat (Z.of_nat p + Z.of_nat k - Z.of_nat p)) with k by lia.
    reflexivity.
  - rewrite Z.eqb_refl. cbn [negb]. unfold usize, string_size.
    rewrite Z.mod_small by lia.
    replace (Z.to_nat (Z.of_nat (String.length str) - Z.of_nat p))
      with (String.length (str_drop p str)) by (rewrite str_drop_length; lia).
    apply str_take_all.
Qed.

Lemma incr_iterator_at str sep p :
  string_size str < npos -> (p <= String.length str)%nat ->
  match find_char sep (str_drop p str) with
  | Some k => incr (iterator_at str sep (Z.of_nat p))
              = iterator_at str sep (Z.of_nat (p + S k))
  | None => m_position (incr (iterator_at str sep (Z.of_nat p))) = npos
  end.
Proof.
  unfold string_size, npos. intros Hlen Hp.
  pose proof (find_char_lt sep (str_drop p str)) as Hk.
  rewrite str_drop_length in Hk by exact Hp.
  unfold incr. rewrite next_separator_iterator_at.
  destruct (find_char sep (str_drop p str)) as [k|].
  - specialize (Hk k eq_refl).
    destruct (Z.eqb_spec (Z.of_nat p + Z.of_nat k) npos) as [Heq|_];
      [unfold npos in Heq; lia|]. cbn [negb].
    unfold usize. rewrite Z.mod_small by lia.
    replace (Z.of_nat p + Z.of_nat k + 1) with (Z.of_nat (p + S k)) by lia.
    reflexivity.
  - rewrite Z.eqb_refl. reflexivity.
Qed.

Lemma tokens_from_split str sep (Hlen : string_size str < npos) :
  forall fuel p,
    (p <= String.length str)%nat -> (String.length str - p < fuel)%nat ->
    map deref (tokens_from fuel (iterator_at str sep (Z.of_nat p)))
    = split_string sep (str_drop p str).
Proof.
  induction fuel as [|fuel IH]; intros p Hp Hfuel; [lia|].
  cbn [tokens_from].
  change (m_position (iterator_at str sep (Z.of_nat p))) with (Z.of_nat p).
  destruct (Z.eqb_spec (Z.of_nat p) npos) as [Heq|_];
    [unfold string_size, npos in *; lia|].
  cbn [map]. rewrite split_string_find, deref_iterator_at by assumption.
  pose proof (incr_iterator_at str sep p Hlen Hp) as Hincr.
  pose proof (find_char_lt sep (str_drop p str)) as Hk.
  rewrite str_drop_length in Hk by exact Hp.
  destruct (find_char sep (str_drop p str)) as [k|].
  - specialize (Hk k eq_refl). rewrite Hincr. f_equal.
    rewrite IH by lia. rewrite str_drop_drop. reflexivity.
  - f_equal. destruct fuel; cbn [tokens_from map]; [reflexivity|].
    rewrite Hincr, Z.eqb_refl. reflexivity.
Qed.

Lemma tokens_split str sep :
  string_size str < npos -> token_strings str sep = split_string sep str.
Proof.
  intros Hlen. unfold token_strings, tokens, cbegin.
  apply (tokens_from_split str sep Hlen (S (String.length str)) 0); lia.
Qed.

Lemma split_string_nonempty sep s : split_string sep s <> [].
Proof.
  destruct s as [|a s]; cbn; [discriminate|].
  destruct (Ascii.eqb a sep); [discriminate|].
  destruct (split_string sep s); discriminate.
Qed.

Lemma split_string_concat sep : forall s,
  String.concat (String sep EmptyString) (split_string sep s) = s.
Proof.
  induction s as [|a s IH]; [reflexivity|].
  pose proof (split_string_nonempty sep s) as Hne.
  cbn [split_string]. destruct (Ascii.eqb_spec a sep) as [->|Ha].
  - destruct (split_string sep s) as [|t ts]; [contradiction|].
    rewrite <- IH. reflexivity.
  - destruct (split_string sep s) as [|t ts]; [contradiction|].
    rewrite <- IH. destruct ts; reflexivity.
Qed.

Lemma split_string_length sep : forall s,
  length (split_string sep s) = S (count_char sep s).
Proof.
  induction s as [|a s IH]; [reflexivity|].
  cbn [split_string count_char]. destruct (Ascii.eqb a sep); cbn [length].
  - rewrite IH. reflexivity.
  - destruct (split_string sep s) as [|t ts]; cbn in *; lia.
Qed.

Lemma split_string_no_separator sep : forall s token,
  In token (split_string sep s) -> has_char sep token = false.
Proof.
  induction s as [|a s IH]; intros token Hin; cbn [split_string] in Hin.
  - destruct Hin as [<-|[]]. reflexivity.
  - destruct (Ascii.eqb a sep) eqn:Ea.
    + destruct Hin as [<-|Hin]; [reflexivity | apply IH; exact Hin].
    + destruct (split_string sep s) as [|t ts].
      * destruct Hin as [<-|[]]. cbn. rewrite Ea. reflexivity.
      * destruct Hin as [<-|Hin].
        -- cbn. rewrite Ea. apply IH. left. reflexivity.
        -- apply IH. right. exact Hin.
Qed.

End TokenSplit.

(** X3.  Joining the tokens of a string with the separator gives the
    string back. *)
Theorem tokens_join_round_trip (str : string) (sep : ascii)
    (Hlen : StringTokeniser.string_size str < npos) :
  String.concat (String sep EmptyString) (token_strings str sep) = str.
Proof. rewrite tokens_split by exact Hlen. apply split_string_concat. Qed.

Lemma tokens_join_round_trip_witness :
  String.concat ";" (token_strings "4;;rgb:1/2/3;" ";"%char) = "4;;rgb:1/2/3;"%string.
Proof. apply (tokens_join_round_trip "4;;rgb:1/2/3;" ";"%char). reflexivity. Defined.

(** X4.  A string has one token more than it has separators: the empty
    string has one (empty) token, and consecutive or trailing separators
    give empty tokens.  No token contains the separator. *)
Theorem tokens_count_and_content (str : string) (sep : ascii)
    (Hlen : StringTokeniser.string_size str < npos) :
  length (StringTokeniser.tokens str sep) = S (count_char sep str)
  /\ forall token, In token (token_strings str sep) -> has_char sep token = false.
Proof.
  split.
  - rewrite <- (length_map StringTokeniser.deref).
    change (map StringTokeniser.deref (StringTokeniser.tokens str sep))
      with (token_strings str sep).
    rewrite tokens_split by exact Hlen. apply split_string_length.
  - rewrite tokens_split by exact Hlen. apply split_string_no_separator.
Qed.

Lemma tokens_count_and_content_witness :
  length (StringTokeniser.tokens EmptyString ";"%char) = 1%nat
  /\ length (StringTokeniser.tokens "a;;b;" ";"%char) = 4%nat.
Proof.
  split.
  - apply (tokens_count_and_content EmptyString ";"%char). reflexivity.
  - apply (tokens_count_and_content "a;;b;" ";"%char). reflexivity.
Defined.

Lemma number_scan_nonneg : forall s v, 0 <= v -> 0 <= snd (number_scan s v).
Proof.
  induction s as [|c s IH]; intros v Hv; cbn [number_scan]; [exact Hv|].
  rewrite digit_test. destruct (is_digit c) eqn:Hc; cbn [negb]; [|exact Hv].
  rewrite (digit_value c Hc).
  unfold is_digit in Hc. apply andb_prop in Hc as [H1 H2]. apply Z.leb_le in H1, H2.
  destruct (_ >? 65535); cbn [snd]; [lia|]. apply IH. lia.
Qed.

Lemma number_scan_stops_at_non_digit : forall digits c rest v,
  all_digits digits = true -> is_digit c = false ->
  0 <= v <= 65535 -> decimal_value v digits <= 65535 ->
  number_scan (digits ++ String c rest) v = (false, decimal_value v digits).
Proof.
  induction digits as [|a digits IH]; intros c rest v Hd Hc Hv Hle.
  - change (number_scan (String c rest) v = (false, v)).
    cbn [number_scan]. rewrite digit_test, Hc. reflexivity.
  - cbn in Hd. apply andb_prop in Hd as [Ha Hd].
    change (number_scan (String a (digits ++ String c rest)) v
            = (false, decimal_value v (String a digits))).
    cbn [number_scan decimal_value] in *.
    rewrite digit_test, Ha. cbn [negb]. rewrite (digit_value a Ha).
    assert (Ha' := Ha). unfold is_digit in Ha'. apply andb_prop in Ha' as [H1 H2].
    apply Z.leb_le in H1, H2.
    set (v' := v * 10 + (Z.of_nat (nat_of_ascii a) - 48)) in *.
    pose proof (decimal_value_ge digits v' Hd ltac:(lia)) as Hge.
    destruct (Z.gtb_spec v' 65535); [lia|].
    apply IH; try assumption; lia.
Qed.

(** X5.  When [number] fails, the value it leaves behind is not -1 (as
    the comment above it says) but what the loop had accumulated: for a
    token made of digits followed by a character that is not a digit, the
    value of those digits; in every failing case a value of 0 or more. *)
Theorem number_failure_leaves_partial_value (str : string) (sep : ascii)
    (it : StringTokeniser.const_iterator)
    (Hlen : StringTokeniser.string_size str < npos)
    (Hit : In it (StringTokeniser.tokens str sep)) :
  (fst (StringTokeniser.number it) = false -> 0 <= snd (StringTokeniser.number it))
  /\ (forall digits c rest,
        StringTokeniser.deref it = (digits ++ String c rest)%string ->
        all_digits digits = true -> is_digit c = false ->
        decimal_value 0 digits <= 65535 ->
        StringTokeniser.number it = (false, decimal_value 0 digits)).
Proof.
  pose proof (tokens_valid str sep it Hlen Hit) as Hvalid.
  destruct (number_of_valid_iterator it Hvalid) as [Hempty Hscan].
  split.
  - destruct (StringTokeniser.deref it) as [|c rest] eqn:Htoken.
    + rewrite Hempty by reflexivity. discriminate.
    + rewrite Hscan by discriminate. intros _. apply number_scan_nonneg. lia.
  - intros digits c rest Htoken Hd Hc Hle.
    rewrite Hscan by (rewrite Htoken; destruct digits; discriminate).
    rewrite Htoken. apply number_scan_stops_at_non_digit; try assumption; lia.
Qed.

Lemma number_failure_leaves_partial_value_witness :
  StringTokeniser.number (StringTokeniser.cbegin "12a;7" ";"%char) = (false, 12).
Proof.
  assert (Hin : In (StringTokeniser.cbegin "12a;7" ";"%char)
                   (StringTokeniser.tokens "12a;7" ";"%char))
    by (left; reflexivity).
  destruct (number_failure_leaves_partial_value "12a;7" ";"%char _
              ltac:(reflexivity) Hin) as [_ Hpartial].
  apply (Hpartial "12"%string "a"%char EmptyString);
    [reflexivity | reflexivity | reflexivity | change (12 <= 65535); lia].
Defined.

(** ** Cursor motion *)

Lemma collect1_clamped_collect1 (seq : vte_seq) (i d lo hi : Z) :
  collect1_clamped seq i d lo hi = std_min (std_max (collect1 seq i d) lo) hi.
Proof. reflexivity. Qed.

Ltac split_ifs :=
  repeat (match goal with
          | |- context [if ?c then _ else _] =>
              lazymatch c with
              | context [if _ then _ else _] => fail
              | _ => let E := fresh "E" in destruct c eqn:E
              end
          end; cbn in *).

Ltac unfold_handlers :=
  unfold BS, CHA, CNL, CPL, CR, CUB, CUD, CUF, CUU, HPA, HVP, VPA, CUP in *;
  rewrite ?collect1_clamped_collect1 in *.

Ltac unfold_motion :=
  unfold move_cursor_down, move_cursor_up, move_cursor_backward,
    move_cursor_forward, set_cursor_coords1, set_cursor_row1,
    set_cursor_column1, set_cursor_row, set_cursor_column,
    ensure_cursor_is_onscreen, get_cursor_column, set_cursor,
    MIN, MAX, CLAMP, std_min, std_max in *.

Ltac destruct_state t :=
  destruct t;
  match goal with s : VteScreen |- _ => destruct s as [? [? ?] ?] end;
  match goal with r : vte_scrolling_region |- _ => destruct r as [? ?] end;
  cbn in *.

Lemma motion_handlers_grid
    (h : vte_seq -> VteTerminalPrivate -> VteTerminalPrivate)
    (seq : vte_seq) (t : VteTerminalPrivate)
    (Hh : In h cursor_motion_handlers)
    (HR : 1 <= m_row_count t) (HC : 1 <= m_column_count t)
    (Hregion : m_scrolling_restricted t = true -> region_in_grid t)
    (Hcursor : cursor_on_screen t) :
  h seq t = set_cursor (cursor (m_screen (h seq t))) t
  /\ cursor_in_grid (h seq t).
Proof.
  unfold cursor_on_screen, cursor_in_grid, region_in_grid in *.
  unfold cursor_motion_handlers in Hh. cbn [In] in Hh.
  repeat (destruct Hh as [<- | Hh]); [..| destruct Hh];
    unfold_handlers;
    generalize (collect1 seq 0 1) (collect1 seq (next seq 0) 1);
    intros v1 v2;
    unfold_motion;
    (destruct (m_scrolling_restricted t) eqn:Hres;
     [specialize (Hregion eq_refl) | clear Hregion]);
    destruct_state t; subst;
    split_ifs;
    (split; [reflexivity | lia]).
Qed.

(** X6.  Each of the cursor motion handlers (BS, CHA, CNL, CPL, CR, CUB,
    CUD, CUF, CUU, CUP, HPA, HVP, VPA) changes nothing but the cursor, and
    from a cursor on a row of the screen it leaves the cursor on the
    grid, whatever the parameters are; a cursor left in the pending-wrap
    column is brought back onto the grid. *)
Theorem cursor_motion_stays_on_grid
    (h : vte_seq -> VteTerminalPrivate -> VteTerminalPrivate)
    (seq : vte_seq) (t : VteTerminalPrivate)
    (Hh : In h cursor_motion_handlers)
    (HR : 1 <= m_row_count t) (HC : 1 <= m_column_count t)
    (Hregion : m_scrolling_restricted t = true -> region_in_grid t)
    (Hcursor : cursor_on_screen t) :
  h seq t = set_cursor (cursor (m_screen (h seq t))) t
  /\ cursor_in_grid (h seq t).
Proof. exact (motion_handlers_grid h seq t Hh HR HC Hregion Hcursor). Qed.

Lemma cursor_motion_stays_on_grid_witness :
  cursor_in_grid (CUD (mk_seq [fin 9999]) (restricted_state 5 10 7 200 (power_on 24 80))).
Proof.
  apply (cursor_motion_stays_on_grid CUD (mk_seq [fin 9999])
           (restricted_state 5 10 7 200 (power_on 24 80))).
  - do 6 right. left. reflexivity.
  - change (1 <= 24). lia.
  - change (1 <= 80). lia.
  - intros _. unfold region_in_grid. cbn. lia.
  - unfold cursor_on_screen. cbn. lia.
Defined.

(** X7.  While the scrolling region is restricted, CUU, CUD, CNL and CPL
    keep a cursor that is on a row of the region on a row of the region,
    whatever the count is and whether origin mode is on or not. *)
Theorem vertical_motion_stays_in_region
    (h : vte_seq -> VteTerminalPrivate -> VteTerminalPrivate)
    (seq : vte_seq) (t : VteTerminalPrivate)
    (Hh : In h vertical_motion_handlers)
    (HR : 1 <= m_row_count t)
    (Hrestricted : m_scrolling_restricted t = true)
    (Hregion : region_in_grid t)
    (Hcursor : cursor_in_region t) :
  cursor_in_region (h seq t).
Proof.
  unfold cursor_in_region, region_in_grid in *.
  unfold vertical_motion_handlers in Hh. cbn [In] in Hh.
  repeat (destruct Hh as [<- | Hh]); [..| destruct Hh];
    unfold_handlers;
    generalize (collect1 seq 0 1); intros v1;
    unfold_motion; destruct_state t; subst;
    split_ifs; lia.
Qed.

Lemma vertical_motion_stays_in_region_witness :
  cursor_in_region (CUU (mk_seq [fin 9999]) (restricted_state 5 10 7 3 (power_on 24 80))).
Proof.
  apply (vertical_motion_stays_in_region CUU (mk_seq [fin 9999])
           (restricted_state 5 10 7 3 (power_on 24 80))).
  - left. reflexivity.
  - change (1 <= 24). lia.
  - reflexivity.
  - unfold region_in_grid. cbn. lia.
  - unfold cursor_in_region. cbn. lia.
Defined.

(** X8.  Where the relative motions stop.  With [n] the first parameter
    (1 when absent or default), CUF moves to column
    [min (columns - 1) (col + max 1 n)], CUB to column
    [max 0 (min col (columns - 1) - max 1 n)], CUD to row
    [min (row + max 1 (min n rows)) bottom] and CUU to row
    [max (row - max 1 (min n rows)) top], where [top] and [bottom] are
    the ends of the scrolling region when it is restricted and of the
    screen otherwise; so a count of 0 moves by one, and CUD from below
    the region moves the cursor up to the end of the region. *)
Theorem relative_motion_targets (seq : vte_seq) (t : VteTerminalPrivate)
    (HR : 1 <= m_row_count t) (HC : 1 <= m_column_count t)
    (Hcol : 0 <= col (cursor (m_screen t))) :
  let n := collect1 seq 0 1 in
  col (cursor (m_screen (CUF seq t)))
  = Z.min (m_column_count t - 1) (col (cursor (m_screen t)) + Z.max 1 n)
  /\ col (cursor (m_screen (CUB seq t)))
     = Z.max 0 (Z.min (col (cursor (m_screen t))) (m_column_count t - 1) - Z.max 1 n)
  /\ row (cursor (m_screen (CUD seq t)))
     = Z.min (row (cursor (m_screen t)) + Z.max 1 (Z.min n (m_row_count t)))
             (bottom_limit t)
  /\ row (cursor (m_screen (CUU seq t)))
     = Z.max (row (cursor (m_screen t)) - Z.max 1 (Z.min n (m_row_count t)))
             (top_limit t).
Proof.
  intros n. subst n. unfold top_limit, bottom_limit.
  unfold_handlers. generalize (collect1 seq 0 1). intros n.
  unfold_motion. destruct_state t.
  repeat apply conj; split_ifs; lia.
Qed.

Lemma relative_motion_targets_witness :
  row (cursor (m_screen (CUD (mk_seq [fin 1])
                           (restricted_state 5 10 20 3 (power_on 24 80))))) = 10
  /\ col (cursor (m_screen (CUF (mk_seq [fin 0])
                              (restricted_state 5 10 20 3 (power_on 24 80))))) = 4.
Proof.
  destruct (relative_motion_targets (mk_seq [fin 1])
              (restricted_state 5 10 20 3 (power_on 24 80)))
    as (_ & _ & Hd & _);
    [change (1 <= 24); lia | change (1 <= 80); lia | change (0 <= 3); lia |].
  destruct (relative_motion_targets (mk_seq [fin 0])
              (restricted_state 5 10 20 3 (power_on 24 80)))
    as (Hf & _);
    [change (1 <= 24); lia | change (1 <= 80); lia | change (0 <= 3); lia |].
  split; [rewrite Hd | rewrite Hf]; reflexivity.
Defined.

Ltac same_cursor :=
  lazymatch goal with
  | |- ?L = ?R =>
      match L with
      | context [mk_position ?A ?B] =>
          match R with
          | context [mk_position ?a ?b] =>
              try (replace A with a by lia); try (replace B with b by lia)
          end
      end
  end; reflexivity.

(** X9.  Relative motions undo each other where there is room: from a
    cursor on the grid, CUB by [n >= 1] followed by CUF by [n] restores
    the state when the cursor had at least [n] columns to its left, and
    CUU by [n] followed by CUD by [n] restores it when the cursor was
    not below the bottom limit and had [n] rows above it down to the
    top limit. *)
Theorem relative_motion_round_trip (seq : vte_seq) (t : VteTerminalPrivate)
    (HR : 1 <= m_row_count t) (HC : 1 <= m_column_count t)
    (Hregion : m_scrolling_restricted t = true -> region_in_grid t)
    (Hcursor : cursor_in_grid t)
    (Hn : 1 <= collect1 seq 0 1) :
  (collect1 seq 0 1 <= col (cursor (m_screen t)) -> CUF seq (CUB seq t) = t)
  /\ (top_limit t <= row (cursor (m_screen t)) - collect1 seq 0 1 ->
      row (cursor (m_screen t)) <= bottom_limit t ->
      CUD seq (CUU seq t) = t).
Proof.
  unfold top_limit, bottom_limit, cursor_in_grid, region_in_grid in *.
  unfold_handlers. revert Hn. generalize (collect1 seq 0 1). intros n Hn.
  unfold_motion.
  destruct (m_scrolling_restricted t) eqn:Hres;
    [specialize (Hregion eq_refl) | clear Hregion];
    destruct_state t; subst;
    (split; intros; split_ifs; try lia; same_cursor).
Qed.

Lemma relative_motion_round_trip_witness :
  CUF (mk_seq [fin 3]) (CUB (mk_seq [fin 3]) (restricted_state 5 10 8 40 (power_on 24 80)))
  = restricted_state 5 10 8 40 (power_on 24 80)
  /\ CUD (mk_seq [fin 3]) (CUU (mk_seq [fin 3]) (restricted_state 5 10 8 40 (power_on 24 80)))
     = restricted_state 5 10 8 40 (power_on 24 80).
Proof.
  destruct (relative_motion_round_trip (mk_seq [fin 3])
              (restricted_state 5 10 8 40 (power_on 24 80))) as [Hh Hv].
  - change (1 <= 24). lia.
  - change (1 <= 80). lia.
  - intros _. unfold region_in_grid. cbn. lia.
  - unfold cursor_in_grid. cbn. lia.
  - change (1 <= 3). lia.
  - split.
    + apply Hh. change (3 <= 40). lia.
    + apply Hv; [change (0 + 5 <= 8 - 3); lia | change (8 <= 0 + 10); lia].
Defined.
(** X10.  A cursor position report can be fed back.  From a cursor on
    the grid that, when origin mode and the restriction are both on, is
    on a row of the region, DSR 6 and DECDSR 6 report a row [r] and a
    column [c] such that a CUP with these two parameters leaves the
    state as it is. *)
Theorem cursor_report_round_trip (defs : Defines) (dsr cup : vte_seq)
    (t : VteTerminalPrivate)
    (HR : 1 <= m_row_count t) (HC : 1 <= m_column_count t)
    (Hregion : m_scrolling_restricted t = true -> region_in_grid t)
    (Hcursor : cursor_in_grid t)
    (Horigin : origin_restricted t = true -> cursor_in_region t)
    (Hdsr : collect1 dsr 0 (-1) = 6) :
  exists r c : Z,
    DSR_ECMA defs dsr t
    = feed (VTE_CAP_CSI defs ++ string_of_Z r ++ ";" ++ string_of_Z c ++ "R") t
    /\ DSR_DEC defs dsr t
       = feed (VTE_CAP_CSI defs ++ "?" ++ string_of_Z r ++ ";" ++ string_of_Z c ++ "R") t
    /\ (collect1 cup 0 1 = r -> collect1 cup (next cup 0) 1 = c -> CUP cup t = t).
Proof.
  unfold DSR_ECMA, DSR_DEC. rewrite Hdsr. cbn [Z.eqb Pos.eqb orb].
  unfold cursor_in_grid, cursor_in_region, region_in_grid, origin_restricted in *.
  unfold_handlers.
  generalize (collect1 cup 0 1) (collect1 cup (next cup 0) 1). intros v1 v2.
  destruct (truthy (m_origin_mode t) && m_scrolling_restricted t) eqn:Hor.
  - apply andb_prop in Hor. destruct Hor as [Hom Hres].
    specialize (Hregion Hres). specialize (Horigin eq_refl).
    eexists. eexists. split; [reflexivity|]. split; [reflexivity|].
    intros -> ->. unfold_motion.
    destruct_state t. subst. rewrite ?Hom. cbn.
    split_ifs; try lia; same_cursor.
  - eexists. eexists. split; [reflexivity|]. split; [reflexivity|].
    intros -> ->. unfold_motion. clear Horigin.
    destruct (m_scrolling_restricted t) eqn:Hres;
      [specialize (Hregion eq_refl) | clear Hregion];
      destruct_state t; subst; rewrite ?Hor; cbn;
      split_ifs; try lia; same_cursor.
Qed.

Lemma cursor_report_round_trip_witness :
  exists r c : Z,
    DSR_ECMA upstream_defines (mk_seq [fin 6])
      (set_member OFFSET_m_origin_mode TRUE (restricted_state 5 10 7 3 (power_on 24 80)))
    = feed (VTE_CAP_CSI upstream_defines ++ string_of_Z r ++ ";" ++ string_of_Z c ++ "R")
        (set_member OFFSET_m_origin_mode TRUE (restricted_state 5 10 7 3 (power_on 24 80)))
    /\ (collect1 (mk_seq [fin 3; fin 4]) 0 1 = r ->
        collect1 (mk_seq [fin 3; fin 4]) (next (mk_seq [fin 3; fin 4]) 0) 1 = c ->
        CUP (mk_seq [fin 3; fin 4])
          (set_member OFFSET_m_origin_mode TRUE (restricted_state 5 10 7 3 (power_on 24 80)))
        = set_member OFFSET_m_origin_mode TRUE (restricted_state 5 10 7 3 (power_on 24 80))).
Proof.
  destruct (cursor_report_round_trip upstream_defines (mk_seq [fin 6])
              (mk_seq [fin 3; fin 4])
              (set_member OFFSET_m_origin_mode TRUE
                 (restricted_state 5 10 7 3 (power_on 24 80))))
    as (r & c & He & _ & Hcup).
  - change (1 <= 24). lia.
  - change (1 <= 80). lia.
  - intros _. unfold region_in_grid. cbn. lia.
  - unfold cursor_in_grid. cbn. lia.
  - intros _. unfold cursor_in_region. cbn. lia.
  - reflexivity.
  - exists r, c. split; [exact He | exact Hcup].
Defined.

(** X11.  The query handlers DSR, DECDSR, DA1, DA3 and DECID never change
    the terminal: whatever the parameters, each either does nothing or
    writes one reply to the child. *)
Theorem queries_only_reply (defs : Defines)
    (h : vte_seq -> VteTerminalPrivate -> VteTerminalPrivate)
    (seq : vte_seq) (t : VteTerminalPrivate)
    (Hh : In h (query_handlers defs)) :
  h seq t = t \/ exists text : string, h seq t = feed text t.
Proof.
  unfold query_handlers in Hh. cbn [In] in Hh.
  repeat (destruct Hh as [<- | Hh]); [..| destruct Hh];
    unfold DECID, DA1, DA3, DSR_ECMA, DSR_DEC;
    repeat match goal with
      | |- context [if ?c then _ else _] =>
          lazymatch c with
          | context [if _ then _ else _] => fail
          | _ => destruct c
          end
      end;
    first [left; reflexivity | right; eexists; reflexivity].
Qed.

Lemma queries_only_reply_witness :
  DECID (mk_seq []) (power_on 24 80) = power_on 24 80
  \/ exists text : string, DECID (mk_seq []) (power_on 24 80) = feed text (power_on 24 80).
Proof.
  apply (queries_only_reply upstream_defines DECID (mk_seq []) (power_on 24 80)).
  do 4 right. left. reflexivity.
Defined.
(** ** DECSET and DECRESET *)

Lemma decset_switch_unhandled (setting : Z) (set : bool) (t : VteTerminalPrivate) :
  ~ In (int16 setting) handled_settings -> decset_switch setting set t = t.
Proof.
  intros Hn. unfold decset_switch.
  repeat match goal with
    | |- context [?s =? ?k] =>
        let E := fresh "E" in
        destruct (Z.eqb_spec s k) as [E|E];
        [exfalso; apply Hn; rewrite E; vm_compute; in_list | cbn [orb]]
    end.
  reflexivity.
Qed.

Lemma decset_find_unhandled (defs : Defines) (setting : Z) (key : decset_t) :
  ~ In (int16 setting) handled_settings ->
  decset_find defs setting = Some key -> decset_ignored key = true.
Proof.
  intros Hn. unfold decset_find, settings. cbn [find ds_setting].
  generalize dependent (int16 setting). intros s Hn.
  repeat match goal with
    | |- context [?k =? s] =>
        let E := fresh "E" in
        destruct (Z.eqb_spec k s) as [E|E];
        [intros [= <-];
         first [reflexivity | exfalso; apply Hn; rewrite <- E; in_list] |]
    end.
  discriminate.
Qed.

(** X12.  A setting that is not one of the handled private modes leaves
    the terminal as it is, whatever [restore], [save] and [set] are: a
    setting missing from the table, and a setting whose entry has no
    member, no hook and equal on and off values; nothing is saved for it
    either.  The setting is looked up as a 16-bit integer. *)
Theorem decset_unhandled_setting (defs : Defines)
    (external_handler : decset_handler_t -> VteTerminalPrivate -> VteTerminalPrivate)
    (setting : Z) (restore save set : bool) (t : VteTerminalPrivate)
    (Hsetting : ~ In (int16 setting) handled_settings) :
  decset defs external_handler setting restore save set t = t.
Proof.
  unfold decset. destruct (decset_find defs setting) as [key|] eqn:Hfind; [|reflexivity].
  unfold decset_entry.
  rewrite (decset_find_unhandled defs setting key Hsetting Hfind).
  apply decset_switch_unhandled. exact Hsetting.
Qed.

Lemma decset_unhandled_setting_witness :
  decset upstream_defines no_external_handler 12 false true true (power_on 24 80)
  = power_on 24 80.
Proof.
  apply (decset_unhandled_setting upstream_defines no_external_handler 12 false true true
           (power_on 24 80)).
  vm_compute. intros H.
  repeat (destruct H as [H|H]; [discriminate H|]). exact H.
Defined.

(** X13.  The mode table is in strictly ascending order of its settings,
    as the [bsearch] over it needs, and every setting of the table fits
    the 16-bit key it is compared with. *)
Theorem decset_settings_sorted (defs : Defines) :
  StronglySorted Z.lt (map ds_setting (settings defs))
  /\ Forall (fun e => int16 (ds_setting e) = ds_setting e) (settings defs).
Proof.
  split.
  - unfold settings. cbn [map ds_setting].
    repeat (apply SSorted_cons;
            [| repeat (constructor; [reflexivity|]); constructor]).
    apply SSorted_nil.
  - unfold settings.
    repeat (constructor; [reflexivity|]). constructor.
Qed.

Section DecsetApply.
Context (defs : Defines)
        (external_handler : decset_handler_t -> VteTerminalPrivate -> VteTerminalPrivate).

Lemma get_member_set_member (o m : member) (v : Z) (t : VteTerminalPrivate) :
  get_member o (set_member m v t) = if member_eqb o m then v else get_member o t.
Proof. destruct o, m; reflexivity. Qed.

Lemma member_eqb_eq (o m : member) : member_eqb o m = true <-> o = m.
Proof. destruct o, m; cbn; split; intros H; first [reflexivity | discriminate H]. Qed.

Lemma get_member_internal_hook (o : member) (h : option decset_handler_t) (b : bool)
    (t : VteTerminalPrivate) :
  internal_hook h = true ->
  get_member o (match h with
                | Some h' => if b then call_handler external_handler h' t else t
                | None => t
                end) = get_member o t.
Proof.
  intros Hh. destruct h as [[]|]; try discriminate Hh; destruct b, o; reflexivity.
Qed.

Lemma m_dec_saved_internal_hook (h : option decset_handler_t) (b : bool)
    (t : VteTerminalPrivate) :
  internal_hook h = true ->
  m_dec_saved (match h with
               | Some h' => if b then call_handler external_handler h' t else t
               | None => t
               end) = m_dec_saved t.
Proof.
  intros Hh. destruct h as [[]|]; try discriminate Hh; destruct b; reflexivity.
Qed.

Lemma get_member_decset_apply (key : decset_t) (m o : member) (set : bool)
    (t : VteTerminalPrivate) :
  internal_hook (set_hook key) = true -> internal_hook (reset_hook key) = true ->
  decset_member key = Some m ->
  get_member o (decset_apply external_handler key set t)
  = if member_eqb o m then decset_value key set else get_member o t.
Proof.
  intros Hs Hr Hm. unfold decset_apply.
  rewrite (get_member_internal_hook o (reset_hook key) (negb set) _ Hr).
  unfold decset_member, decset_value in *.
  destruct (boffset key) as [b|]; [|destruct (ioffset key) as [i|];
                                     [|destruct (poffset key) as [p|]]];
    try discriminate Hm; injection Hm as ->;
    rewrite get_member_set_member;
    rewrite (get_member_internal_hook o (set_hook key) set _ Hs); reflexivity.
Qed.

Lemma m_dec_saved_decset_apply (key : decset_t) (set : bool) (t : VteTerminalPrivate) :
  internal_hook (set_hook key) = true -> internal_hook (reset_hook key) = true ->
  m_dec_saved (decset_apply external_handler key set t) = m_dec_saved t.
Proof.
  intros Hs Hr. unfold decset_apply.
  rewrite (m_dec_saved_internal_hook (reset_hook key) (negb set) _ Hr).
  destruct (boffset key) as [b|]; [|destruct (ioffset key) as [i|];
                                     [|destruct (poffset key) as [p|]]];
    cbn [m_dec_saved set_member];
    apply (m_dec_saved_internal_hook (set_hook key) set _ Hs).
Qed.

Lemma decset_apply_path (setting : Z) (key : decset_t) (restore set : bool)
    (t : VteTerminalPrivate) :
  decset_find defs setting = Some key -> decset_ignored key = false ->
  decset defs external_handler setting restore false set t
  = let set' := if restore then dec_saved_lookup setting t else set in
    decset_switch setting set' (decset_apply external_handler key set' t).
Proof.
  intros Hfind Hign. unfold decset, decset_entry. rewrite Hfind, Hign. reflexivity.
Qed.

Lemma decset_save_path (setting : Z) (key : decset_t) (restore set : bool)
    (t : VteTerminalPrivate) :
  decset_find defs setting = Some key -> decset_ignored key = false ->
  decset defs external_handler setting restore true set t
  = let set' := if restore then dec_saved_lookup setting t else set in
    let v := decset_saved_value key set' t in
    decset_switch setting v (set_dec_saved (<[setting := v]> (m_dec_saved t)) t).
Proof.
  intros Hfind Hign. unfold decset, decset_entry. rewrite Hfind, Hign. reflexivity.
Qed.

End DecsetApply.

(** X14.  Saving, changing and restoring a private mode.  For a setting
    whose table entry is not ignored, addresses a member and has no hook
    defined outside the sources: after the setting is saved, a set or
    reset writes the entry's value for the flag to the member, and a
    restore then writes the value for the flag that was saved, which is
    read from the state before the save; no other member is changed by
    the three steps. *)
Theorem decset_save_set_restore (defs : Defines)
    (external_handler : decset_handler_t -> VteTerminalPrivate -> VteTerminalPrivate)
    (setting : Z) (key : decset_t) (m : member) (set1 set2 set3 : bool)
    (t : VteTerminalPrivate)
    (Hfind : decset_find defs setting = Some key)
    (Hlive : decset_ignored key = false)
    (Hset : internal_hook (set_hook key) = true)
    (Hreset : internal_hook (reset_hook key) = true)
    (Hmember : decset_member key = Some m) :
  let saved := decset defs external_handler setting false true set1 t in
  let changed := decset defs external_handler setting false false set2 saved in
  let restored := decset defs external_handler setting true false set3 changed in
  get_member m changed = decset_value key set2
  /\ get_member m restored = decset_value key (decset_saved_value key set1 t)
  /\ (forall o, o <> m -> get_member o restored = get_member o t).
Proof.
  intros saved changed restored.
  assert (Hsaved : forall o, get_member o saved = get_member o t).
  { intros o. subst saved. rewrite (decset_save_path _ _ _ _ _ _ _ Hfind Hlive).
    cbv zeta. rewrite get_member_decset_switch. apply get_member_set_dec_saved. }
  assert (Hchanged : forall o, get_member o changed
                               = if member_eqb o m then decset_value key set2
                                 else get_member o t).
  { intros o. subst changed. rewrite (decset_apply_path _ _ _ _ _ _ _ Hfind Hlive).
    cbv zeta. rewrite get_member_decset_switch.
    rewrite (get_member_decset_apply _ _ m o _ _ Hset Hreset Hmember).
    rewrite Hsaved. reflexivity. }
  assert (Hlookup : dec_saved_lookup setting changed = decset_saved_value key set1 t).
  { unfold dec_saved_lookup. subst changed.
    rewrite (decset_apply_path _ _ _ _ _ _ _ Hfind Hlive). cbv zeta.
    rewrite m_dec_saved_decset_switch.
    rewrite (m_dec_saved_decset_apply _ _ _ _ Hset Hreset).
    subst saved. rewrite (decset_save_path _ _ _ _ _ _ _ Hfind Hlive). cbv zeta.
    rewrite m_dec_saved_decset_switch. cbn [m_dec_saved set_dec_saved].
    rewrite lookup_insert_eq. reflexivity. }
  assert (Hrestored : forall o, get_member o restored
                                = if member_eqb o m
                                  then decset_value key (decset_saved_value key set1 t)
                                  else get_member o t).
  { intros o. subst restored. rewrite (decset_apply_path _ _ _ _ _ _ _ Hfind Hlive).
    cbv zeta. rewrite get_member_decset_switch.
    rewrite (get_member_decset_apply _ _ m o _ _ Hset Hreset Hmember).
    rewrite Hlookup, Hchanged. destruct (member_eqb o m); reflexivity. }
  split; [|split].
  - rewrite Hchanged. rewrite (proj2 (member_eqb_eq m m) eq_refl). reflexivity.
  - rewrite Hrestored. rewrite (proj2 (member_eqb_eq m m) eq_refl). reflexivity.
  - intros o Ho. rewrite Hrestored.
    destruct (member_eqb o m) eqn:E; [|reflexivity].
    apply member_eqb_eq in E. contradiction.
Qed.

Lemma decset_save_set_restore_witness :
  get_member OFFSET_m_mouse_tracking_mode
    (decset upstream_defines no_external_handler 1000 false false true
       (decset upstream_defines no_external_handler 1000 false true true
          (power_on 24 80))) = 2
  /\ get_member OFFSET_m_mouse_tracking_mode
       (decset upstream_defines no_external_handler 1000 true false true
          (decset upstream_defines no_external_handler 1000 false false true
             (decset upstream_defines no_external_handler 1000 false true true
                (power_on 24 80)))) = 0.
Proof.
  destruct (decset_save_set_restore upstream_defines no_external_handler 1000
              (mk_decset 1000 None (PRIV_OFFSET OFFSET_m_mouse_tracking_mode) None
                 0 (MOUSE_TRACKING_SEND_XY_ON_BUTTON upstream_defines)
                 (Some handler_reset_mouse_smooth_scroll_delta)
                 (Some handler_reset_mouse_smooth_scroll_delta))
              OFFSET_m_mouse_tracking_mode true true true (power_on 24 80))
    as (Hchanged & Hrestored & _); try reflexivity.
  split; [exact Hchanged | exact Hrestored].
Defined.

(** X15.  The mouse tracking modes 9, 1000, 1001, 1002 and 1003 share
    one member: resetting any of them switches tracking off, whichever
    of them was on, resets the smooth scroll delta and asks for the
    mouse cursor to be applied, and changes no other mode member. *)
Theorem mouse_tracking_reset_any (defs : Defines)
    (external_handler : decset_handler_t -> VteTerminalPrivate -> VteTerminalPrivate)
    (setting : Z) (t : VteTerminalPrivate)
    (Hsetting : In setting mouse_tracking_settings) :
  let t' := decset defs external_handler setting false false false t in
  m_mouse_tracking_mode t' = 0
  /\ m_mouse_smooth_scroll_delta t' = 0
  /\ m_effects t' = m_effects t ++ [apply_mouse_cursor]
  /\ (forall o, o <> OFFSET_m_mouse_tracking_mode -> get_member o t' = get_member o t).
Proof.
  intros t'. subst t'.
  assert (Hpath : exists key,
             decset_find defs setting = Some key
             /\ set_hook key = Some handler_reset_mouse_smooth_scroll_delta
             /\ reset_hook key = Some handler_reset_mouse_smooth_scroll_delta
             /\ boffset key = None
             /\ ioffset key = Some OFFSET_m_mouse_tracking_mode
             /\ fvalue key = 0
             /\ decset_switch setting false
                = do_effect apply_mouse_cursor).
  { unfold mouse_tracking_settings in Hsetting. cbn [In] in Hsetting.
    repeat (destruct Hsetting as [<- | Hsetting]); [..| destruct Hsetting];
      (eexists; split; [reflexivity|]; repeat apply conj; reflexivity). }
  destruct Hpath as (key & Hfind & Hset & Hreset & Hb & Hi & Hf & Hswitch).
  rewrite (decset_apply_path defs external_handler setting key false false t Hfind
             (decset_ignored_hooked key _ Hset)).
  cbv zeta. rewrite Hswitch. unfold decset_apply. rewrite Hset, Hreset, Hb, Hi, Hf.
  cbn [negb call_handler].
  repeat apply conj; [reflexivity | reflexivity | reflexivity |].
  intros o Ho; destruct o; first [reflexivity | contradiction Ho; reflexivity].
Qed.

Lemma mouse_tracking_reset_any_witness :
  m_mouse_tracking_mode
    (decset upstream_defines no_external_handler 1002 false false false
       (decset upstream_defines no_external_handler 1000 false false true
          (power_on 24 80))) = 0.
Proof.
  apply (mouse_tracking_reset_any upstream_defines no_external_handler 1002
           (decset upstream_defines no_external_handler 1000 false false true
              (power_on 24 80))).
  do 3 right. left. reflexivity.
Defined.

(** X16.  Keypad mode through DECSET 66 and through DECKPAM and DECKPNM.
    DECSET and DECRESET 66 write the flag 1 or 0 to the keypad mode, not
    the keymode values of the table entry, while DECKPAM and DECKPNM
    write VTE_KEYMODE_APPLICATION and VTE_KEYMODE_NORMAL: the two ways
    leave the same state exactly when these values are 1 and 0. *)
Theorem keypad_mode_two_ways (defs : Defines)
    (external_handler : decset_handler_t -> VteTerminalPrivate -> VteTerminalPrivate)
    (seq : vte_seq) (t : VteTerminalPrivate)
    (Hdiff : VTE_KEYMODE_NORMAL defs <> VTE_KEYMODE_APPLICATION defs) :
  (forall set, m_keypad_mode (decset defs external_handler 66 false false set t)
               = of_bool set)
  /\ m_keypad_mode (DECKPAM defs seq t) = VTE_KEYMODE_APPLICATION defs
  /\ m_keypad_mode (DECKPNM defs seq t) = VTE_KEYMODE_NORMAL defs
  /\ (decset defs external_handler 66 false false true t = DECKPAM defs seq t
      <-> VTE_KEYMODE_APPLICATION defs = TRUE)
  /\ (decset defs external_handler 66 false false false t = DECKPNM defs seq t
      <-> VTE_KEYMODE_NORMAL defs = FALSE).
Proof.
  assert (Hdec : forall set,
             decset defs external_handler 66 false false set t
             = set_member OFFSET_m_keypad_mode (of_bool set) t).
  { intros set. unfold decset. change (decset_find defs 66)
      with (Some (mk_decset 66 (PRIV_OFFSET OFFSET_m_keypad_mode) None None
                    (VTE_KEYMODE_NORMAL defs) (VTE_KEYMODE_APPLICATION defs) None None)).
    unfold decset_entry, decset_ignored. cbn [fvalue tvalue].
    destruct (Z.eqb_spec (VTE_KEYMODE_NORMAL defs) (VTE_KEYMODE_APPLICATION defs));
      [contradiction|]. reflexivity. }
  split; [intros set; rewrite Hdec; reflexivity|].
  split; [reflexivity|]. split; [reflexivity|].
  rewrite !Hdec. unfold DECKPAM, DECKPNM, set_keypad_mode.
  split; (split; [intros H; apply (f_equal m_keypad_mode) in H; cbn in H; symmetry; exact H
                 | intros ->; reflexivity]).
Qed.

Lemma keypad_mode_two_ways_witness :
  decset upstream_defines no_external_handler 66 false false true (power_on 24 80)
  = DECKPAM upstream_defines (mk_seq []) (power_on 24 80).
Proof.
  destruct (keypad_mode_two_ways upstream_defines no_external_handler (mk_seq [])
              (power_on 24 80)) as (_ & _ & _ & Hpam & _).
  - discriminate.
  - apply Hpam. reflexivity.
Defined.

(** ** The scrolling region and the cleared screen *)

Lemma DECSTBM_grid (seq : vte_seq) (t : VteTerminalPrivate)
    (HR : 1 <= m_row_count t) (HC : 1 <= m_column_count t) :
  let t' := DECSTBM seq t in
  m_row_count t' = m_row_count t
  /\ m_column_count t' = m_column_count t
  /\ insert_delta (m_screen t') = insert_delta (m_screen t)
  /\ cursor_in_grid t'
  /\ (m_scrolling_restricted t' = true ->
      region_in_grid t'
      /\ insert_delta (m_screen t') + m_row_count t'
         <= _vte_ring_next (row_data (m_screen t'))).
Proof.
  intros t'. subst t'. rewrite DECSTBM_unfold.
  generalize (DECSTBM_top seq) (DECSTBM_bottom seq t). intros top bottom. cbv zeta.
  unfold cursor_in_grid, region_in_grid.
  destruct ((top <? 1) || (top >? m_row_count t) || (bottom <? top + 1)) eqn:Hbail.
  - unfold home_cursor, set_cursor_coords, set_cursor_row, set_cursor_column,
      set_cursor, CLAMP.
    destruct_state t. rewrite andb_false_r. cbn.
    split_ifs; repeat apply conj; try reflexivity; try lia; discriminate.
  - apply orb_false_elim in Hbail as [Hbail Hb3].
    apply orb_false_elim in Hbail as [Hb1 Hb2].
    cbn [m_scrolling_region m_row_count m_screen set_scrolling_restricted
         set_scrolling_region region_start region_end].
    set (bot := if bottom >? m_row_count t then m_row_count t else bottom).
    assert (Hbot : bot = Z.min bottom (m_row_count t)).
    { subst bot. destruct (Z.gtb_spec bottom (m_row_count t)); lia. }
    clearbody bot.
    destruct ((top - 1 =? 0) && (bot - 1 =? m_row_count t - 1)) eqn:Hfull.
    + unfold home_cursor, set_cursor_coords, set_cursor_row, set_cursor_column,
        set_cursor, CLAMP.
      destruct_state t. rewrite andb_false_r. cbn.
      split_ifs; repeat apply conj; try reflexivity; try lia; discriminate.
    + destruct (extend_ring_enough (row_data (m_screen t))
                  (insert_delta (m_screen t) + m_row_count t)) as (ring' & Hring & Hnext).
      rewrite Hring. apply andb_false_iff in Hfull.
      unfold home_cursor, set_cursor_coords, set_cursor_row, set_cursor_column,
        set_cursor, set_row_data, CLAMP, _vte_ring_next in *.
      destruct_state t.
      destruct (truthy m_origin_mode0); cbn;
        split_ifs; repeat apply conj; try reflexivity; try lia;
        intros _; repeat apply conj; try lia; destruct Hfull; lia.
Qed.

(** X17.  What DECSTBM leaves behind, whatever its parameters: the size
    of the grid and the insert delta are kept, the cursor is on the
    grid, and when the scrolling region is left restricted it lies
    within the grid, its first row not below its last, and the ring
    holds a row for every row of the screen. *)
Theorem DECSTBM_establishes_region (seq : vte_seq) (t : VteTerminalPrivate)
    (HR : 1 <= m_row_count t) (HC : 1 <= m_column_count t) :
  let t' := DECSTBM seq t in
  m_row_count t' = m_row_count t
  /\ m_column_count t' = m_column_count t
  /\ insert_delta (m_screen t') = insert_delta (m_screen t)
  /\ cursor_in_grid t'
  /\ (m_scrolling_restricted t' = true ->
      region_in_grid t'
      /\ insert_delta (m_screen t') + m_row_count t'
         <= _vte_ring_next (row_data (m_screen t'))).
Proof. exact (DECSTBM_grid seq t HR HC). Qed.

Lemma DECSTBM_establishes_region_witness :
  cursor_in_grid (DECSTBM (mk_seq [fin 3; fin 10]) (power_on 24 80))
  /\ region_in_grid (DECSTBM (mk_seq [fin 3; fin 10]) (power_on 24 80)).
Proof.
  destruct (DECSTBM_establishes_region (mk_seq [fin 3; fin 10]) (power_on 24 80))
    as (_ & _ & _ & Hcursor & Hregion);
    [change (1 <= 24); lia | change (1 <= 80); lia |].
  split; [exact Hcursor|]. apply Hregion. reflexivity.
Defined.

Lemma ring_appends_screen (n : nat) (t : VteTerminalPrivate) :
  let t' := Nat.iter n ring_append t in
  _vte_ring_next (row_data (m_screen t'))
  = _vte_ring_next (row_data (m_screen t)) + Z.of_nat n
  /\ cursor (m_screen t') = cursor (m_screen t)
  /\ insert_delta (m_screen t') = insert_delta (m_screen t)
  /\ m_effects t' = m_effects t
  /\ m_row_count t' = m_row_count t.
Proof.
  induction n as [|n IH]; cbv zeta.
  - change (Nat.iter 0 ring_append t) with t.
    repeat apply conj; try reflexivity. lia.
  - rewrite Nat.iter_succ. cbv zeta in IH.
    destruct IH as (Hn & Hc & Hd & He & Hr).
    generalize dependent (Nat.iter n ring_append t). intros u Hn Hc Hd He Hr.
    unfold ring_append, set_row_data, set_screen, _vte_ring_insert, _vte_ring_next in *.
    cbn. repeat apply conj; try assumption. lia.
Qed.

(** X18.  [clear_screen] appends one row per row of the screen and moves
    the insert delta to the first of them, so that the screen shows new
    rows only; the cursor keeps its column and its row counted from the
    top of the screen; the deleted-text flag is raised and the
    adjustments and a repaint are asked for, in this order. *)
Theorem clear_screen_fresh_rows (t : VteTerminalPrivate) :
  let t' := clear_screen t in
  insert_delta (m_screen t') = _vte_ring_next (row_data (m_screen t))
  /\ _vte_ring_next (row_data (m_screen t'))
     = insert_delta (m_screen t') + Z.max 0 (m_row_count t)
  /\ row (cursor (m_screen t')) - insert_delta (m_screen t')
     = row (cursor (m_screen t)) - insert_delta (m_screen t)
  /\ col (cursor (m_screen t')) = col (cursor (m_screen t))
  /\ m_text_deleted_flag t' = true
  /\ m_effects t' = m_effects t ++ [adjust_adjustments; invalidate_all].
Proof.
  intros t'. subst t'. unfold clear_screen. cbv zeta.
  destruct (ring_appends_screen (Z.to_nat (m_row_count t)) t)
    as (Hn & Hc & Hd & He & Hr).
  cbv zeta in *.
  generalize dependent (Nat.iter (Z.to_nat (m_row_count t)) ring_append t).
  intros u Hn Hc Hd He Hr.
  unfold set_insert_delta, set_cursor, do_effect, _vte_ring_next in *. cbn.
  rewrite Hn, Hc, He, <- app_assoc.
  repeat apply conj; try reflexivity; lia.
Qed.

(** ** SGR *)

Section SGRRounds.
Context (defs : Defines).

Lemma SGR_single_round (seq : vte_seq) (t t' : VteTerminalPrivate) (i' : Z) :
  0 < Sequence.size seq ->
  SGR_param defs seq 0 t = (i', t') ->
  Sequence.size seq <= next seq i' ->
  SGR defs seq t = SGR_save_colors t'.
Proof.
  intros Hsize Hparam Hnext. unfold SGR.
  destruct (Z.eqb_spec (Sequence.size seq) 0) as [E|_]; [lia|].
  destruct (args seq) as [|a l] eqn:Hargs.
  { unfold Sequence.size in Hsize. rewrite Hargs in Hsize. cbn in Hsize. lia. }
  cbn [length SGR_loop].
  destruct (Z.ltb_spec 0 (Sequence.size seq)); [|lia].
  rewrite Hparam.
  destruct (Z.ltb_spec (next seq i') (Sequence.size seq)); [lia|].
  reflexivity.
Qed.

End SGRRounds.

(** X19.  The indexed colours of SGR 38 and 48 in both grammars: with an
    index [N] from 0 to 255, [38;5;N] and [38:5:N] leave the same state,
    with foreground colour [N], and so do [48;5;N] and [48:5:N] for the
    background; with any other [N] the four leave the colours alone. *)
Theorem SGR_indexed_colour (defs : Defines) (N : Z) (t : VteTerminalPrivate) :
  SGR defs (mk_seq [sub 38; sub 5; fin N]) t = SGR defs (mk_seq [fin 38; fin 5; fin N]) t
  /\ SGR defs (mk_seq [sub 48; sub 5; fin N]) t = SGR defs (mk_seq [fin 48; fin 5; fin N]) t
  /\ fore (m_defaults (SGR defs (mk_seq [fin 38; fin 5; fin N]) t))
     = (if (0 <=? N) && (N <=? 255) then N else fore (m_defaults t))
  /\ back (m_defaults (SGR defs (mk_seq [fin 48; fin 5; fin N]) t))
     = (if (0 <=? N) && (N <=? 255) then N else back (m_defaults t)).
Proof.
  assert (Hsemi : forall code rb gb bb,
             seq_parse_sgr_color defs rb gb bb (mk_seq [fin code; fin 5; fin N]) 0
             = if negb (Z.land N 255 =? N) then (2, None) else (2, Some N))
    by (intros; reflexivity).
  assert (Hcolon : forall code rb gb bb,
             seq_parse_sgr_color defs rb gb bb (mk_seq [sub code; sub 5; fin N]) 0
             = if (N <? 0) || (N >=? 256) then (2, None) else (2, Some N))
    by (intros; reflexivity).
  assert (H38 : forall seq, param seq 0 (-1) = 38 ->
             SGR_param defs seq 0 t
             = match seq_parse_sgr_color defs 8 8 8 seq 0 with
               | (i', Some fore) => (i', on_defaults (set_fore fore) t)
               | (i', None) => (i', t)
               end).
  { intros seq H. unfold SGR_param. rewrite H. reflexivity. }
  assert (H48 : forall seq, param seq 0 (-1) = 48 ->
             SGR_param defs seq 0 t
             = match seq_parse_sgr_color defs 8 8 8 seq 0 with
               | (i', Some back) => (i', on_defaults (set_back back) t)
               | (i', None) => (i', t)
               end).
  { intros seq H. unfold SGR_param. rewrite H. reflexivity. }
  assert (Hround : forall seq u, Sequence.size seq = 3 ->
             SGR_param defs seq 0 t = (2, u) -> next seq 2 = 3 ->
             SGR defs seq t = SGR_save_colors u).
  { intros seq u Hs Hp Hn. apply (SGR_single_round defs seq t u 2); [lia | exact Hp | lia]. }
  destruct ((0 <=? N) && (N <=? 255)) eqn:Hrange.
  - apply andb_prop in Hrange as [H0 H255].
    apply Z.leb_le in H0, H255.
    assert (Hland : (Z.land N 255 =? N) = true)
      by (apply Z.eqb_eq, land_255; lia).
    assert (Hlt : (N <? 0) = false) by (apply Z.ltb_ge; lia).
    assert (Hge : (N >=? 256) = false) by (rewrite Z.geb_leb; apply Z.leb_gt; lia).
    rewrite (Hround (mk_seq [sub 38; sub 5; fin N]) (on_defaults (set_fore N) t));
      [| reflexivity | rewrite H38, Hcolon, Hlt, Hge by reflexivity; reflexivity
       | reflexivity].
    rewrite (Hround (mk_seq [fin 38; fin 5; fin N]) (on_defaults (set_fore N) t));
      [| reflexivity | rewrite H38, Hsemi, Hland by reflexivity; reflexivity
       | reflexivity].
    rewrite (Hround (mk_seq [sub 48; sub 5; fin N]) (on_defaults (set_back N) t));
      [| reflexivity | rewrite H48, Hcolon, Hlt, Hge by reflexivity; reflexivity
       | reflexivity].
    rewrite (Hround (mk_seq [fin 48; fin 5; fin N]) (on_defaults (set_back N) t));
      [| reflexivity | rewrite H48, Hsemi, Hland by reflexivity; reflexivity
       | reflexivity].
    repeat apply conj; reflexivity.
  - assert (Hland : (Z.land N 255 =? N) = false).
    { apply Z.eqb_neq. rewrite land_255. apply andb_false_iff in Hrange.
      destruct Hrange as [H|H]; apply Z.leb_gt in H; lia. }
    assert (Hout : (N <? 0) || (N >=? 256) = true).
    { apply andb_false_iff in Hrange. apply orb_true_iff.
      destruct Hrange as [H|H]; apply Z.leb_gt in H;
        [left; apply Z.ltb_lt; lia | right; rewrite Z.geb_leb; apply Z.leb_le; lia]. }
    rewrite (Hround (mk_seq [sub 38; sub 5; fin N]) t);
      [| reflexivity | rewrite H38, Hcolon, Hout by reflexivity; reflexivity
       | reflexivity].
    rewrite (Hround (mk_seq [fin 38; fin 5; fin N]) t);
      [| reflexivity | rewrite H38, Hsemi, Hland by reflexivity; reflexivity
       | reflexivity].
    rewrite (Hround (mk_seq [sub 48; sub 5; fin N]) t);
      [| reflexivity | rewrite H48, Hcolon, Hout by reflexivity; reflexivity
       | reflexivity].
    rewrite (Hround (mk_seq [fin 48; fin 5; fin N]) t);
      [| reflexivity | rewrite H48, Hsemi, Hland by reflexivity; reflexivity
       | reflexivity].
    repeat apply conj; reflexivity.
Qed.

Section SGRFrame.
Context (defs : Defines).

Lemma SGR_keeps_refl t : SGR_keeps t t.
Proof.
  split; [|reflexivity].
  exists (m_defaults t), (m_color_defaults t), (m_fill_defaults t).
  destruct t; reflexivity.
Qed.

Lemma SGR_keeps_trans t u v : SGR_keeps t u -> SGR_keeps u v -> SGR_keeps t v.
Proof.
  intros [(d1 & c1 & f1 & H1) Hh1] [(d2 & c2 & f2 & H2) Hh2].
  split; [|congruence].
  exists d2, c2, f2. rewrite H2, H1. reflexivity.
Qed.

Lemma SGR_keeps_on_defaults f t :
  (forall a, hyperlink_idx (f a) = hyperlink_idx a) ->
  SGR_keeps t (on_defaults f t).
Proof.
  intros Hf. split; [|apply Hf].
  exists (f (m_defaults t)), (m_color_defaults t), (m_fill_defaults t).
  destruct t; reflexivity.
Qed.

End SGRFrame.

(** ** The rest of a tokenised string *)

Section TokenRest.
Import StringTokeniser.

Lemma string_remaining_iterator_at str sep p :
  (p <= String.length str)%nat ->
  TokeniserRest.string_remaining (iterator_at str sep (Z.of_nat p)) = str_drop p str.
Proof.
  intros Hp. unfold TokeniserRest.string_remaining, string_substr, string_size.
  cbn [m_string m_position iterator_at].
  rewrite Nat2Z.id, substring_take_drop.
  replace (Z.to_nat (Z.of_nat (String.length str) - Z.of_nat p))
    with (String.length (str_drop p str)) by (rewrite str_drop_length; lia).
  apply str_take_all.
Qed.

Lemma tokens_from_suffix str sep (Hlen : string_size str < npos) :
  forall fuel p pre it post,
    (p <= String.length str)%nat -> (String.length str - p < fuel)%nat ->
    tokens_from fuel (iterator_at str sep (Z.of_nat p)) = pre ++ it :: post ->
    exists q, (q <= String.length str)%nat
              /\ it = iterator_at str sep (Z.of_nat q)
              /\ map deref (it :: post) = split_string sep (str_drop q str).
Proof.
  induction fuel as [|fuel IH]; intros p pre it post Hp Hfuel Htok; [lia|].
  pose proof (tokens_from_split str sep Hlen (S fuel) p Hp Hfuel) as Hsplit.
  cbn [tokens_from] in Htok, Hsplit.
  change (m_position (iterator_at str sep (Z.of_nat p))) with (Z.of_nat p) in Htok, Hsplit.
  destruct (Z.eqb_spec (Z.of_nat p) npos) as [Heq|_];
    [unfold string_size, npos in *; lia|].
  destruct pre as [|x pre].
  - cbn [app] in Htok. injection Htok as <- <-.
    exists p. split; [exact Hp|]. split; [reflexivity | exact Hsplit].
  - cbn [app] in Htok. injection Htok as _ Htok.
    pose proof (incr_iterator_at str sep p Hlen Hp) as Hincr.
    pose proof (find_char_lt sep (str_drop p str)) as Hk.
    rewrite str_drop_length in Hk by exact Hp.
    destruct (find_char sep (str_drop p str)) as [k|].
    + specialize (Hk k eq_refl). rewrite Hincr in Htok.
      apply (IH (p + S k)%nat pre it post); [lia | lia | exact Htok].
    + destruct fuel; cbn [tokens_from] in Htok.
      * destruct pre; discriminate Htok.
      * rewrite Hincr, Z.eqb_refl in Htok. destruct pre; discriminate Htok.
Qed.

End TokenRest.

(** X21.  The rest of the string at a token.  At every token of a
    string, [string_remaining] is that token and the tokens after it
    joined by the separator, and [size_remaining] is its length. *)
Theorem string_remaining_joins_rest (str : string) (sep : ascii)
    (pre post : list StringTokeniser.const_iterator) (it : StringTokeniser.const_iterator)
    (Hlen : StringTokeniser.string_size str < npos)
    (Htokens : StringTokeniser.tokens str sep = pre ++ it :: post) :
  TokeniserRest.string_remaining it
  = String.concat (String sep EmptyString) (map StringTokeniser.deref (it :: post))
  /\ TokeniserRest.size_remaining it
     = StringTokeniser.string_size (TokeniserRest.string_remaining it).
Proof.
  destruct (tokens_from_suffix str sep Hlen (S (String.length str)) 0 pre it post)
    as (q & Hq & -> & Hrest); [lia | lia | exact Htokens |].
  rewrite Hrest, split_string_concat, string_remaining_iterator_at by exact Hq.
  split; [reflexivity|].
  unfold TokeniserRest.size_remaining, StringTokeniser.string_size, usize, npos in *.
  cbn [StringTokeniser.m_string StringTokeniser.m_position StringTokeniser.iterator_at].
  rewrite str_drop_length by exact Hq. rewrite Z.mod_small by lia. lia.
Qed.

Lemma string_remaining_joins_rest_witness :
  TokeniserRest.string_remaining
    (StringTokeniser.iterator_at "4;;rgb:1/2/3;" ";"%char 2)
  = String.concat ";"
      (map StringTokeniser.deref
         [StringTokeniser.iterator_at "4;;rgb:1/2/3;" ";"%char 2;
          StringTokeniser.iterator_at "4;;rgb:1/2/3;" ";"%char 3;
          StringTokeniser.iterator_at "4;;rgb:1/2/3;" ";"%char 13]).
Proof.
  apply (string_remaining_joins_rest "4;;rgb:1/2/3;" ";"%char
           [StringTokeniser.iterator_at "4;;rgb:1/2/3;" ";"%char 0]
           [StringTokeniser.iterator_at "4;;rgb:1/2/3;" ";"%char 3;
            StringTokeniser.iterator_at "4;;rgb:1/2/3;" ";"%char 13]
           (StringTokeniser.iterator_at "4;;rgb:1/2/3;" ";"%char 2)).
  - reflexivity.
  - reflexivity.
Defined.

Section SGRCompose.
Context (defs : Defines).

Lemma SGR_loop_more_fuel : forall f seq i u r,
  SGR_loop defs f seq i u = Some r ->
  forall f', (f <= f')%nat -> SGR_loop defs f' seq i u = Some r.
Proof.
  induction f as [|f IH]; intros seq i u r H f' Hle; [discriminate H|].
  destruct f' as [|f']; [lia|]. cbn [SGR_loop] in *.
  destruct (i <? Sequence.size seq); [|exact H].
  destruct (SGR_param defs seq i u) as [i' u']. apply (IH _ _ _ _ H). lia.
Qed.

Lemma SGR_of_loop seq t f r :
  wf seq -> Sequence.size seq <> 0 ->
  SGR_loop defs f seq 0 t = Some r -> SGR defs seq t = SGR_save_colors r.
Proof.
  intros Hwf Hne H. unfold SGR.
  destruct (Z.eqb_spec (Sequence.size seq) 0); [contradiction|].
  destruct (SGR_loop_terminates defs seq Hwf (S (length (args seq))) 0 t)
    as (r' & Hr'); [lia | unfold Sequence.size; lia | lia |].
  rewrite Hr'. f_equal.
  pose proof (SGR_loop_more_fuel _ _ _ _ _ H
                (Nat.max f (S (length (args seq)))) ltac:(lia)) as H1.
  pose proof (SGR_loop_more_fuel _ _ _ _ _ Hr'
                (Nat.max f (S (length (args seq)))) ltac:(lia)) as H2.
  congruence.
Qed.

(** *** The parameters of a concatenation *)

Lemma size_app a b :
  Sequence.size (mk_seq (a ++ b)) = Sequence.size (mk_seq a) + Sequence.size (mk_seq b).
Proof. unfold Sequence.size. cbn [args]. rewrite length_app. lia. Qed.

Lemma arg_at_app_l a b i : 0 <= i < Sequence.size (mk_seq a) ->
  arg_at (mk_seq (a ++ b)) i = arg_at (mk_seq a) i.
Proof.
  unfold Sequence.size, arg_at. cbn [args]. intros Hi. apply app_nth1. lia.
Qed.

Lemma arg_at_app_r a b k : 0 <= k ->
  arg_at (mk_seq (a ++ b)) (Sequence.size (mk_seq a) + k) = arg_at (mk_seq b) k.
Proof.
  unfold Sequence.size, arg_at. cbn [args]. intros Hk.
  replace (Z.to_nat (Z.of_nat (length a) + k)) with (length a + Z.to_nat k)%nat by lia.
  apply app_nth2_plus.
Qed.

Lemma ltb_size_app_r a b k :
  (Sequence.size (mk_seq a) + k <? Sequence.size (mk_seq (a ++ b)))
  = (k <? Sequence.size (mk_seq b)).
Proof.
  rewrite size_app.
  destruct (Z.ltb_spec (Sequence.size (mk_seq a) + k)
              (Sequence.size (mk_seq a) + Sequence.size (mk_seq b)));
    destruct (Z.ltb_spec k (Sequence.size (mk_seq b))); first [reflexivity | lia].
Qed.

Lemma ltb_size_app_l a b i : 0 <= i < Sequence.size (mk_seq a) ->
  (i <? Sequence.size (mk_seq (a ++ b))) = true /\ (i <? Sequence.size (mk_seq a)) = true.
Proof.
  intros Hi. rewrite size_app. pose proof (size_nonneg (mk_seq b)).
  split; apply Z.ltb_lt; lia.
Qed.

Lemma param_app_r a b k d : 0 <= k ->
  param (mk_seq (a ++ b)) (Sequence.size (mk_seq a) + k) d = param (mk_seq b) k d.
Proof.
  intros Hk. unfold param. rewrite ltb_size_app_r, arg_at_app_r by exact Hk. reflexivity.
Qed.

Lemma param_nonfinal_app_r a b k : 0 <= k ->
  param_nonfinal (mk_seq (a ++ b)) (Sequence.size (mk_seq a) + k)
  = param_nonfinal (mk_seq b) k.
Proof.
  intros Hk. unfold param_nonfinal.
  rewrite ltb_size_app_r, arg_at_app_r by exact Hk. reflexivity.
Qed.

Lemma param_default_app_r a b k : 0 <= k ->
  param_default (mk_seq (a ++ b)) (Sequence.size (mk_seq a) + k)
  = param_default (mk_seq b) k.
Proof.
  intros Hk. unfold param_default.
  rewrite ltb_size_app_r, arg_at_app_r by exact Hk. reflexivity.
Qed.

Lemma param_app_l a b i d : 0 <= i < Sequence.size (mk_seq a) ->
  param (mk_seq (a ++ b)) i d = param (mk_seq a) i d.
Proof.
  intros Hi. unfold param. destruct (ltb_size_app_l a b i Hi) as [-> ->].
  rewrite arg_at_app_l by exact Hi. reflexivity.
Qed.

Lemma param_nonfinal_app_l a b i : 0 <= i < Sequence.size (mk_seq a) ->
  param_nonfinal (mk_seq (a ++ b)) i = param_nonfinal (mk_seq a) i.
Proof.
  intros Hi. unfold param_nonfinal. destruct (ltb_size_app_l a b i Hi) as [-> ->].
  rewrite arg_at_app_l by exact Hi. reflexivity.
Qed.

Lemma wf_app_r a b : wf (mk_seq (a ++ b)) -> wf (mk_seq b).
Proof. unfold wf. cbn [args]. rewrite length_app. lia. Qed.

Lemma wf_app_l a b : wf (mk_seq (a ++ b)) -> wf (mk_seq a).
Proof. unfold wf. cbn [args]. rewrite length_app. lia. Qed.

Lemma next_first_final seq idx j :
  wf seq -> 0 <= idx < 2 ^ 32 -> idx <= j ->
  param_nonfinal seq j = false ->
  (forall k, idx <= k < j -> param_nonfinal seq k = true) ->
  next seq idx = u32 (j + 1).
Proof.
  intros Hwf Hidx Hle Hstop Hrun.
  destruct (next_spec seq idx Hwf Hidx) as (j' & _ & Hn & Hle' & _ & Hstop' & Hrun').
  rewrite Hn. f_equal. f_equal.
  destruct (Z.lt_trichotomy j j') as [Hlt|[Heq|Hgt]]; [|symmetry; exact Heq|].
  - rewrite Hrun' in Hstop by lia. discriminate.
  - rewrite Hrun in Hstop' by lia. discriminate.
Qed.

Lemma next_app_r a b k :
  wf (mk_seq (a ++ b)) -> 0 <= k < 2 ^ 31 ->
  next (mk_seq (a ++ b)) (Sequence.size (mk_seq a) + k)
  = Sequence.size (mk_seq a) + next (mk_seq b) k.
Proof.
  intros Hwf Hk.
  pose proof (wf_size _ Hwf) as Hsz. rewrite size_app in Hsz.
  pose proof (size_nonneg (mk_seq a)) as Ha. pose proof (size_nonneg (mk_seq b)) as Hb.
  destruct (next_spec (mk_seq b) k (wf_app_r a b Hwf)) as (j & _ & Hn & Hle & Hmax & Hstop & Hrun);
    [lia|].
  rewrite (next_first_final (mk_seq (a ++ b)) (Sequence.size (mk_seq a) + k)
             (Sequence.size (mk_seq a) + j) Hwf); [| lia | lia | |].
  - rewrite Hn, !u32_small by lia. lia.
  - rewrite param_nonfinal_app_r by lia. exact Hstop.
  - intros k' Hk'.
    replace k' with (Sequence.size (mk_seq a) + (k' - Sequence.size (mk_seq a))) by lia.
    rewrite param_nonfinal_app_r by lia. apply Hrun. lia.
Qed.

Lemma u32_shift n e : 0 <= n -> 0 <= e -> n + e + 1 < 2 ^ 32 -> u32 (n + e + 1) = n + (e + 1).
Proof. intros. rewrite u32_small by lia. lia. Qed.

Lemma u32_succ e : 0 <= e -> e + 1 < 2 ^ 32 -> u32 (e + 1) = e + 1.
Proof. intros. apply u32_small. lia. Qed.

Lemma seq_parse_sgr_color_app_r rb gb bb a b k :
  wf (mk_seq (a ++ b)) -> 0 <= k <= 16 ->
  seq_parse_sgr_color defs rb gb bb (mk_seq (a ++ b)) (Sequence.size (mk_seq a) + k)
  = (Sequence.size (mk_seq a) + fst (seq_parse_sgr_color defs rb gb bb (mk_seq b) k),
     snd (seq_parse_sgr_color defs rb gb bb (mk_seq b) k)).
Proof.
  intros Hwf Hk.
  pose proof (wf_size _ Hwf) as Hsz. rewrite size_app in Hsz.
  pose proof (size_nonneg (mk_seq a)) as Ha. pose proof (size_nonneg (mk_seq b)) as Hb.
  pose proof (wf_app_r a b Hwf) as HwfB.
  set (n := Sequence.size (mk_seq a)) in *.
  set (B := mk_seq b) in *.
  assert (Hnext : forall e, 0 <= e <= 40 -> e < next B e <= Z.max (e + 1) 17).
  { intros e He. pose proof (next_bounds B e HwfB) as H.
    unfold UINT_MAX in H. specialize (H ltac:(lia)).
    pose proof (wf_size _ HwfB). lia. }
  pose proof (Hnext k ltac:(lia)) as H1.
  pose proof (Hnext (k + 1) ltac:(lia)) as H1'.
  pose proof (Hnext (next B k) ltac:(lia)) as H2.
  pose proof (Hnext (next B (next B k)) ltac:(lia)) as H3.
  pose proof (Hnext (next B (next B (next B k))) ltac:(lia)) as H4.
  assert (Hnx : forall e, 0 <= e < 2 ^ 31 ->
             next (mk_seq (a ++ b)) (n + e) = n + next B e)
    by (intros; apply next_app_r; assumption).
  assert (Hpar : forall e d, 0 <= e -> param (mk_seq (a ++ b)) (n + e) d = param B e d)
    by (intros; apply param_app_r; assumption).
  assert (Hpd : forall e, 0 <= e ->
             param_default (mk_seq (a ++ b)) (n + e) = param_default B e)
    by (intros; apply param_default_app_r; assumption).
  assert (Hpn : param_nonfinal (mk_seq (a ++ b)) (n + k) = param_nonfinal B k)
    by (apply param_nonfinal_app_r; lia).
  clearbody n B.
  unfold seq_parse_sgr_color. cbv zeta.
  rewrite Hpn.
  destruct (param_nonfinal B k).
  - rewrite (u32_shift n k), (u32_succ k) by lia.
    rewrite !Hpar by lia.
    rewrite !(Hnx (k + 1)) by lia.
    replace (n + next B (k + 1) - (n + (k + 1))) with (next B (k + 1) - (k + 1)) by lia.
    repeat (repeat rewrite (u32_shift n) by lia;
            repeat rewrite u32_succ by lia;
            rewrite ?Hpar, ?Hpd by lia;
            match goal with
            | |- context [if ?c then _ else _] =>
                lazymatch c with
                | context [if _ then _ else _] => fail
                | _ => destruct c
                end
            end;
            cbn [fst snd negb andb orb]);
      repeat rewrite (u32_shift n) by lia;
      repeat rewrite u32_succ by lia;
      rewrite ?Hpar, ?Hpd by lia;
      reflexivity.
  - rewrite !(Hnx k) by lia.
    rewrite !Hpar by lia.
    rewrite ?(Hnx (next B k)) by lia.
    rewrite ?Hpar by lia.
    rewrite ?(Hnx (next B (next B k))) by lia.
    rewrite ?Hpar by lia.
    rewrite ?(Hnx (next B (next B (next B k)))) by lia.
    rewrite ?Hpar by lia.
    repeat match goal with
      | |- context [if ?c then _ else _] =>
          lazymatch c with
          | context [if _ then _ else _] => fail
          | _ => destruct c
          end; cbn [fst snd]
      end;
      reflexivity.
Qed.


Lemma SGR_param_app_r a b k u :
  wf (mk_seq (a ++ b)) -> 0 <= k <= 16 ->
  SGR_param defs (mk_seq (a ++ b)) (Sequence.size (mk_seq a) + k) u
  = (Sequence.size (mk_seq a) + fst (SGR_param defs (mk_seq b) k u),
     snd (SGR_param defs (mk_seq b) k u)).
Proof.
  intros Hwf Hk.
  pose proof (wf_size _ Hwf) as Hsz. rewrite size_app in Hsz.
  pose proof (size_nonneg (mk_seq a)) as Ha. pose proof (size_nonneg (mk_seq b)) as Hb.
  unfold SGR_param. cbv zeta.
  rewrite !seq_parse_sgr_color_app_r by assumption.
  rewrite !param_app_r, !param_nonfinal_app_r by lia.
  rewrite (u32_shift (Sequence.size (mk_seq a)) k), (u32_succ k) by lia.
  unfold param_clamped. rewrite param_app_r by lia.
  repeat match goal with
    | |- context [if ?c then _ else _] =>
        lazymatch c with
        | context [if _ then _ else _] => fail
        | context [param_nonfinal] => fail
        | _ => destruct c
        end; cbn [fst snd]
    end;
    try reflexivity;
    match goal with
    | |- context [seq_parse_sgr_color ?d ?x ?y ?z ?s ?i] =>
        destruct (seq_parse_sgr_color d x y z s i) as [? [?|]]; reflexivity
    end.
Qed.

Lemma SGR_loop_app_r a b : wf (mk_seq (a ++ b)) ->
  forall f k u, 0 <= k ->
    SGR_loop defs f (mk_seq (a ++ b)) (Sequence.size (mk_seq a) + k) u
    = SGR_loop defs f (mk_seq b) k u.
Proof.
  intros Hwf.
  pose proof (wf_app_r a b Hwf) as HwfB. pose proof (wf_size _ HwfB) as HszB.
  induction f as [|f IH]; intros k u Hk; [reflexivity|].
  cbn [SGR_loop]. rewrite ltb_size_app_r.
  destruct (Z.ltb_spec k (Sequence.size (mk_seq b))) as [Hlt|Hge]; [|reflexivity].
  rewrite SGR_param_app_r by (assumption || lia).
  pose proof (SGR_param_idx defs (mk_seq b) k u HwfB ltac:(lia)) as Hidx.
  destruct (SGR_param defs (mk_seq b) k u) as [i' u']. cbn [fst snd] in *.
  rewrite next_app_r by (assumption || lia).
  apply IH.
  pose proof (next_bounds (mk_seq b) i' HwfB) as Hn. unfold UINT_MAX in Hn.
  specialize (Hn ltac:(lia)). lia.
Qed.

(** *** Plain parameters *)

Lemma SGR_param_plain seq seq' i u :
  param seq' i (-1) = param seq i (-1) ->
  param_nonfinal seq i = false -> param_nonfinal seq' i = false ->
  param seq i (-1) <> 38 -> param seq i (-1) <> 48 -> param seq i (-1) <> 58 ->
  SGR_param defs seq' i u = SGR_param defs seq i u
  /\ fst (SGR_param defs seq i u) = i.
Proof.
  intros Hp Hnf Hnf' H38 H48 H58. unfold SGR_param. cbv zeta.
  rewrite Hp, Hnf, Hnf'.
  apply Z.eqb_neq in H38, H48, H58. rewrite H38, H48, H58.
  repeat match goal with
    | |- context [if ?c then _ else _] => destruct c; cbn [fst]
    end;
    split; reflexivity.
Qed.

Lemma plain_parameter_at a i :
  forallb plain_parameter a = true -> 0 <= i < Sequence.size (mk_seq a) ->
  param_nonfinal (mk_seq a) i = false
  /\ param (mk_seq a) i (-1) <> 38
  /\ param (mk_seq a) i (-1) <> 48
  /\ param (mk_seq a) i (-1) <> 58.
Proof.
  intros Hall Hi. unfold param_nonfinal, param, arg_at, Sequence.size in *. cbn [args] in *.
  destruct (Z.ltb_spec i (Z.of_nat (length a))) as [_|]; [|lia].
  rewrite forallb_forall in Hall.
  assert (Hnth : (Z.to_nat i < length a)%nat) by lia.
  specialize (Hall (nth (Z.to_nat i) a VTE_SEQ_ARG_INIT_DEFAULT)
                (nth_In a VTE_SEQ_ARG_INIT_DEFAULT Hnth)).
  unfold plain_parameter in Hall.
  generalize dependent (nth (Z.to_nat i) a VTE_SEQ_ARG_INIT_DEFAULT). intros arg Hall.
  apply andb_prop in Hall as [Hall H58]. apply andb_prop in Hall as [Hall H48].
  apply andb_prop in Hall as [Hnf H38].
  apply negb_true_iff in Hnf, H38, H48, H58.
  apply Z.eqb_neq in H38, H48, H58.
  unfold vte_seq_arg_nonfinal. repeat apply conj; assumption.
Qed.

Lemma SGR_loop_app_l a b :
  wf (mk_seq (a ++ b)) -> forallb plain_parameter a = true ->
  forall (m : nat) i u fa fb ua r,
    i = Sequence.size (mk_seq a) - Z.of_nat m -> 0 <= i ->
    SGR_loop defs fa (mk_seq a) i u = Some ua ->
    SGR_loop defs fb (mk_seq (a ++ b)) (Sequence.size (mk_seq a)) ua = Some r ->
    SGR_loop defs (m + fb) (mk_seq (a ++ b)) i u = Some r.
Proof.
  intros Hwf Hplain.
  pose proof (wf_size _ Hwf) as Hsz. rewrite size_app in Hsz.
  pose proof (size_nonneg (mk_seq b)) as Hb.
  induction m as [|m IH]; intros i u fa fb ua r Hi Hi0 Ha Hab.
  - replace i with (Sequence.size (mk_seq a)) in * by lia.
    destruct fa as [|fa]; [discriminate Ha|]. cbn [SGR_loop] in Ha.
    rewrite Z.ltb_irrefl in Ha. injection Ha as <-. exact Hab.
  - assert (Hlt : 0 <= i < Sequence.size (mk_seq a)) by lia.
    destruct fa as [|fa]; [discriminate Ha|]. cbn [SGR_loop Nat.add] in *.
    destruct (ltb_size_app_l a b i Hlt) as [E1 E2]. rewrite E1. rewrite E2 in Ha.
    destruct (plain_parameter_at a i Hplain Hlt) as (Hnf & H38 & H48 & H58).
    destruct (SGR_param_plain (mk_seq a) (mk_seq (a ++ b)) i u) as [Hsame Hfst];
      try assumption.
    { apply param_app_l. exact Hlt. }
    { rewrite param_nonfinal_app_l by exact Hlt. exact Hnf. }
    rewrite Hsame.
    destruct (SGR_param defs (mk_seq a) i u) as [i' u']. cbn [fst] in Hfst. subst i'.
    rewrite next_final in Ha by (unfold UINT_MAX; lia || exact Hnf).
    rewrite next_final
      by (unfold UINT_MAX; lia || (rewrite param_nonfinal_app_l by exact Hlt; exact Hnf)).
    apply (IH (i + 1) u' fa fb ua r); [lia | lia | exact Ha | exact Hab].
Qed.

(** *** States that differ in the saved colours *)

Lemma colours_apart_refl u : colours_apart u u.
Proof.
  exists (m_color_defaults u), (m_fill_defaults u).
  split; [destruct u; reflexivity|]. split; reflexivity.
Qed.

Lemma colours_apart_save u : colours_apart u (SGR_save_colors u).
Proof.
  exists (copy_colors (m_defaults u) (m_color_defaults u)),
    (copy_colors (m_defaults u) (m_fill_defaults u)).
  split; [reflexivity|]. split; reflexivity.
Qed.

Lemma save_colours_apart u u' :
  colours_apart u u' -> SGR_save_colors u' = SGR_save_colors u.
Proof.
  intros (c & f & -> & Hc & Hf). unfold SGR_save_colors. cbn.
  rewrite Hc, Hf. reflexivity.
Qed.

Lemma SGR_param_colours_apart seq i u u' :
  colours_apart u u' ->
  fst (SGR_param defs seq i u') = fst (SGR_param defs seq i u)
  /\ colours_apart (snd (SGR_param defs seq i u)) (snd (SGR_param defs seq i u')).
Proof.
  intros (c & f & -> & Hc & Hf). unfold SGR_param. cbv zeta.
  repeat match goal with
    | |- context [if ?c then _ else _] =>
        lazymatch c with
        | context [if _ then _ else _] => fail
        | context [param_nonfinal] => fail
        | _ => destruct c
        end
    | |- context [seq_parse_sgr_color ?d ?x ?y ?z ?s ?i] =>
        destruct (seq_parse_sgr_color d x y z s i) as [? [?|]]
    end;
    cbn [fst snd];
    (split; [reflexivity|]);
    first [ exists c, f; split; [reflexivity | split; assumption]
          | exists (basic_cell defs), (basic_cell defs);
            split; [reflexivity | split; reflexivity] ].
Qed.

Lemma SGR_loop_colours_apart : forall f seq i u u' r,
  colours_apart u u' -> SGR_loop defs f seq i u = Some r ->
  exists r', SGR_loop defs f seq i u' = Some r' /\ colours_apart r r'.
Proof.
  induction f as [|f IH]; intros seq i u u' r Hu H; [discriminate H|].
  cbn [SGR_loop] in *. destruct (i <? Sequence.size seq).
  - destruct (SGR_param_colours_apart seq i u u' Hu) as [Hfst Hsnd].
    destruct (SGR_param defs seq i u) as [i1 u1].
    destruct (SGR_param defs seq i u') as [i1' u1']. cbn [fst snd] in *. subst i1'.
    apply (IH _ _ _ _ _ Hsnd H).
  - injection H as <-. exists u'. split; [reflexivity | exact Hu].
Qed.

End SGRCompose.

(** X22.  SGR over a concatenation.  When the parameters [a] are final
    parameters none of which is 38, 48 or 58, and neither [a] nor [b] is
    empty, SGR with the parameters [a] followed by [b] leaves the state
    that SGR with [a] and then SGR with [b] leave. *)
Theorem SGR_concatenation (defs : Defines) (a b : list vte_seq_arg_t)
    (t : VteTerminalPrivate)
    (Ha : a <> []) (Hb : b <> [])
    (Hwf : wf (mk_seq (a ++ b)))
    (Hplain : forallb plain_parameter a = true) :
  SGR defs (mk_seq (a ++ b)) t = SGR defs (mk_seq b) (SGR defs (mk_seq a) t).
Proof.
  pose proof (wf_app_l a b Hwf) as HwfA. pose proof (wf_app_r a b Hwf) as HwfB.
  assert (HsA : Sequence.size (mk_seq a) <> 0).
  { unfold Sequence.size. cbn [args]. destruct a; [contradiction | cbn; lia]. }
  assert (HsB : Sequence.size (mk_seq b) <> 0).
  { unfold Sequence.size. cbn [args]. destruct b; [contradiction | cbn; lia]. }
  assert (HsAB : Sequence.size (mk_seq (a ++ b)) <> 0).
  { rewrite size_app. pose proof (size_nonneg (mk_seq a)).
    pose proof (size_nonneg (mk_seq b)). lia. }
  destruct (SGR_loop_terminates defs (mk_seq a) HwfA (S (length a)) 0 t)
    as (ra & Hra); [lia | unfold Sequence.size; cbn [args]; lia | lia |].
  destruct (SGR_loop_terminates defs (mk_seq b) HwfB (S (length b)) 0 ra)
    as (rb & Hrb); [lia | unfold Sequence.size; cbn [args]; lia | lia |].
  rewrite (SGR_of_loop defs (mk_seq a) t _ ra HwfA HsA Hra).
  destruct (SGR_loop_colours_apart defs _ _ _ _ _ _ (colours_apart_save ra) Hrb)
    as (rb' & Hrb' & Hapart).
  rewrite (SGR_of_loop defs (mk_seq b) _ _ rb' HwfB HsB Hrb').
  rewrite (save_colours_apart _ _ Hapart).
  apply (SGR_of_loop defs (mk_seq (a ++ b)) t
           (length a + S (length b)) rb Hwf HsAB).
  apply (SGR_loop_app_l defs a b Hwf Hplain (length a) 0 t (S (length a)) (S (length b))
           ra rb); [unfold Sequence.size; cbn [args]; lia | lia | exact Hra |].
  rewrite <- (Z.add_0_r (Sequence.size (mk_seq a))).
  rewrite SGR_loop_app_r by (assumption || lia). exact Hrb.
Qed.

Lemma SGR_concatenation_witness :
  SGR upstream_defines (mk_seq ([fin 1; fin 31] ++ [fin 48; fin 5; fin 200; fin 4]))
    (power_on 24 80)
  = SGR upstream_defines (mk_seq [fin 48; fin 5; fin 200; fin 4])
      (SGR upstream_defines (mk_seq [fin 1; fin 31]) (power_on 24 80)).
Proof.
  apply (SGR_concatenation upstream_defines [fin 1; fin 31]
           [fin 48; fin 5; fin 200; fin 4] (power_on 24 80)).
  - discriminate.
  - discriminate.
  - unfold wf, VTE_PARSER_ARG_MAX. cbn. lia.
  - reflexivity.
Defined.

(** ** Colour specifications out of range *)

Section ColourSpecification.

Lemma param_list seq (k : nat) :
  param seq (Z.of_nat k) (-1) = list_value (args seq) k.
Proof.
  unfold param, Sequence.size, arg_at, list_value. rewrite Nat2Z.id.
  destruct (Z.ltb_spec (Z.of_nat k) (Z.of_nat (length (args seq)))) as [Hlt|Hge].
  - change (-1) with (arg_number VTE_SEQ_ARG_INIT_DEFAULT) at 2.
    rewrite map_nth. reflexivity.
  - rewrite nth_overflow; [reflexivity|]. rewrite length_map. lia.
Qed.







End ColourSpecification.

Section ColourSkipped.
Context (defs : Defines).


End ColourSkipped.



(** ** What SGR keeps *)

Section SGRNoReset.
Context (defs : Defines).

Lemma no_reset_parameter_at seq (k : nat) :
  no_reset_parameter seq = true -> (k < length (args seq))%nat ->
  list_value (args seq) k <> 0 /\ list_value (args seq) k <> -1.
Proof.
  unfold no_reset_parameter, list_value. intros Hno Hk.
  apply andb_prop in Hno as [_ Hall]. rewrite forallb_forall in Hall.
  change (-1) with (arg_number VTE_SEQ_ARG_INIT_DEFAULT) at 1 2.
  rewrite map_nth.
  specialize (Hall (nth k (args seq) VTE_SEQ_ARG_INIT_DEFAULT)
                (nth_In (args seq) VTE_SEQ_ARG_INIT_DEFAULT Hk)).
  apply andb_prop in Hall as [H0 H1].
  apply negb_true_iff, Z.eqb_neq in H0, H1.
  split; [exact H0|]. cbn. exact H1.
Qed.

Lemma SGR_keeps_param_no_reset seq i t :
  param seq i (-1) <> 0 -> param seq i (-1) <> -1 ->
  SGR_keeps t (snd (SGR_param defs seq i t)).
Proof.
  intros H0 H1. unfold SGR_param. cbv zeta.
  apply Z.eqb_neq in H0, H1. rewrite H0, H1. cbn [orb].
  repeat match goal with
    | |- context [if ?c then _ else _] =>
        lazymatch c with
        | context [if _ then _ else _] => fail
        | context [param_nonfinal] => fail
        | _ => destruct c
        end
    | |- context [seq_parse_sgr_color ?d ?a ?b ?c ?s ?i] =>
        destruct (seq_parse_sgr_color d a b c s i) as [? [?|]]
    end;
    cbn [snd];
    first [ apply SGR_keeps_refl
          | apply SGR_keeps_on_defaults; intros a; reflexivity ].
Qed.

Lemma SGR_keeps_loop_no_reset seq :
  wf seq -> no_reset_parameter seq = true ->
  forall fuel i t t',
    0 <= i -> SGR_loop defs fuel seq i t = Some t' -> SGR_keeps t t'.
Proof.
  intros Hwf Hno. pose proof (wf_size _ Hwf) as Hsz.
  induction fuel as [|fuel IH]; intros i t t' Hi H; [discriminate H|].
  cbn [SGR_loop] in H. destruct (Z.ltb_spec i (Sequence.size seq)) as [Hlt|Hge].
  - pose proof (SGR_param_idx defs seq i t Hwf ltac:(lia)) as Hidx.
    assert (Hp : SGR_keeps t (snd (SGR_param defs seq i t))).
    { destruct (no_reset_parameter_at seq (Z.to_nat i) Hno) as [H0 H1];
        [unfold Sequence.size in Hlt; lia|].
      rewrite <- param_list, Z2Nat.id in H0, H1 by lia.
      apply SGR_keeps_param_no_reset; assumption. }
    destruct (SGR_param defs seq i t) as [i' u]. cbn [fst snd] in *.
    apply (SGR_keeps_trans t u t' Hp).
    pose proof (next_bounds seq i' Hwf) as Hn. unfold UINT_MAX in Hn.
    specialize (Hn ltac:(lia)).
    apply (IH (next seq i') u t'); [lia | exact H].
  - injection H as <-. apply SGR_keeps_refl.
Qed.

Lemma SGR_keeps_no_reset seq t :
  wf seq -> no_reset_parameter seq = true ->
  exists u, SGR defs seq t = SGR_save_colors u /\ SGR_keeps t u.
Proof.
  intros Hwf Hno. unfold SGR.
  assert (Hne : Sequence.size seq <> 0).
  { unfold no_reset_parameter in Hno. apply andb_prop in Hno as [Hne _].
    apply negb_true_iff, Nat.eqb_neq in Hne. unfold Sequence.size. lia. }
  destruct (Z.eqb_spec (Sequence.size seq) 0) as [E|_]; [contradiction|].
  destruct (SGR_loop_terminates defs seq Hwf (S (length (args seq))) 0 t)
    as (u & Hu); [lia | unfold Sequence.size; lia | lia |].
  rewrite Hu. exists u. split; [reflexivity|].
  apply (SGR_keeps_loop_no_reset seq Hwf Hno (S (length (args seq))) 0 t u);
    [lia | exact Hu].
Qed.

End SGRNoReset.

(** X20.  What SGR keeps and leaves in step.  For a sequence of at most
    16 parameters that has a parameter and none that is 0 or default,
    so that no reset is asked for, SGR changes the three attribute
    records only and leaves the current hyperlink as it is; when it
    returns, the colour defaults and the fill defaults have the
    foreground, background and decoration colours of the current
    attributes. *)
Theorem SGR_attributes_in_step (defs : Defines) (seq : vte_seq) (t : VteTerminalPrivate)
    (Hwf : wf seq) (Hno : no_reset_parameter seq = true) :
  let t' := SGR defs seq t in
  attributes_only t t'
  /\ hyperlink_idx (m_defaults t') = hyperlink_idx (m_defaults t)
  /\ same_colors (m_color_defaults t') (m_defaults t')
  /\ same_colors (m_fill_defaults t') (m_defaults t').
Proof.
  intros t'. subst t'.
  destruct (SGR_keeps_no_reset defs seq t Hwf Hno) as (u & -> & Hframe & Hlink).
  assert (Hsave : SGR_keeps u (SGR_save_colors u)).
  { split; [|reflexivity].
    exists (m_defaults u), (copy_colors (m_defaults u) (m_color_defaults u)),
      (copy_colors (m_defaults u) (m_fill_defaults u)).
    destruct u; reflexivity. }
  destruct (SGR_keeps_trans _ _ _ (conj Hframe Hlink) Hsave) as [Hf Hl].
  repeat apply conj; try assumption; reflexivity.
Qed.

Lemma SGR_attributes_in_step_witness :
  same_colors
    (m_color_defaults (SGR upstream_defines (mk_seq [fin 1; fin 31; fin 44]) (power_on 24 80)))
    (m_defaults (SGR upstream_defines (mk_seq [fin 1; fin 31; fin 44]) (power_on 24 80)))
  /\ hyperlink_idx
       (m_defaults (SGR upstream_defines (mk_seq [fin 1; fin 31; fin 44]) (power_on 24 80)))
     = hyperlink_idx (m_defaults (power_on 24 80)).
Proof.
  destruct (SGR_attributes_in_step upstream_defines (mk_seq [fin 1; fin 31; fin 44])
              (power_on 24 80)) as (_ & Hl & Hc & _).
  - unfold wf, VTE_PARSER_ARG_MAX. cbn. lia.
  - reflexivity.
  - split; [exact Hc | exact Hl].
Defined.

(** ** The cursor row, set and read back *)

(** X23.  [get_cursor_row] after [set_cursor_row].  A row set within
    the limits is read back as it was set when the scrolling region is
    not restricted, and when it is restricted and origin mode is on;
    with a restricted region and origin mode off the setter counts from
    the top of the screen and the getter from the top of the region, so
    that the row read back is the row set less the first row of the
    region. *)
Theorem get_cursor_row_after_set (r : Z) (t : VteTerminalPrivate)
    (Hr : 0 <= r) :
  (m_scrolling_restricted t = false -> r <= m_row_count t - 1 ->
   get_cursor_row (set_cursor_row r t) = r)
  /\ (origin_restricted t = true ->
      r <= region_end (m_scrolling_region t) - region_start (m_scrolling_region t) ->
      get_cursor_row (set_cursor_row r t) = r)
  /\ (m_scrolling_restricted t = true -> truthy (m_origin_mode t) = false ->
      r <= m_row_count t - 1 ->
      get_cursor_row (set_cursor_row r t) = r - region_start (m_scrolling_region t)).
Proof.
  unfold origin_restricted, get_cursor_row, set_cursor_row, set_cursor, CLAMP.
  destruct_state t.
  repeat apply conj.
  - intros -> Hle. rewrite andb_false_r. cbn. split_ifs; lia.
  - intros Ho Hle. rewrite Ho. apply andb_prop in Ho as [_ ->]. cbn. split_ifs; lia.
  - intros -> Ho Hle. rewrite Ho. cbn. split_ifs; lia.
Qed.

Lemma get_cursor_row_after_set_witness :
  get_cursor_row (set_cursor_row 7 (restricted_state 5 10 0 0 (power_on 24 80))) = 2.
Proof.
  destruct (get_cursor_row_after_set 7 (restricted_state 5 10 0 0 (power_on 24 80)))
    as (_ & _ & H); [lia|].
  apply H; [reflexivity | reflexivity | change (7 <= 24 - 1); lia].
Defined.

(** ** The grid invariant along a run of handlers *)

Section GridInvariant.
Context (defs : Defines)
        (external_handler : decset_handler_t -> VteTerminalPrivate -> VteTerminalPrivate).

Lemma grid_ok_view t t' : grid_view t' = grid_view t -> grid_ok t -> grid_ok t'.
Proof.
  unfold grid_view, grid_ok, region_in_grid, cursor_in_grid.
  intros [= Hc Hd HR HC Hres Hreg]. rewrite Hc, Hd, HR, HC, Hres, Hreg. tauto.
Qed.

Lemma grid_ok_home_cursor t : grid_ok t -> grid_ok (home_cursor t).
Proof.
  unfold grid_ok, region_in_grid, cursor_in_grid, home_cursor, set_cursor_coords,
    set_cursor_row, set_cursor_column, set_cursor, CLAMP.
  intros (HR & HC & Hregion & Hcursor).
  destruct (m_scrolling_restricted t) eqn:Hres;
    [specialize (Hregion eq_refl) | clear Hregion];
    destruct_state t; subst;
    (destruct (truthy m_origin_mode0); cbn;
     split_ifs; repeat apply conj; try lia; try discriminate; intros _; lia).
Qed.

Lemma grid_ok_clear_screen t : grid_ok t -> grid_ok (clear_screen t).
Proof.
  intros Hok. unfold clear_screen. cbv zeta.
  destruct (ring_appends_screen (Z.to_nat (m_row_count t)) t)
    as (Hn & Hc & Hd & He & Hr).
  cbv zeta in *.
  assert (Hview : grid_view (Nat.iter (Z.to_nat (m_row_count t)) ring_append t)
                  = grid_view t).
  { clear Hok Hn Hc Hd He Hr.
    induction (Z.to_nat (m_row_count t)) as [|n IH]; [reflexivity|].
    rewrite Nat.iter_succ. rewrite <- IH. reflexivity. }
  generalize dependent (Nat.iter (Z.to_nat (m_row_count t)) ring_append t).
  intros u Hn Hc Hd He Hr Hview.
  unfold grid_view in Hview. injection Hview as Hvc Hvd HvR HvC Hvres Hvreg.
  unfold grid_ok, region_in_grid, cursor_in_grid in *.
  unfold set_insert_delta, set_cursor, do_effect. cbn.
  rewrite ?Hvc, ?Hvd, ?HvR, ?HvC, ?Hvres, ?Hvreg.
  destruct Hok as (HR & HC & Hregion & Hcursor).
  repeat apply conj; try assumption; lia.
Qed.

Lemma grid_ok_internal_hook (h : option decset_handler_t) (b : bool) t :
  internal_hook h = true -> grid_ok t ->
  grid_ok (match h with
           | Some h' => if b then call_handler external_handler h' t else t
           | None => t
           end).
Proof.
  intros Hh Hok. destruct h as [[]|]; try discriminate Hh; destruct b; try exact Hok;
    (apply (grid_ok_view t); [reflexivity | exact Hok]).
Qed.

Lemma grid_ok_decset_apply key set t :
  internal_hook (set_hook key) = true -> internal_hook (reset_hook key) = true ->
  grid_ok t -> grid_ok (decset_apply external_handler key set t).
Proof.
  intros Hs Hr Hok. unfold decset_apply.
  apply (grid_ok_internal_hook (reset_hook key) (negb set) _ Hr).
  pose proof (grid_ok_internal_hook (set_hook key) set t Hs Hok) as Hu.
  revert Hu. generalize (match set_hook key with
                         | Some h => if set then call_handler external_handler h t else t
                         | None => t
                         end). intros u Hu.
  destruct (boffset key); [|destruct (ioffset key); [|destruct (poffset key)]];
    try exact Hu; (apply (grid_ok_view u); [reflexivity | exact Hu]).
Qed.

Lemma decset_find_internal_hooks (setting : Z) (key : decset_t) :
  ~ In (int16 setting) hooked_settings ->
  decset_find defs setting = Some key ->
  internal_hook (set_hook key) = true /\ internal_hook (reset_hook key) = true.
Proof.
  intros Hn. unfold decset_find, settings. cbn [find ds_setting].
  generalize dependent (int16 setting). intros s Hn.
  repeat match goal with
    | |- context [?k =? s] =>
        let E := fresh "E" in
        destruct (Z.eqb_spec k s) as [E|E];
        [intros [= <-];
         first [split; reflexivity | exfalso; apply Hn; rewrite <- E; in_list] |]
    end.
  discriminate.
Qed.

Lemma grid_ok_do_effect e t : grid_ok t -> grid_ok (do_effect e t).
Proof. apply grid_ok_view. reflexivity. Qed.

Lemma grid_ok_decset_switch setting set t :
  grid_ok t -> grid_ok (decset_switch setting set t).
Proof.
  intros Hok. unfold decset_switch.
  repeat match goal with
    | |- context [if ?c then _ else _] =>
        lazymatch c with
        | context [if _ then _ else _] => fail
        | _ => destruct c
        end
    end;
    repeat match goal with
      | |- grid_ok (do_effect _ _) => apply grid_ok_do_effect
      | |- grid_ok (home_cursor _) => apply grid_ok_home_cursor
      | |- grid_ok (clear_screen _) => apply grid_ok_clear_screen
      | |- grid_ok _ => exact Hok
      end.
Qed.

Lemma grid_ok_decset setting restore save set t :
  ~ In (int16 setting) hooked_settings ->
  grid_ok t -> grid_ok (decset defs external_handler setting restore save set t).
Proof.
  intros Hn Hok. unfold decset.
  destruct (decset_find defs setting) as [key|] eqn:Hfind; [|exact Hok].
  destruct (decset_find_internal_hooks setting key Hn Hfind) as [Hs Hr].
  unfold decset_entry. destruct (decset_ignored key).
  - apply grid_ok_decset_switch. exact Hok.
  - destruct save; cbn [negb decset_save].
    + apply grid_ok_decset_switch. apply (grid_ok_view t); [reflexivity | exact Hok].
    + apply grid_ok_decset_switch. apply grid_ok_decset_apply; assumption.
Qed.

Lemma grid_ok_set_current_hyperlink hyperlink_params uri t :
  grid_ok t -> grid_ok (set_current_hyperlink defs hyperlink_params uri t).
Proof.
  intros Hok. apply (grid_ok_view t); [|exact Hok].
  unfold set_current_hyperlink, set_hyperlink_idx_of, hyperlink_id, hyperlink_auto_id.
  destruct (negb (m_allow_hyperlink t)); [reflexivity|].
  repeat match goal with
    | |- context [match ?x with _ => _ end] =>
        lazymatch x with
        | context [match _ with _ => _ end] => fail
        | _ => destruct x
        end
    end; reflexivity.
Qed.

Lemma grid_ok_SGR seq t :
  wf seq -> no_reset_parameter seq = true -> grid_ok t -> grid_ok (SGR defs seq t).
Proof.
  intros Hwf Hno Hok. apply (grid_ok_view t); [|exact Hok].
  destruct (SGR_keeps_no_reset defs seq t Hwf Hno) as (u & -> & (d & c & f & ->) & _).
  reflexivity.
Qed.

Lemma grid_ok_step step t :
  grid_step defs external_handler step -> grid_ok t -> grid_ok (step t).
Proof.
  intros Hstep Hok. pose proof Hok as (HR & HC & Hregion & Hcursor).
  destruct Hstep as [h seq Hh | seq | h seq Hh | seq Hwf Hno | hp uri | seq | seq
                    | setting restore save set Hn].
  - assert (Hon : cursor_on_screen t).
    { unfold cursor_on_screen, cursor_in_grid in *. lia. }
    destruct (motion_handlers_grid h seq t Hh HR HC Hregion Hon) as [Hframe Hgrid].
    remember (cursor (m_screen (h seq t))) as p eqn:Hp. clear Hp.
    rewrite Hframe in Hgrid |- *.
    split; [exact HR|]. split; [exact HC|]. split; [exact Hregion | exact Hgrid].
  - destruct (DECSTBM_grid seq t HR HC) as (HR' & HC' & _ & Hgrid & Hres).
    cbv zeta in *. unfold grid_ok. rewrite HR', HC'.
    split; [exact HR|]. split; [exact HC|]. split; [|exact Hgrid].
    intros H. apply (Hres H).
  - unfold query_handlers in Hh. cbn [In] in Hh.
    apply (grid_ok_view t); [|exact Hok].
    repeat (destruct Hh as [<- | Hh]); [..| destruct Hh];
      unfold DECID, DA1, DA3, DSR_ECMA, DSR_DEC;
      repeat match goal with
        | |- context [if ?c then _ else _] =>
            lazymatch c with
            | context [if _ then _ else _] => fail
            | _ => destruct c
            end
        end; reflexivity.
  - apply grid_ok_SGR; assumption.
  - apply grid_ok_set_current_hyperlink. exact Hok.
  - apply (grid_ok_view t); [reflexivity | exact Hok].
  - apply (grid_ok_view t); [reflexivity | exact Hok].
  - apply grid_ok_decset; assumption.
Qed.

End GridInvariant.

(** X24.  The grid invariant holds along every run of handlers.  From a
    terminal with at least one row and one column, a restricted
    scrolling region within the grid and the cursor on the grid, any run
    of the cursor motion handlers, DECSTBM, the query handlers, SGR
    without a reset parameter, OSC 8, DECKPAM, DECKPNM and [decset] on
    any setting but 47, 1004, 1047, 1048 and 1049 leaves a terminal of
    this kind again, whatever the hooks of these five settings are: no
    step of such a run calls them.  What the handlers ask of the code
    around them (replies, signals, repaints) is taken as a request that
    leaves the terminal as it is. *)
Theorem handlers_keep_grid (defs : Defines)
    (external_handler : decset_handler_t -> VteTerminalPrivate -> VteTerminalPrivate)
    (steps : list (VteTerminalPrivate -> VteTerminalPrivate)) (t : VteTerminalPrivate)
    (Hsteps : Forall (grid_step defs external_handler) steps)
    (Ht : grid_ok t) :
  grid_ok (run_steps steps t).
Proof.
  unfold run_steps. revert t Ht.
  induction Hsteps as [|step steps Hstep _ IH]; intros t Ht; [exact Ht|].
  cbn [fold_left]. apply IH.
  apply (grid_ok_step defs external_handler step t Hstep Ht).
Qed.

Lemma handlers_keep_grid_witness :
  grid_ok
    (run_steps
       [DECSTBM (mk_seq [fin 3; fin 10]);
        decset upstream_defines no_external_handler 6 false false true;
        CUP (mk_seq [fin 9999; fin 9999]);
        CUD (mk_seq [fin 5]);
        decset upstream_defines no_external_handler 3 false false true;
        SGR upstream_defines (mk_seq [fin 1])]
       (power_on 24 80)).
Proof.
  assert (Hset : forall s, In s [6; 3] -> ~ In (int16 s) hooked_settings).
  { intros s [<- | [<- | []]]; vm_compute; intros H;
      repeat (destruct H as [H|H]; [discriminate H|]); exact H. }
  apply (handlers_keep_grid upstream_defines no_external_handler).
  - constructor; [apply step_DECSTBM|].
    constructor; [apply step_decset; apply Hset; left; reflexivity|].
    constructor; [apply (step_motion _ _ CUP); do 9 right; left; reflexivity|].
    constructor; [apply (step_motion _ _ CUD); do 6 right; left; reflexivity|].
    constructor; [apply step_decset; apply Hset; right; left; reflexivity|].
    constructor; [apply step_SGR;
                  [unfold wf, VTE_PARSER_ARG_MAX; cbn; lia | reflexivity]|].
    constructor.
  - unfold grid_ok, region_in_grid, cursor_in_grid. cbn.
    repeat apply conj; try lia; discriminate.
Defined.
